(** * Endless-runner game loop (Games_Amrita): a shallow embedding

    The repository holds two revisions of the React component [Game]:

    - the revision with the "hit" glimpse state (gravity -0.55, jump
      force 16, obstacle kinds rock / bush / tree, a minimum-distance
      check before an obstacle is spawned, an early [return] on an
      obstacle collision followed by a one-shot [setTimeout]); it is
      embedded in [Module Grace];
    - the revision of [client/src/pages/game.tsx] (gravity 0.6, jump
      force -12, no "hit" state, no distance check, no early return); it
      is embedded in [Module NoGrace].

    Modelling decisions, shared by both modules.

    - A JavaScript [number] is an exact rational ([Q]); IEEE-754 rounding
      is not modelled.  Inside the two modules [+], [-] and [*] are the
      operations on numbers ([add], [sub], [mul]), which return the exact
      result in lowest terms; in the statements, under [<], [<=] and [==],
      they are those of [Q].  The two agree up to [==] ([add_eq], [sub_eq],
      [mul_eq]).  Counters ([score], [coins], ids, the re-render tick) are
      integers ([Z]); [Math.floor] is [Qfloor].
    - The [useRef] cells and the [useState] cells of the component are the
      fields of one record [Game], threaded through every function.  A
      [setX] call takes effect at once: the closure of a callback always
      reads the committed [gameState].
    - [Math.random()] reads the next element of an infinite supply
      ([Rng]); each call advances the cursor by one.
    - [setTimeout] only records that one more callback is pending
      ([timeouts]); the host fires it later through the event
      [TimerFires].
      [requestAnimationFrame] is the host delivering [Frame] events; the
      guard at the head of [update] makes a frame outside "playing" a
      no-op, so the request id is not modelled.
    - Audio playback and rendering are outside the state. *)

From Stdlib Require Import QArith Qround ZArith List Bool Sorted Lia Lqa.
Import ListNotations.

Open Scope Q_scope.

(** ** Numbers *)

(** A JavaScript [number]: an exact rational.  The arithmetic below keeps
    every result in lowest terms, so that equal numbers are identical
    terms and long runs stay small. *)
Definition number : Type := Q.

Declare Scope js_scope.
Delimit Scope js_scope with js.
Bind Scope js_scope with number.

(** JavaScript [a + b], [a - b] and [a * b] on numbers. *)
Definition add (a b : number) : number := Qred (a + b)%Q.
Definition sub (a b : number) : number := Qred (a - b)%Q.
Definition mul (a b : number) : number := Qred (a * b)%Q.

(** JavaScript [a < b] on numbers. *)
Definition Qltb (a b : number) : bool :=
  (Qnum a * QDen b <? Qnum b * QDen a)%Z.

(** JavaScript [a > b] on numbers. *)
Definition Qgtb (a b : number) : bool := Qltb b a.

(** [Math.floor]. *)
Definition floor (a : number) : Z := Qfloor a.

Infix "+" := add : js_scope.
Infix "-" := sub : js_scope.
Infix "*" := mul : js_scope.
Infix "<?" := Qltb (at level 70, no associativity) : js_scope.
Infix ">?" := Qgtb (at level 70, no associativity) : js_scope.

(** ** The source of randomness *)

Record Rng : Type := mkRng { supply : nat -> number; cursor : nat }.

(** [Math.random()]: the value read and the advanced generator. *)
Definition random (g : Rng) : number * Rng :=
  (supply g (cursor g), mkRng (supply g) (S (cursor g))).

(** Every value of the supply lies in [[0, 1)], as [Math.random] promises. *)
Definition unit_interval (g : Rng) : Prop :=
  forall n : nat, 0 <= supply g n /\ supply g n < 1.

(** ** Rectangles and the overlap test *)

Module Rect.
Record t : Type := mk { x : number; y : number; w : number; h : number }.
End Rect.

(** The four-way comparison that both revisions write inline, once for
    obstacles and once for coins:
    [a.x < b.x + b.w && a.x + a.w > b.x && a.y < b.y + b.h && a.y + a.h > b.y]. *)
Definition overlap (a b : Rect.t) : bool :=
  ((Rect.x a <? Rect.x b + Rect.w b) &&
   (Rect.x a + Rect.w a >? Rect.x b) &&
   (Rect.y a <? Rect.y b + Rect.h b) &&
   (Rect.y a + Rect.h a >? Rect.y b))%js.

(** ** The player *)

Module Player.
Record t : Type := mk { y : number; dy : number; grounded : bool }.
End Player.

(** [xs[xs.length - 1]]: the last element, [undefined] on an empty array. *)
Fixpoint lastOf {A : Type} (xs : list A) : option A :=
  match xs with
  | [] => None
  | [a] => Some a
  | _ :: rest => lastOf rest
  end.

(** [!lastTimeRef.current]: [null] and [0] are falsy. *)
Definition falsy (v : option number) : bool :=
  match v with
  | None => true
  | Some t => Qeq_bool t 0
  end.

(** * The revision with the "hit" glimpse state *)

Module Grace.

Local Open Scope js_scope.

(** ** Game constants *)

Definition GRAVITY : number := -0.55.
Definition JUMP_FORCE : number := 16.
Definition SPEED_INCREMENT : number := 0.0005.

(** ** Data *)

Inductive GameState : Type := playing | hit | gameover.

Definition GameState_eqb (a b : GameState) : bool :=
  match a, b with
  | playing, playing | hit, hit | gameover, gameover => true
  | _, _ => false
  end.

Inductive ObstacleType : Type := rock | bush | tree.

Module Obstacle.
Record t : Type :=
  mk { id : Z; x : number; w : number; h : number; type : ObstacleType }.
End Obstacle.

Module Coin.
Record t : Type := mk { id : Z; x : number; y : number; collected : bool }.
End Coin.

(** The cells of the component.  [timeouts] counts the callbacks
    registered with [setTimeout] that have not fired yet. *)
Record Game : Type := mkGame {
  gameState : GameState;
  score : Z;
  coins : Z;
  tick : Z;
  playerRef : Player.t;
  obstaclesRef : list Obstacle.t;
  coinsRef : list Coin.t;
  gameSpeedRef : number;
  scoreRef : number;
  lastTimeRef : option number;
  bgOffsetRef : number;
  nextIdRef : Z;
  timeouts : nat
}.

(** The state at mount: the initial values of [useState] and [useRef]. *)
Definition initial : Game :=
  {| gameState := playing; score := 0; coins := 0; tick := 0;
     playerRef := Player.mk 0 0 true;
     obstaclesRef := []; coinsRef := [];
     gameSpeedRef := 7; scoreRef := 0; lastTimeRef := None;
     bgOffsetRef := 0; nextIdRef := 0; timeouts := 0 |}.

(** ** Assignments to single cells *)

Definition setGameState (v : GameState) (s : Game) : Game :=
  mkGame v (score s) (coins s) (tick s) (playerRef s) (obstaclesRef s)
    (coinsRef s) (gameSpeedRef s) (scoreRef s) (lastTimeRef s)
    (bgOffsetRef s) (nextIdRef s) (timeouts s).

Definition setScore (v : Z) (s : Game) : Game :=
  mkGame (gameState s) v (coins s) (tick s) (playerRef s) (obstaclesRef s)
    (coinsRef s) (gameSpeedRef s) (scoreRef s) (lastTimeRef s)
    (bgOffsetRef s) (nextIdRef s) (timeouts s).

Definition setCoins (v : Z) (s : Game) : Game :=
  mkGame (gameState s) (score s) v (tick s) (playerRef s) (obstaclesRef s)
    (coinsRef s) (gameSpeedRef s) (scoreRef s) (lastTimeRef s)
    (bgOffsetRef s) (nextIdRef s) (timeouts s).

Definition setTick (v : Z) (s : Game) : Game :=
  mkGame (gameState s) (score s) (coins s) v (playerRef s) (obstaclesRef s)
    (coinsRef s) (gameSpeedRef s) (scoreRef s) (lastTimeRef s)
    (bgOffsetRef s) (nextIdRef s) (timeouts s).

Definition set_playerRef (v : Player.t) (s : Game) : Game :=
  mkGame (gameState s) (score s) (coins s) (tick s) v (obstaclesRef s)
    (coinsRef s) (gameSpeedRef s) (scoreRef s) (lastTimeRef s)
    (bgOffsetRef s) (nextIdRef s) (timeouts s).

Definition set_obstaclesRef (v : list Obstacle.t) (s : Game) : Game :=
  mkGame (gameState s) (score s) (coins s) (tick s) (playerRef s) v
    (coinsRef s) (gameSpeedRef s) (scoreRef s) (lastTimeRef s)
    (bgOffsetRef s) (nextIdRef s) (timeouts s).

Definition set_coinsRef (v : list Coin.t) (s : Game) : Game :=
  mkGame (gameState s) (score s) (coins s) (tick s) (playerRef s)
    (obstaclesRef s) v (gameSpeedRef s) (scoreRef s) (lastTimeRef s)
    (bgOffsetRef s) (nextIdRef s) (timeouts s).

Definition set_gameSpeedRef (v : number) (s : Game) : Game :=
  mkGame (gameState s) (score s) (coins s) (tick s) (playerRef s)
    (obstaclesRef s) (coinsRef s) v (scoreRef s) (lastTimeRef s)
    (bgOffsetRef s) (nextIdRef s) (timeouts s).

Definition set_scoreRef (v : number) (s : Game) : Game :=
  mkGame (gameState s) (score s) (coins s) (tick s) (playerRef s)
    (obstaclesRef s) (coinsRef s) (gameSpeedRef s) v (lastTimeRef s)
    (bgOffsetRef s) (nextIdRef s) (timeouts s).

Definition set_lastTimeRef (v : option number) (s : Game) : Game :=
  mkGame (gameState s) (score s) (coins s) (tick s) (playerRef s)
    (obstaclesRef s) (coinsRef s) (gameSpeedRef s) (scoreRef s) v
    (bgOffsetRef s) (nextIdRef s) (timeouts s).

Definition set_bgOffsetRef (v : number) (s : Game) : Game :=
  mkGame (gameState s) (score s) (coins s) (tick s) (playerRef s)
    (obstaclesRef s) (coinsRef s) (gameSpeedRef s) (scoreRef s)
    (lastTimeRef s) v (nextIdRef s) (timeouts s).

Definition set_nextIdRef (v : Z) (s : Game) : Game :=
  mkGame (gameState s) (score s) (coins s) (tick s) (playerRef s)
    (obstaclesRef s) (coinsRef s) (gameSpeedRef s) (scoreRef s)
    (lastTimeRef s) (bgOffsetRef s) v (timeouts s).

(** [setTimeout(cb, 1500)]: one more callback is pending. *)
Definition setTimeout (s : Game) : Game :=
  mkGame (gameState s) (score s) (coins s) (tick s) (playerRef s)
    (obstaclesRef s) (coinsRef s) (gameSpeedRef s) (scoreRef s)
    (lastTimeRef s) (bgOffsetRef s) (nextIdRef s) (S (timeouts s)).

(** The host takes one pending callback off its queue. *)
Definition clearOneTimeout (s : Game) : Game :=
  mkGame (gameState s) (score s) (coins s) (tick s) (playerRef s)
    (obstaclesRef s) (coinsRef s) (gameSpeedRef s) (scoreRef s)
    (lastTimeRef s) (bgOffsetRef s) (nextIdRef s) (pred (timeouts s)).

(** "Physics: y is height above ground (positive is up)". *)
Definition verticalOffset (p : Player.t) : number := Player.y p.

(** ** handleJump *)

Definition handleJump (s : Game) : Game :=
  if Player.grounded (playerRef s) && GameState_eqb (gameState s) playing
  then
    set_playerRef (Player.mk (Player.y (playerRef s)) JUMP_FORCE false) s
  else s.

(** ** The phases of [update] *)

(** [if (!lastTimeRef.current) lastTimeRef.current = time;] *)
Definition stampTime (time : number) (s : Game) : Game :=
  if falsy (lastTimeRef s) then set_lastTimeRef (Some time) s else s.

(** Gravity and the ground collision, on the player object. *)
Definition physics (p : Player.t) : Player.t :=
  let dy := Player.dy p + GRAVITY in
  let y := Player.y p + dy in
  if (y <? 0)%js then Player.mk 0 0 true
  else Player.mk y dy (Player.grounded p).

(** [gameSpeedRef.current += SPEED_INCREMENT;
     bgOffsetRef.current += gameSpeedRef.current;] *)
Definition speedUp (s : Game) : Game :=
  let s := set_gameSpeedRef (gameSpeedRef s + SPEED_INCREMENT) s in
  set_bgOffsetRef (bgOffsetRef s + gameSpeedRef s) s.

(** The kind and the size chosen from [typeRand]. *)
Definition chooseType (typeRand : number) : ObstacleType * number * number :=
  if (typeRand >? 0.65)%js then (tree, 70, 90)
  else if (typeRand >? 0.35)%js then (bush, 60, 50)
  else (rock, 50, 50).

(** [!lastObs || lastObs.x < 800], with
    [lastObs = obstaclesRef.current[obstaclesRef.current.length - 1]]. *)
Definition farEnough (obstacles : list Obstacle.t) : bool :=
  match lastOf obstacles with
  | None => true
  | Some lastObs => (Obstacle.x lastObs <? 800)%js
  end.

(** The obstacle branch of the spawning block. *)
Definition spawnObstacle (s : Game) (g : Rng) : Game * Rng :=
  let (r, g) := random g in
  if (r <? 0.015)%js then
    let (typeRand, g) := random g in
    let '(type, width, height) := chooseType typeRand in
    if farEnough (obstaclesRef s) then
      let id := nextIdRef s in
      let s := set_nextIdRef (id + 1)%Z s in
      let (rx, g) := random g in
      (set_obstaclesRef
         (obstaclesRef s ++
            [Obstacle.mk id (1300 + rx * 300) width height type]) s, g)
    else (s, g)
  else (s, g).

(** The coin branch of the spawning block. *)
Definition spawnCoin (s : Game) (g : Rng) : Game * Rng :=
  let (r, g) := random g in
  if (r <? 0.02)%js then
    let id := nextIdRef s in
    let s := set_nextIdRef (id + 1)%Z s in
    let (ry, g) := random g in
    (set_coinsRef
       (coinsRef s ++
          [Coin.mk id 1300 (if (ry >? 0.5)%js then 160 else 70) false]) s,
     g)
  else (s, g).

Definition moveObstacle (speed : number) (obs : Obstacle.t) : Obstacle.t :=
  Obstacle.mk (Obstacle.id obs) (Obstacle.x obs - speed)
    (Obstacle.w obs) (Obstacle.h obs) (Obstacle.type obs).

Definition moveCoin (speed : number) (c : Coin.t) : Coin.t :=
  Coin.mk (Coin.id c) (Coin.x c - speed) (Coin.y c) (Coin.collected c).

(** Shift every obstacle and every coin to the left by the game speed and
    drop those that left the screen. *)
Definition advance (s : Game) : Game :=
  let speed := gameSpeedRef s in
  let s :=
    set_obstaclesRef
      (filter (fun obs => (Obstacle.x obs >? -200)%js)
         (map (moveObstacle speed) (obstaclesRef s))) s in
  set_coinsRef
    (filter (fun c => (Coin.x c >? -100)%js)
       (map (moveCoin speed) (coinsRef s))) s.

Definition playerHitbox (p : Player.t) : Rect.t :=
  Rect.mk (100 + 20) (Player.y p) 30 60.

Definition obsHitbox (obs : Obstacle.t) : Rect.t :=
  Rect.mk (Obstacle.x obs + 10) 0 (Obstacle.w obs - 20) (Obstacle.h obs - 10).

Definition coinHitbox (c : Coin.t) : Rect.t :=
  Rect.mk (Coin.x c) (Coin.y c) 40 40.

(** The [for ... of] loop over the obstacles.  It leaves at the first
    obstacle whose hitbox overlaps the player's; the result is the list of
    the obstacles whose hitbox was tested, in order, and whether the loop
    left through the collision branch. *)
Fixpoint checkObstacles (ph : Rect.t) (obstacles : list Obstacle.t)
  : list Obstacle.t * bool :=
  match obstacles with
  | [] => ([], false)
  | obs :: rest =>
      if overlap ph (obsHitbox obs) then ([obs], true)
      else
        let (tested, found) := checkObstacles ph rest in
        (obs :: tested, found)
  end.

(** One iteration of the [forEach] over the coins: the coin afterwards and
    whether [setCoins(prev => prev + 1)] was called. *)
Definition checkCoin (ph : Rect.t) (c : Coin.t) : Coin.t * bool :=
  if Coin.collected c then (c, false)
  else if overlap ph (coinHitbox c)
  then (Coin.mk (Coin.id c) (Coin.x c) (Coin.y c) true, true)
  else (c, false).

Fixpoint checkCoins (ph : Rect.t) (cs : list Coin.t) (count : Z)
  : list Coin.t * Z :=
  match cs with
  | [] => ([], count)
  | c :: rest =>
      let (c', got) := checkCoin ph c in
      let (rest', count') :=
        checkCoins ph rest (if got then count + 1 else count)%Z in
      (c' :: rest', count')
  end.

Definition collectCoins (ph : Rect.t) (s : Game) : Game :=
  let (cs, n) := checkCoins ph (coinsRef s) (coins s) in
  setCoins n (set_coinsRef cs s).

(** [scoreRef.current += 0.15; setScore(Math.floor(scoreRef.current));
     setTick(prev => prev + 1);] *)
Definition addScore (s : Game) : Game :=
  let s := set_scoreRef (scoreRef s + 0.15) s in
  let s := setScore (floor (scoreRef s)) s in
  setTick (tick s + 1)%Z s.

(** ** update *)

(** The blocks "Physics", "Speed increase", "Spawning" and the moving and
    pruning of "Updates & Collision", in the order of the source. *)
Definition simulate (s : Game) (g : Rng) : Game * Rng :=
  let s := set_playerRef (physics (playerRef s)) s in
  let s := speedUp s in
  let (s, g) := spawnObstacle s g in
  let (s, g) := spawnCoin s g in
  (advance s, g).

(** The body of [update] from the time stamp down to the pruning of the
    coins, that is, everything before "Collision Detection". *)
Definition beforeCollision (time : number) (s : Game) (g : Rng) : Game * Rng :=
  simulate (stampTime time s) g.

(** "Collision Detection" and what follows it: the obstacle loop with its
    [return], the coin loop, the score and the forced re-render. *)
Definition collisionDetection (s : Game) (g : Rng) : Game * Rng :=
  let ph := playerHitbox (playerRef s) in
  if snd (checkObstacles ph (obstaclesRef s))
  then (* HIT: setGameState, setTimeout, return *)
    (setTimeout (setGameState hit s), g)
  else (addScore (collectCoins ph s), g).

Definition update (time : number) (s : Game) (g : Rng) : Game * Rng :=
  if negb (GameState_eqb (gameState s) playing) then (s, g)
  else
    let (s, g) := beforeCollision time s g in
    collisionDetection s g.

(** The callback registered by [setTimeout]. *)
Definition onTimeout (s : Game) : Game := setGameState gameover s.

(** ** resetGame *)

Definition resetGame (s : Game) : Game :=
  let s := set_playerRef (Player.mk 0 0 true) s in
  let s := set_obstaclesRef [] s in
  let s := set_coinsRef [] s in
  let s := set_gameSpeedRef 7 s in
  let s := set_scoreRef 0 s in
  let s := set_bgOffsetRef 0 s in
  let s := setScore 0 s in
  let s := setCoins 0 s in
  setGameState playing s.

(** ** The host: events delivered to the component *)

Inductive Event : Type :=
| Frame (time : number)   (* an animation frame runs [update] *)
| KeyJump            (* Space, ArrowUp, click or touch runs [handleJump] *)
| TryAgain           (* the TRY AGAIN button runs [resetGame] *)
| TimerFires.        (* a pending [setTimeout] callback runs *)

(** What the handlers do, whoever calls them. *)
Definition step (e : Event) (st : Game * Rng) : Game * Rng :=
  match e with
  | Frame time => update time (fst st) (snd st)
  | KeyJump => (handleJump (fst st), snd st)
  | TryAgain => (resetGame (fst st), snd st)
  | TimerFires => (onTimeout (clearOneTimeout (fst st)), snd st)
  end.

Definition run (es : list Event) (st : Game * Rng) : Game * Rng :=
  fold_left (fun st e => step e st) es st.

(** What the rendered page can deliver.  The TRY AGAIN button is part of
    the modal rendered under [gameState === "gameover"]; a timer callback
    needs a pending [setTimeout]. *)
Definition enabled (e : Event) (s : Game) : bool :=
  match e with
  | Frame _ => true
  | KeyJump => true
  | TryAgain => GameState_eqb (gameState s) gameover
  | TimerFires => negb (Nat.eqb (timeouts s) 0)
  end.

(** The states the page reaches from mount with the supply [g0]. *)
Inductive reachable (g0 : Rng) : Game * Rng -> Prop :=
| reach_mount : reachable g0 (initial, g0)
| reach_step (e : Event) (st : Game * Rng) :
    reachable g0 st -> enabled e (fst st) = true ->
    reachable g0 (step e st).

(** The animation frames number [first] to [first + n - 1], 16 ms apart. *)
Definition frames (first n : nat) : list Event :=
  map (fun k => Frame (inject_Z (16 * Z.of_nat k))) (seq first n).

(** Every event of [es] is enabled in the state in which it arrives. *)
Fixpoint allowed (es : list Event) (st : Game * Rng) : bool :=
  match es with
  | [] => true
  | e :: rest => enabled e (fst st) && allowed rest (step e st)
  end.

(** ** Vocabulary of the statements *)

(** The test of the obstacle loop: the hitbox of [obs] overlaps [ph]. *)
Definition hits (ph : Rect.t) (obs : Obstacle.t) : bool :=
  overlap ph (obsHitbox obs).

(** The coin [c] was in the list of [s], already collected. *)
Definition collectedBefore (s : Game) (c : Coin.t) : Prop :=
  exists c0 : Coin.t,
    In c0 (coinsRef s) /\ Coin.id c0 = Coin.id c /\
    Coin.y c0 = Coin.y c /\ Coin.collected c0 = true.

(** The state with the time stamp blanked: every cell but [lastTimeRef]. *)
Definition forgetTime (s : Game) : Game := set_lastTimeRef None s.

(** A block of [update] commutes with an assignment to [lastTimeRef]. *)
Definition ignoresTime (f : Game -> Rng -> Game * Rng) : Prop :=
  forall (v : option number) (s : Game) (g : Rng),
    f (set_lastTimeRef v s) g
    = (set_lastTimeRef v (fst (f s g)), snd (f s g)).

(** The cells that no statement of [update] before collision detection
    writes to. *)
Definition untouched (s s' : Game) : Prop :=
  gameState s' = gameState s /\ score s' = score s /\
  coins s' = coins s /\ tick s' = tick s /\
  scoreRef s' = scoreRef s /\ timeouts s' = timeouts s.

(** [b] lies more than the minimum distance to the right of [a]: the spawn
    position is at least 1300 and the last obstacle must be left of 800. *)
Definition gap (a b : Obstacle.t) : Prop :=
  (1300 - 800 < Obstacle.x b - Obstacle.x a)%Q.

(** Every obstacle lies more than the minimum distance to the right of
    every obstacle before it in the list. *)
Definition spaced (obstacles : list Obstacle.t) : Prop :=
  StronglySorted gap obstacles.



End Grace.

(** * The revision of client/src/pages/game.tsx *)

Module NoGrace.

Local Open Scope js_scope.

(** ** Game constants *)

Definition GRAVITY : number := 0.6.
Definition JUMP_FORCE : number := -12.
Definition SPEED_INCREMENT : number := 0.001.
Definition OBSTACLE_SPAWN_RATE : number := 2000.
Definition COIN_SPAWN_RATE : number := 1500.

(** ** Data *)

Inductive GameState : Type := playing | gameover.

Definition GameState_eqb (a b : GameState) : bool :=
  match a, b with
  | playing, playing | gameover, gameover => true
  | _, _ => false
  end.

Inductive ObstacleType : Type := rock | bush.

Module Obstacle.
Record t : Type := mk { x : number; w : number; h : number; type : ObstacleType }.
End Obstacle.

Module Coin.
Record t : Type := mk { x : number; y : number; collected : bool }.
End Coin.

Record Game : Type := mkGame {
  gameState : GameState;
  score : Z;
  coins : Z;
  playerRef : Player.t;
  obstaclesRef : list Obstacle.t;
  coinsRef : list Coin.t;
  gameSpeedRef : number;
  scoreRef : number;
  lastTimeRef : option number;
  bgOffsetRef : number
}.

Definition initial : Game :=
  {| gameState := playing; score := 0; coins := 0;
     playerRef := Player.mk 0 0 true;
     obstaclesRef := []; coinsRef := [];
     gameSpeedRef := 5; scoreRef := 0; lastTimeRef := None;
     bgOffsetRef := 0 |}.

(** ** Assignments to single cells *)

Definition setGameState (v : GameState) (s : Game) : Game :=
  mkGame v (score s) (coins s) (playerRef s) (obstaclesRef s) (coinsRef s)
    (gameSpeedRef s) (scoreRef s) (lastTimeRef s) (bgOffsetRef s).

Definition setScore (v : Z) (s : Game) : Game :=
  mkGame (gameState s) v (coins s) (playerRef s) (obstaclesRef s)
    (coinsRef s) (gameSpeedRef s) (scoreRef s) (lastTimeRef s)
    (bgOffsetRef s).

Definition setCoins (v : Z) (s : Game) : Game :=
  mkGame (gameState s) (score s) v (playerRef s) (obstaclesRef s)
    (coinsRef s) (gameSpeedRef s) (scoreRef s) (lastTimeRef s)
    (bgOffsetRef s).

Definition set_playerRef (v : Player.t) (s : Game) : Game :=
  mkGame (gameState s) (score s) (coins s) v (obstaclesRef s) (coinsRef s)
    (gameSpeedRef s) (scoreRef s) (lastTimeRef s) (bgOffsetRef s).

Definition set_obstaclesRef (v : list Obstacle.t) (s : Game) : Game :=
  mkGame (gameState s) (score s) (coins s) (playerRef s) v (coinsRef s)
    (gameSpeedRef s) (scoreRef s) (lastTimeRef s) (bgOffsetRef s).

Definition set_coinsRef (v : list Coin.t) (s : Game) : Game :=
  mkGame (gameState s) (score s) (coins s) (playerRef s) (obstaclesRef s) v
    (gameSpeedRef s) (scoreRef s) (lastTimeRef s) (bgOffsetRef s).

Definition set_gameSpeedRef (v : number) (s : Game) : Game :=
  mkGame (gameState s) (score s) (coins s) (playerRef s) (obstaclesRef s)
    (coinsRef s) v (scoreRef s) (lastTimeRef s) (bgOffsetRef s).

Definition set_scoreRef (v : number) (s : Game) : Game :=
  mkGame (gameState s) (score s) (coins s) (playerRef s) (obstaclesRef s)
    (coinsRef s) (gameSpeedRef s) v (lastTimeRef s) (bgOffsetRef s).

Definition set_lastTimeRef (v : option number) (s : Game) : Game :=
  mkGame (gameState s) (score s) (coins s) (playerRef s) (obstaclesRef s)
    (coinsRef s) (gameSpeedRef s) (scoreRef s) v (bgOffsetRef s).

Definition set_bgOffsetRef (v : number) (s : Game) : Game :=
  mkGame (gameState s) (score s) (coins s) (playerRef s) (obstaclesRef s)
    (coinsRef s) (gameSpeedRef s) (scoreRef s) (lastTimeRef s) v.

(** Gravity is positive and the jump force negative in this revision:
    [y] grows towards the ground and the ground is [y = 0], so the height
    of the player above the ground is [- y]. *)
Definition verticalOffset (p : Player.t) : number := - Player.y p.

(** ** handleJump *)

Definition handleJump (s : Game) : Game :=
  if Player.grounded (playerRef s) && GameState_eqb (gameState s) playing
  then
    set_playerRef (Player.mk (Player.y (playerRef s)) JUMP_FORCE false) s
  else s.

(** ** The phases of [update] *)

(** [if (!lastTimeRef.current) lastTimeRef.current = time;
     const deltaTime = time - lastTimeRef.current;
     lastTimeRef.current = time;]
    The local [deltaTime] is returned next to the state; nothing in
    [update] reads it afterwards. *)
Definition stampTime (time : number) (s : Game) : Game * number :=
  let s := if falsy (lastTimeRef s) then set_lastTimeRef (Some time) s
           else s in
  let deltaTime :=
    time - match lastTimeRef s with Some t => t | None => 0 end in
  (set_lastTimeRef (Some time) s, deltaTime).

Definition physics (p : Player.t) : Player.t :=
  let dy := Player.dy p + GRAVITY in
  let y := Player.y p + dy in
  if (y >? 0)%js then Player.mk 0 0 true
  else Player.mk y dy (Player.grounded p).

Definition speedUp (s : Game) : Game :=
  let s := set_gameSpeedRef (gameSpeedRef s + SPEED_INCREMENT) s in
  set_bgOffsetRef (bgOffsetRef s + gameSpeedRef s) s.

Definition spawnObstacle (s : Game) (g : Rng) : Game * Rng :=
  let (r, g) := random g in
  if (r <? 0.015)%js then
    let (rt, g) := random g in
    (set_obstaclesRef
       (obstaclesRef s ++
          [Obstacle.mk 1000 50 50 (if (rt >? 0.5)%js then rock else bush)])
       s, g)
  else (s, g).

Definition spawnCoin (s : Game) (g : Rng) : Game * Rng :=
  let (r, g) := random g in
  if (r <? 0.02)%js then
    let (ry, g) := random g in
    (set_coinsRef
       (coinsRef s ++
          [Coin.mk 1000 (if (ry >? 0.5)%js then -100 else -50) false]) s,
     g)
  else (s, g).

Definition moveObstacle (speed : number) (obs : Obstacle.t) : Obstacle.t :=
  Obstacle.mk (Obstacle.x obs - speed) (Obstacle.w obs) (Obstacle.h obs)
    (Obstacle.type obs).

Definition moveCoin (speed : number) (c : Coin.t) : Coin.t :=
  Coin.mk (Coin.x c - speed) (Coin.y c) (Coin.collected c).

Definition advance (s : Game) : Game :=
  let speed := gameSpeedRef s in
  let s :=
    set_obstaclesRef
      (filter (fun obs => (Obstacle.x obs >? -100)%js)
         (map (moveObstacle speed) (obstaclesRef s))) s in
  set_coinsRef
    (filter (fun c => (Coin.x c >? -100)%js)
       (map (moveCoin speed) (coinsRef s))) s.

Definition playerHitbox (p : Player.t) : Rect.t :=
  Rect.mk 50 (300 - Player.y p - 80) 40 60.

Definition obsHitbox (obs : Obstacle.t) : Rect.t :=
  Rect.mk (Obstacle.x obs) (300 - Obstacle.h obs) (Obstacle.w obs)
    (Obstacle.h obs).

Definition coinHitbox (c : Coin.t) : Rect.t :=
  Rect.mk (Coin.x c) (300 + Coin.y c) 30 30.

(** The [for ... of] loop over the obstacles.  Its body has no [break]
    and no [return]: every obstacle is tested, and each overlap calls
    [setGameState("gameover")].  The result is the list of the obstacles
    whose hitbox was tested and the state afterwards. *)
Fixpoint checkObstacles (ph : Rect.t) (obstacles : list Obstacle.t)
    (s : Game) : list Obstacle.t * Game :=
  match obstacles with
  | [] => ([], s)
  | obs :: rest =>
      let s := if overlap ph (obsHitbox obs) then setGameState gameover s
               else s in
      let (tested, s) := checkObstacles ph rest s in
      (obs :: tested, s)
  end.

Definition checkCoin (ph : Rect.t) (c : Coin.t) : Coin.t * bool :=
  if Coin.collected c then (c, false)
  else if overlap ph (coinHitbox c)
  then (Coin.mk (Coin.x c) (Coin.y c) true, true)
  else (c, false).

Fixpoint checkCoins (ph : Rect.t) (cs : list Coin.t) (count : Z)
  : list Coin.t * Z :=
  match cs with
  | [] => ([], count)
  | c :: rest =>
      let (c', got) := checkCoin ph c in
      let (rest', count') :=
        checkCoins ph rest (if got then count + 1 else count)%Z in
      (c' :: rest', count')
  end.

Definition collectCoins (ph : Rect.t) (s : Game) : Game :=
  let (cs, n) := checkCoins ph (coinsRef s) (coins s) in
  setCoins n (set_coinsRef cs s).

(** [scoreRef.current += 0.1; setScore(Math.floor(scoreRef.current));] *)
Definition addScore (s : Game) : Game :=
  let s := set_scoreRef (scoreRef s + 0.1) s in
  setScore (floor (scoreRef s)) s.

(** ** update *)

(** The blocks "Physics", "Speed increase", "Spawning" and the moving and
    pruning of "Updates & Collision", in the order of the source. *)
Definition simulate (s : Game) (g : Rng) : Game * Rng :=
  let s := set_playerRef (physics (playerRef s)) s in
  let s := speedUp s in
  let (s, g) := spawnObstacle s g in
  let (s, g) := spawnCoin s g in
  (advance s, g).

(** The body of [update] from the time stamp down to the pruning of the
    coins, that is, everything before "Collision Detection". *)
Definition beforeCollision (time : number) (s : Game) (g : Rng) : Game * Rng :=
  let (s, deltaTime) := stampTime time s in
  simulate s g.

(** "Collision Detection" and what follows it: the obstacle loop, the coin
    loop and the score. *)
Definition collisionDetection (s : Game) (g : Rng) : Game * Rng :=
  let ph := playerHitbox (playerRef s) in
  let s := snd (checkObstacles ph (obstaclesRef s) s) in
  (addScore (collectCoins ph s), g).

Definition update (time : number) (s : Game) (g : Rng) : Game * Rng :=
  if negb (GameState_eqb (gameState s) playing) then (s, g)
  else
    let (s, g) := beforeCollision time s g in
    collisionDetection s g.

(** ** resetGame *)

Definition resetGame (s : Game) : Game :=
  let s := set_playerRef (Player.mk 0 0 true) s in
  let s := set_obstaclesRef [] s in
  let s := set_coinsRef [] s in
  let s := set_gameSpeedRef 5 s in
  let s := set_scoreRef 0 s in
  let s := set_bgOffsetRef 0 s in
  let s := setScore 0 s in
  let s := setCoins 0 s in
  setGameState playing s.

(** ** The host: events delivered to the component *)

Inductive Event : Type :=
| Frame (time : number)  (* an animation frame runs [update] *)
| KeyJump                (* Space, ArrowUp, click or touch runs [handleJump] *)
| TryAgain.              (* the TRY AGAIN button runs [resetGame] *)

Definition step (e : Event) (st : Game * Rng) : Game * Rng :=
  match e with
  | Frame time => update time (fst st) (snd st)
  | KeyJump => (handleJump (fst st), snd st)
  | TryAgain => (resetGame (fst st), snd st)
  end.

Definition run (es : list Event) (st : Game * Rng) : Game * Rng :=
  fold_left (fun st e => step e st) es st.

(** The TRY AGAIN button is part of the modal rendered under
    [gameState === "gameover"]. *)
Definition enabled (e : Event) (s : Game) : bool :=
  match e with
  | Frame _ => true
  | KeyJump => true
  | TryAgain => GameState_eqb (gameState s) gameover
  end.

(** The states the page reaches from mount with the supply [g0]. *)
Inductive reachable (g0 : Rng) : Game * Rng -> Prop :=
| reach_mount : reachable g0 (initial, g0)
| reach_step (e : Event) (st : Game * Rng) :
    reachable g0 st -> enabled e (fst st) = true ->
    reachable g0 (step e st).

(** The animation frames number [first] to [first + n - 1], 16 ms apart. *)
Definition frames (first n : nat) : list Event :=
  map (fun k => Frame (inject_Z (16 * Z.of_nat k))) (seq first n).

(** Every event of [es] is enabled in the state in which it arrives. *)
Fixpoint allowed (es : list Event) (st : Game * Rng) : bool :=
  match es with
  | [] => true
  | e :: rest => enabled e (fst st) && allowed rest (step e st)
  end.

(** ** Vocabulary of the statements *)

(** The test of the obstacle loop: the hitbox of [obs] overlaps [ph]. *)
Definition hits (ph : Rect.t) (obs : Obstacle.t) : bool :=
  overlap ph (obsHitbox obs).

(** The state with the time stamp blanked: every cell but [lastTimeRef]. *)
Definition forgetTime (s : Game) : Game := set_lastTimeRef None s.

(** A block of [update] commutes with an assignment to [lastTimeRef]. *)
Definition ignoresTime (f : Game -> Rng -> Game * Rng) : Prop :=
  forall (v : option number) (s : Game) (g : Rng),
    f (set_lastTimeRef v s) g
    = (set_lastTimeRef v (fst (f s g)), snd (f s g)).

(** The cells that no statement of [update] before collision detection
    writes to. *)
Definition untouched (s s' : Game) : Prop :=
  gameState s' = gameState s /\ score s' = score s /\
  coins s' = coins s /\ scoreRef s' = scoreRef s.

End NoGrace.

(** * The words of the specification *)

Module Spec.

(** The Physics Integrator: new velocity = velocity + gravity, new
    position = position + new velocity; on ground contact the position
    is clamped to ground level (0), the velocity zeroed and [grounded]
    set.  [below] says on which side of the ground plane a position has
    crossed it (the sign convention of the variant). *)
Definition integrates (gravity : Q) (below : Q -> Prop)
    (p p' : Player.t) : Prop :=
  let velocity := (Player.dy p + gravity)%Q in
  let position := (Player.y p + velocity)%Q in
  (below position -> p' = Player.mk 0 0 true) /\
  (~ below position ->
   Player.y p' == position /\ Player.dy p' == velocity /\
   Player.grounded p' = Player.grounded p).

(** Two intervals [(lo1, hi1)] and [(lo2, hi2)] intersect when some point
    lies strictly inside both. *)
Definition intervals_meet (lo1 hi1 lo2 hi2 : Q) : Prop :=
  exists t : Q, (lo1 < t /\ t < hi1) /\ (lo2 < t /\ t < hi2).

(** The projections of a rectangle on the two axes. *)
Definition x_meet (a b : Rect.t) : Prop :=
  intervals_meet (Rect.x a) (Rect.x a + Rect.w a)%Q
                 (Rect.x b) (Rect.x b + Rect.w b)%Q.

Definition y_meet (a b : Rect.t) : Prop :=
  intervals_meet (Rect.y a) (Rect.y a + Rect.h a)%Q
                 (Rect.y b) (Rect.y b + Rect.h b)%Q.

(** A rectangle proper: positive width and height. *)
Definition proper (r : Rect.t) : Prop := 0 < Rect.w r /\ 0 < Rect.h r.

End Spec.

(** * Sample runs *)

Module Sample.

(** A supply on which nothing is ever spawned: every draw is 1/2. *)
Definition quiet : Rng := mkRng (fun _ => 0.5) 0.

(** A supply on which every spawn draw succeeds: every draw is 0. *)
Definition eager : Rng := mkRng (fun _ => 0) 0.

(** The first three draws are 0.  In the "hit" revision the first tick
    spawns a rock at 1300; nothing else is ever spawned. *)
Definition oneRock : Rng :=
  mkRng (fun n => if (n <? 3)%nat then 0 else 0.5) 0.

(** The first five draws are 0.  In the "hit" revision the first tick
    spawns a rock and a coin (at height 70), both at 1300. *)
Definition rockAndCoin : Rng :=
  mkRng (fun n => if (n <? 5)%nat then 0 else 0.5) 0.

(** Draws 0 to 2, 60 and 161 are 0.  In the "hit" revision the obstacle
    draw succeeds on ticks 1, 30 and 80. *)
Definition threeDraws : Rng :=
  mkRng (fun n => if (n <? 3)%nat then 0
                  else if (n =? 60)%nat then 0
                  else if (n =? 161)%nat then 0 else 0.5) 0.

(** The first two draws are 0.  In the game.tsx revision the first tick
    spawns a bush at 1000; nothing else is ever spawned. *)
Definition oneBush : Rng :=
  mkRng (fun n => if (n <? 2)%nat then 0 else 0.5) 0.

(** Draws 0 to 3 and 200 are 0.  In the game.tsx revision the first tick
    spawns a bush and a coin (at height -50), both at 1000, and tick 100
    spawns a second bush. *)
Definition bushCoinBush : Rng :=
  mkRng (fun n => if (n <? 4)%nat then 0
                  else if (n =? 200)%nat then 0 else 0.5) 0.

(** The "hit" revision right after a jump from the initial state. *)
Definition graceJumped : Grace.Game := Grace.handleJump Grace.initial.

(** The game.tsx revision right after a jump from the initial state. *)
Definition nograceJumped : NoGrace.Game := NoGrace.handleJump NoGrace.initial.

(** The "hit" revision after 164 frames and a key press: the rock and the
    coin have come from 1300 to 145.235 and the player is taking off.  On
    the next frame the player (at height 15.45) overlaps both. *)
Definition graceDoomed : Grace.Game * Rng :=
  Grace.run (Grace.frames 1 164 ++ [Grace.KeyJump])
    (Grace.initial, rockAndCoin).

(** The game.tsx revision after 178 frames: the first bush and the coin
    have come from 1000 to 94.069, the second bush is at 594.019, the
    player stands on the ground.  On the next frame the player overlaps the
    first bush and the coin. *)
Definition nograceDoomed : NoGrace.Game * Rng :=
  NoGrace.run (NoGrace.frames 1 178) (NoGrace.initial, bushCoinBush).

(** The "hit" revision after the player has jumped over the rock: the rock
    is at -195.289 and leaves the screen on the next frame. *)
Definition graceLeaving : Grace.Game * Rng :=
  Grace.run (Grace.frames 1 150 ++ [Grace.KeyJump] ++ Grace.frames 151 62)
    (Grace.initial, oneRock).

(** The game.tsx revision after the player has got past the bush: the bush
    is at -98.22 and leaves the screen on the next frame. *)
Definition nograceLeaving : NoGrace.Game * Rng :=
  NoGrace.run
    (NoGrace.frames 1 170 ++ [NoGrace.KeyJump] ++ NoGrace.frames 171 45)
    (NoGrace.initial, oneBush).

(** The "hit" revision before tick 30: the rock is at 1096.7825 and the
    obstacle draw of the next tick succeeds. *)
Definition graceCrowded : Grace.Game * Rng :=
  Grace.run (Grace.frames 1 29) (Grace.initial, threeDraws).

(** The "hit" revision before tick 80: the rock is at 745.42 and the
    obstacle draw of the next tick succeeds. *)
Definition graceSpawning : Grace.Game * Rng :=
  Grace.run (Grace.frames 1 79) (Grace.initial, threeDraws).

(** The game.tsx revision after one frame on the supply [eager]: a bush
    has been spawned and moved to 994.999, and the obstacle draw of the
    next tick succeeds. *)
Definition nograceSpawning : NoGrace.Game * Rng :=
  NoGrace.run (NoGrace.frames 1 1) (NoGrace.initial, eager).

End Sample.

(** * Vocabulary of the further properties *)

Module More.

(** An event that comes from the frame loop or from the player's keys. *)
Definition graceInput (e : Grace.Event) : Prop :=
  match e with
  | Grace.Frame _ | Grace.KeyJump => True
  | Grace.TryAgain | Grace.TimerFires => False
  end.

Definition nograceInput (e : NoGrace.Event) : Prop :=
  match e with
  | NoGrace.Frame _ | NoGrace.KeyJump => True
  | NoGrace.TryAgain => False
  end.

(** Identity of two numbers in lowest terms. *)
Definition number_eqb (a b : number) : bool :=
  ((Qnum a =? Qnum b)%Z && (Qden a =? Qden b)%positive)%bool.

Definition Player_eqb (p q : Player.t) : bool :=
  (number_eqb (Player.y p) (Player.y q) &&
   number_eqb (Player.dy p) (Player.dy q) &&
   Bool.eqb (Player.grounded p) (Player.grounded q))%bool.

(** The first [n] states of the player under repeated [f], from [p] on. *)
Fixpoint orbit (f : Player.t -> Player.t) (n : nat) (p : Player.t)
  : list Player.t :=
  match n with
  | O => []
  | S k => p :: orbit f k (f p)
  end.

(** The player at rest, and the states of one jump: the take-off set by
    [handleJump] and what the physics block makes of it, tick by tick,
    until the ground collision puts the player back at rest. *)
Definition atRest : Player.t := Player.mk 0 0 true.

Definition graceJumpArc : list Player.t :=
  atRest :: orbit Grace.physics 58 (Player.mk 0 Grace.JUMP_FORCE false).

Definition nograceJumpArc : list Player.t :=
  atRest :: orbit NoGrace.physics 40 (Player.mk 0 NoGrace.JUMP_FORCE false).

(** The three shapes of [chooseType]. *)
Definition shaped (obs : Grace.Obstacle.t) : Prop :=
  (Grace.Obstacle.type obs = Grace.rock /\
   Grace.Obstacle.w obs = 50 /\ Grace.Obstacle.h obs = 50) \/
  (Grace.Obstacle.type obs = Grace.bush /\
   Grace.Obstacle.w obs = 60 /\ Grace.Obstacle.h obs = 50) \/
  (Grace.Obstacle.type obs = Grace.tree /\
   Grace.Obstacle.w obs = 70 /\ Grace.Obstacle.h obs = 90).

(** The ids in use: those of the obstacles, then those of the coins. *)
Definition ids (s : Grace.Game) : list Z :=
  map Grace.Obstacle.id (Grace.obstaclesRef s) ++
  map Grace.Coin.id (Grace.coinsRef s).

(** The coins the coin loop marks: not yet collected and under the player. *)
Definition collectable (ph : Rect.t) (c : Grace.Coin.t) : bool :=
  (negb (Grace.Coin.collected c) && overlap ph (Grace.coinHitbox c))%bool.

(** A coin without its flag: id, position and height. *)
Definition coinShape (c : Grace.Coin.t) : Z * number * number :=
  (Grace.Coin.id c, Grace.Coin.x c, Grace.Coin.y c).

(** A coin of the game.tsx revision without its flag. *)
Definition nograceCoinShape (c : NoGrace.Coin.t) : number * number :=
  (NoGrace.Coin.x c, NoGrace.Coin.y c).

(** The coins the coin loop of the game.tsx revision marks. *)
Definition nograceCollectable (ph : Rect.t) (c : NoGrace.Coin.t) : bool :=
  (negb (NoGrace.Coin.collected c) && overlap ph (NoGrace.coinHitbox c))%bool.

(** The "hit" revision one frame after [Sample.graceDoomed]: the player
    has run into the rock and the state is "hit". *)
Definition graceStruck : Grace.Game * Rng :=
  Grace.step (Grace.Frame 2640) Sample.graceDoomed.

(** The game.tsx revision one frame after [Sample.nograceDoomed]: the
    state is "gameover". *)
Definition nograceOver : NoGrace.Game * Rng :=
  NoGrace.step (NoGrace.Frame 2864) Sample.nograceDoomed.

(** The "hit" revision after 163 frames without a key press: the rock and
    the coin are at 152.317 and the player stands on the ground.  On the
    next frame the coin (at height 70) is above the player and the rock is
    still before the player. *)
Definition graceUnderCoin : Grace.Game * Rng :=
  Grace.run (Grace.frames 1 163) (Grace.initial, Sample.rockAndCoin).

(** The "hit" revision after tick 80 on the supply [Sample.threeDraws]: a
    bush has been spawned behind the rock. *)
Definition graceTwoObstacles : Grace.Game * Rng :=
  Grace.step (Grace.Frame 1280) Sample.graceSpawning.

End More.

(** * Facts about numbers and lists *)

Lemma Qltb_lt (a b : Q) : Qltb a b = true <-> a < b.
Proof. unfold Qltb, Qlt. apply Z.ltb_lt. Qed.

Lemma Qltb_ge (a b : Q) : Qltb a b = false <-> b <= a.
Proof. unfold Qltb, Qle. rewrite Z.ltb_ge. reflexivity. Qed.

Lemma Qgtb_gt (a b : Q) : Qgtb a b = true <-> b < a.
Proof. unfold Qgtb. apply Qltb_lt. Qed.

Lemma Qgtb_le (a b : Q) : Qgtb a b = false <-> a <= b.
Proof. unfold Qgtb. apply Qltb_ge. Qed.

Lemma Qltb_reflect (a b : Q) : reflect (a < b) (Qltb a b).
Proof. apply iff_reflect. symmetry. apply Qltb_lt. Qed.

(** The arithmetic of numbers is the arithmetic of rationals. *)
Lemma add_eq (a b : Q) : add a b == a + b.
Proof. apply Qred_correct. Qed.

Lemma sub_eq (a b : Q) : sub a b == a - b.
Proof. apply Qred_correct. Qed.

Lemma mul_eq (a b : Q) : mul a b == a * b.
Proof. apply Qred_correct. Qed.

(** Numbers that are equal as rationals are identical once reduced. *)
Lemma add_canon (a b c : Q) : a + b == c -> add a b = Qred c.
Proof. intros H. unfold add. apply Qred_complete. exact H. Qed.

(** Turn the arithmetic of numbers in the goal into that of [Q]. *)
Ltac to_Q := rewrite ?add_eq, ?sub_eq, ?mul_eq.

Lemma lastOf_app {A : Type} (xs : list A) (a : A) : lastOf (xs ++ [a]) = Some a.
Proof.
  induction xs as [|b xs IH]; [reflexivity|].
  simpl. rewrite IH. destruct (xs ++ [a]) eqn:E; [|reflexivity].
  destruct xs; discriminate.
Qed.

Lemma lastOf_None {A : Type} (xs : list A) : lastOf xs = None -> xs = [].
Proof.
  induction xs as [|b xs IH]; [reflexivity|].
  simpl. destruct xs as [|c xs]; [discriminate|].
  intros H. apply IH in H. discriminate.
Qed.

(** * Facts about the overlap test *)

Lemma overlap_true (a b : Rect.t) :
  overlap a b = true <->
  (Rect.x a < Rect.x b + Rect.w b /\ Rect.x b < Rect.x a + Rect.w a) /\
  (Rect.y a < Rect.y b + Rect.h b /\ Rect.y b < Rect.y a + Rect.h a).
Proof.
  unfold overlap. rewrite !andb_true_iff, !Qgtb_gt, !Qltb_lt. to_Q. tauto.
Qed.

(** Two non-empty open intervals share a point exactly when each starts
    before the other ends. *)
Lemma intervals_meet_iff (lo1 hi1 lo2 hi2 : Q) :
  lo1 < hi1 -> lo2 < hi2 ->
  (Spec.intervals_meet lo1 hi1 lo2 hi2 <-> lo1 < hi2 /\ lo2 < hi1).
Proof.
  intros H1 H2. unfold Spec.intervals_meet. split.
  - intros [t [[Ha Hb] [Hc Hd]]]. split; lra.
  - intros [Ha Hb].
    destruct (Qlt_le_dec lo1 lo2) as [Hlo|Hlo];
      destruct (Qlt_le_dec hi1 hi2) as [Hhi|Hhi].
    + exists ((lo2 + hi1) * 0.5). repeat split; lra.
    + exists ((lo2 + hi2) * 0.5). repeat split; lra.
    + exists ((lo1 + hi1) * 0.5). repeat split; lra.
    + exists ((lo1 + hi2) * 0.5). repeat split; lra.
Qed.

(** Without the premise of non-emptiness one direction survives: a shared
    point forces the two comparisons. *)
Lemma intervals_meet_compare (lo1 hi1 lo2 hi2 : Q) :
  Spec.intervals_meet lo1 hi1 lo2 hi2 -> lo1 < hi2 /\ lo2 < hi1.
Proof. intros [t [[Ha Hb] [Hc Hd]]]. split; lra. Qed.

Lemma overlap_of_meet (a b : Rect.t) :
  Spec.x_meet a b -> Spec.y_meet a b -> overlap a b = true.
Proof.
  intros Hx Hy. apply overlap_true.
  split; [apply intervals_meet_compare in Hx|apply intervals_meet_compare in Hy];
    tauto.
Qed.

(** The premise of non-emptiness is needed for the other direction: a
    rectangle of width 0 passes the four comparisons against a rectangle
    around it although its projection on the x axis holds no point. *)
Remark overlap_degenerate :
  overlap (Rect.mk 0 0 0 1) (Rect.mk (-1) 0 2 1) = true /\
  ~ Spec.x_meet (Rect.mk 0 0 0 1) (Rect.mk (-1) 0 2 1).
Proof.
  split; [reflexivity|].
  intros [t [[Ha Hb] _]]. simpl in Ha, Hb. lra.
Qed.

(** The comparisons are strict: rectangles that share an edge and nothing
    more do not collide, and their open projections do not meet. *)
Remark overlap_touching :
  overlap (Rect.mk 0 0 1 1) (Rect.mk 1 0 1 1) = false /\
  ~ Spec.x_meet (Rect.mk 0 0 1 1) (Rect.mk 1 0 1 1).
Proof.
  split; [reflexivity|].
  intros [t [[Ha Hb] [Hc Hd]]]. simpl in Ha, Hb, Hc, Hd. lra.
Qed.

(** The hitboxes the two revisions build are rectangles proper. *)
Lemma grace_hitboxes_proper (p : Player.t) (c : Grace.Coin.t) :
  Spec.proper (Grace.playerHitbox p) /\ Spec.proper (Grace.coinHitbox c).
Proof. unfold Spec.proper. simpl. repeat split; reflexivity. Qed.

Lemma nograce_hitboxes_proper (p : Player.t) (c : NoGrace.Coin.t) :
  Spec.proper (NoGrace.playerHitbox p) /\ Spec.proper (NoGrace.coinHitbox c).
Proof. unfold Spec.proper. simpl. repeat split; reflexivity. Qed.

Lemma grace_chooseType_proper (typeRand x : Q) (id : Z) :
  let '(type, width, height) := Grace.chooseType typeRand in
  Spec.proper (Grace.obsHitbox (Grace.Obstacle.mk id x width height type)).
Proof.
  unfold Grace.chooseType.
  destruct (Qgtb typeRand 0.65); [|destruct (Qgtb typeRand 0.35)];
    unfold Spec.proper; simpl; split; reflexivity.
Qed.

(** * Facts about the revision with the "hit" state *)

Module GraceFacts.
Import Grace.

Lemma grace_eqb_playing (v : GameState) :
  GameState_eqb v playing = true <-> v = playing.
Proof. destruct v; simpl; split; congruence. Qed.

Lemma grace_untouched_refl s : untouched s s.
Proof. unfold untouched. tauto. Qed.

Lemma grace_untouched_trans s1 s2 s3 :
  untouched s1 s2 -> untouched s2 s3 -> untouched s1 s3.
Proof. unfold untouched. intuition congruence. Qed.

Lemma grace_stampTime_untouched time s : untouched s (stampTime time s).
Proof.
  unfold stampTime. destruct (falsy _); unfold untouched; simpl; tauto.
Qed.

Lemma grace_speedUp_untouched s : untouched s (speedUp s).
Proof. unfold untouched; simpl; tauto. Qed.

Lemma grace_spawnObstacle_untouched s g :
  untouched s (fst (spawnObstacle s g)).
Proof.
  unfold spawnObstacle, random.
  destruct (Qltb _ _); [|apply grace_untouched_refl].
  destruct (chooseType _) as [[ty wd] ht].
  destruct (farEnough _); unfold untouched; simpl; tauto.
Qed.

Lemma grace_spawnCoin_untouched s g : untouched s (fst (spawnCoin s g)).
Proof.
  unfold spawnCoin, random.
  destruct (Qltb _ _); unfold untouched; simpl; tauto.
Qed.

Lemma grace_advance_untouched s : untouched s (advance s).
Proof. unfold untouched; simpl; tauto. Qed.

Lemma grace_spawnObstacle_player s g :
  playerRef (fst (spawnObstacle s g)) = playerRef s.
Proof.
  unfold spawnObstacle, random.
  destruct (Qltb _ _); [|reflexivity].
  destruct (chooseType _) as [[ty wd] ht].
  destruct (farEnough _); reflexivity.
Qed.

Lemma grace_spawnCoin_player s g :
  playerRef (fst (spawnCoin s g)) = playerRef s.
Proof. unfold spawnCoin, random. destruct (Qltb _ _); reflexivity. Qed.

Lemma grace_stampTime_player time s :
  playerRef (stampTime time s) = playerRef s.
Proof. unfold stampTime. destruct (falsy _); reflexivity. Qed.

Lemma grace_beforeCollision_untouched time s g :
  untouched s (fst (beforeCollision time s g)).
Proof.
  unfold beforeCollision, simulate.
  set (s1 := stampTime time s).
  set (s2 := set_playerRef (physics (playerRef s1)) s1).
  set (s3 := speedUp s2).
  pose proof (grace_spawnObstacle_untouched s3 g) as H4.
  destruct (spawnObstacle s3 g) as [s4 g4]. simpl in H4.
  pose proof (grace_spawnCoin_untouched s4 g4) as H5.
  destruct (spawnCoin s4 g4) as [s5 g5]. simpl in *.
  eapply grace_untouched_trans; [apply (grace_stampTime_untouched time)|].
  fold s1.
  eapply grace_untouched_trans with (s2 := s3);
    [unfold untouched; simpl; tauto|].
  eapply grace_untouched_trans; [exact H4|].
  eapply grace_untouched_trans; [exact H5|].
  apply grace_advance_untouched.
Qed.

Lemma grace_beforeCollision_player time s g :
  playerRef (fst (beforeCollision time s g)) = physics (playerRef s).
Proof.
  unfold beforeCollision, simulate.
  set (s1 := stampTime time s).
  set (s2 := set_playerRef (physics (playerRef s1)) s1).
  set (s3 := speedUp s2).
  pose proof (grace_spawnObstacle_player s3 g) as H4.
  destruct (spawnObstacle s3 g) as [s4 g4]. simpl in H4.
  pose proof (grace_spawnCoin_player s4 g4) as H5.
  destruct (spawnCoin s4 g4) as [s5 g5]. simpl in *.
  rewrite H5, H4. unfold s3, s2, s1. simpl.
  rewrite grace_stampTime_player. reflexivity.
Qed.

Lemma grace_collectCoins_player ph s :
  playerRef (collectCoins ph s) = playerRef s.
Proof. unfold collectCoins. destruct (checkCoins _ _ _). reflexivity. Qed.

(** The player after a tick taken while playing: only the physics block
    writes to it. *)
Lemma grace_update_player time s g :
  gameState s = playing ->
  playerRef (fst (update time s g)) = physics (playerRef s).
Proof.
  intros Hp. unfold update. rewrite Hp. simpl.
  pose proof (grace_beforeCollision_player time s g) as Hb.
  destruct (beforeCollision time s g) as [m g']. simpl in Hb.
  unfold collisionDetection.
  destruct (snd (checkObstacles _ _)); simpl.
  - exact Hb.
  - rewrite grace_collectCoins_player. exact Hb.
Qed.

Lemma grace_update_not_playing time s g :
  gameState s <> playing -> update time s g = (s, g).
Proof.
  intros Hn. unfold update.
  destruct (gameState s); simpl; congruence.
Qed.

Lemma grace_physics_integrates p :
  Spec.integrates GRAVITY (fun y => y < 0) p (physics p).
Proof.
  unfold Spec.integrates, physics. cbv zeta.
  assert (Ev : add (Player.dy p) GRAVITY == Player.dy p + GRAVITY)
    by apply add_eq.
  assert (Ey : add (Player.y p) (add (Player.dy p) GRAVITY)
               == Player.y p + (Player.dy p + GRAVITY))
    by (rewrite add_eq, Ev; reflexivity).
  destruct (Qltb_reflect (add (Player.y p) (add (Player.dy p) GRAVITY)) 0)
    as [H|H]; rewrite Ey in H; split; intros Hb; try contradiction;
    simpl; auto.
Qed.

Lemma grace_physics_offset p : 0 <= verticalOffset (physics p).
Proof.
  unfold verticalOffset, physics. cbv zeta.
  destruct (Qltb _ 0) eqn:E; simpl.
  - apply Qle_refl.
  - apply Qltb_ge. exact E.
Qed.

(** *** The time stamp is read by nothing *)

Lemma grace_spawnObstacle_ignoresTime : ignoresTime spawnObstacle.
Proof.
  intros v s g. unfold spawnObstacle, random. simpl.
  destruct (Qltb _ _); [|reflexivity].
  destruct (chooseType _) as [[ty wd] ht].
  destruct (farEnough _); reflexivity.
Qed.

Lemma grace_spawnCoin_ignoresTime : ignoresTime spawnCoin.
Proof.
  intros v s g. unfold spawnCoin, random. simpl.
  destruct (Qltb _ _); reflexivity.
Qed.

Lemma grace_simulate_ignoresTime : ignoresTime simulate.
Proof.
  intros v s g. unfold simulate.
  change (speedUp (set_playerRef (physics (playerRef (set_lastTimeRef v s)))
                     (set_lastTimeRef v s)))
    with (set_lastTimeRef v
            (speedUp (set_playerRef (physics (playerRef s)) s))).
  set (s3 := speedUp _).
  rewrite grace_spawnObstacle_ignoresTime.
  destruct (spawnObstacle s3 g) as [s4 g4]. simpl.
  rewrite grace_spawnCoin_ignoresTime.
  destruct (spawnCoin s4 g4) as [s5 g5]. reflexivity.
Qed.

Lemma grace_collisionDetection_ignoresTime : ignoresTime collisionDetection.
Proof.
  intros v s g. unfold collisionDetection. simpl.
  destruct (snd (checkObstacles _ _)); simpl; [reflexivity|].
  unfold collectCoins. simpl.
  destruct (checkCoins _ _ _) as [cs n]. reflexivity.
Qed.

Lemma grace_stampTime_sets time s :
  exists v, stampTime time s = set_lastTimeRef v s.
Proof.
  unfold stampTime. destruct (falsy _).
  - exists (Some time). reflexivity.
  - exists (lastTimeRef s). destruct s; reflexivity.
Qed.

(** A tick taken while playing, with the time stamp factored out. *)
Lemma grace_update_factor time s g :
  gameState s = playing ->
  exists v,
    update time s g
    = (set_lastTimeRef v
         (fst (collisionDetection (fst (simulate s g)) (snd (simulate s g)))),
       snd (collisionDetection (fst (simulate s g)) (snd (simulate s g)))).
Proof.
  intros Hp. unfold update, beforeCollision. rewrite Hp. simpl.
  destruct (grace_stampTime_sets time s) as [v Hv]. exists v.
  rewrite Hv, grace_simulate_ignoresTime.
  rewrite grace_collisionDetection_ignoresTime. reflexivity.
Qed.

Lemma grace_update_forgetTime t1 t2 s g :
  forgetTime (fst (update t1 s g)) = forgetTime (fst (update t2 s g)) /\
  snd (update t1 s g) = snd (update t2 s g).
Proof.
  destruct (gameState s) eqn:Es.
  - destruct (grace_update_factor t1 s g Es) as [v1 H1].
    destruct (grace_update_factor t2 s g Es) as [v2 H2].
    rewrite H1, H2. simpl. split; reflexivity.
  - rewrite !grace_update_not_playing by congruence. split; reflexivity.
  - rewrite !grace_update_not_playing by congruence. split; reflexivity.
Qed.

(** *** Pruning *)

Lemma grace_simulate_advance s g :
  exists s5, fst (simulate s g) = advance s5.
Proof.
  unfold simulate.
  destruct (spawnObstacle _ g) as [s4 g4].
  destruct (spawnCoin s4 g4) as [s5 g5]. exists s5. reflexivity.
Qed.

Lemma grace_advance_pruned s :
  Forall (fun obs => -200 < Obstacle.x obs) (obstaclesRef (advance s)) /\
  Forall (fun c => -100 < Coin.x c) (coinsRef (advance s)).
Proof.
  unfold advance. simpl. split; apply Forall_forall; intros e He;
    apply filter_In in He; destruct He as [_ He];
    apply Qgtb_gt in He; exact He.
Qed.

(** The coin loop writes to [collected] only. *)
Lemma grace_checkCoins_shape ph cs n :
  map (fun c => (Coin.id c, Coin.x c, Coin.y c)) (fst (checkCoins ph cs n))
  = map (fun c => (Coin.id c, Coin.x c, Coin.y c)) cs.
Proof.
  revert n. induction cs as [|c rest IH]; intros n; simpl; [reflexivity|].
  unfold checkCoin.
  destruct (Coin.collected c); [|destruct (overlap _ _)]; simpl;
    match goal with
    | |- context [checkCoins ph rest ?m] =>
        specialize (IH m); destruct (checkCoins ph rest m)
    end; simpl in *; rewrite IH; reflexivity.
Qed.

Lemma grace_checkCoins_x (P : Q -> Prop) ph cs n :
  Forall (fun c => P (Coin.x c)) cs ->
  Forall (fun c => P (Coin.x c)) (fst (checkCoins ph cs n)).
Proof.
  revert n. induction cs as [|c rest IH]; intros n H; simpl; [constructor|].
  inversion H as [|c' rest' Hc Hrest]; subst. unfold checkCoin.
  destruct (Coin.collected c); [|destruct (overlap _ _)]; simpl;
    match goal with
    | |- context [checkCoins ph rest ?m] =>
        specialize (IH m Hrest); destruct (checkCoins ph rest m)
    end; simpl in *; constructor; assumption.
Qed.

Lemma grace_collisionDetection_entities s g :
  obstaclesRef (fst (collisionDetection s g)) = obstaclesRef s /\
  coinsRef (fst (collisionDetection s g))
  = (if snd (checkObstacles (playerHitbox (playerRef s)) (obstaclesRef s))
     then coinsRef s
     else fst (checkCoins (playerHitbox (playerRef s)) (coinsRef s)
                 (coins s))).
Proof.
  unfold collisionDetection.
  destruct (snd (checkObstacles _ _)); simpl; [split; reflexivity|].
  unfold collectCoins. destruct (checkCoins _ _ _); split; reflexivity.
Qed.

Lemma grace_update_pruned time s g :
  gameState s = playing ->
  Forall (fun obs => -200 < Obstacle.x obs)
    (obstaclesRef (fst (update time s g))) /\
  Forall (fun c => -100 < Coin.x c) (coinsRef (fst (update time s g))).
Proof.
  intros Hp. unfold update, beforeCollision. rewrite Hp. simpl.
  destruct (grace_simulate_advance (stampTime time s) g) as [s5 E].
  destruct (simulate (stampTime time s) g) as [m g']. simpl in E. subst m.
  destruct (grace_advance_pruned s5) as [Ho Hc].
  destruct (grace_collisionDetection_entities (advance s5) g') as [Eo Ec].
  rewrite Eo, Ec. split; [exact Ho|].
  destruct (snd (checkObstacles _ _)); [exact Hc|].
  apply grace_checkCoins_x. exact Hc.
Qed.

(** *** The obstacle loop and its early return *)

Lemma grace_checkObstacles_first ph obstacles :
  existsb (hits ph) obstacles = true ->
  exists pre obs post,
    obstacles = pre ++ obs :: post /\
    Forall (fun o => hits ph o = false) pre /\
    hits ph obs = true /\
    checkObstacles ph obstacles = (pre ++ [obs], true).
Proof.
  induction obstacles as [|o rest IH]; simpl; [discriminate|].
  unfold hits at 1. destruct (overlap ph (obsHitbox o)) eqn:E; simpl.
  - intros _. exists [], o, rest. repeat split; auto.
  - intros H. destruct (IH H) as (pre & obs & post & E1 & E2 & E3 & E4).
    exists (o :: pre), obs, post. rewrite E4. subst rest.
    repeat split; auto.
Qed.

Lemma grace_checkObstacles_none ph obstacles :
  existsb (hits ph) obstacles = false ->
  checkObstacles ph obstacles = (obstacles, false).
Proof.
  induction obstacles as [|o rest IH]; simpl; [reflexivity|].
  unfold hits at 1. destruct (overlap ph (obsHitbox o)); simpl;
    [discriminate|].
  intros H. rewrite (IH H). reflexivity.
Qed.

Lemma grace_checkObstacles_found ph obstacles :
  snd (checkObstacles ph obstacles) = existsb (hits ph) obstacles.
Proof.
  destruct (existsb (hits ph) obstacles) eqn:E.
  - destruct (grace_checkObstacles_first ph obstacles E)
      as (pre & obs & post & _ & _ & _ & H). rewrite H. reflexivity.
  - rewrite (grace_checkObstacles_none ph obstacles E). reflexivity.
Qed.

(** Spawning and moving mark no coin: a collected coin of the list after
    [simulate] was a collected coin of the list before. *)
Lemma grace_simulate_coins s g :
  Forall (fun c => Coin.collected c = true -> collectedBefore s c)
    (coinsRef (fst (simulate s g))).
Proof.
  unfold simulate.
  set (s3 := speedUp (set_playerRef (physics (playerRef s)) s)).
  assert (E3 : coinsRef s3 = coinsRef s) by reflexivity.
  assert (E4 : coinsRef (fst (spawnObstacle s3 g)) = coinsRef s3).
  { unfold spawnObstacle, random. destruct (Qltb _ _); [|reflexivity].
    destruct (chooseType _) as [[ty wd] ht].
    destruct (farEnough _); reflexivity. }
  destruct (spawnObstacle s3 g) as [s4 g4]. simpl in E4.
  assert (E5 : coinsRef (fst (spawnCoin s4 g4)) = coinsRef s4 \/
               exists id y, coinsRef (fst (spawnCoin s4 g4))
                            = coinsRef s4 ++ [Coin.mk id 1300 y false]).
  { unfold spawnCoin, random. destruct (Qltb _ _); [right|left; reflexivity].
    eexists. eexists. reflexivity. }
  destruct (spawnCoin s4 g4) as [s5 g5]. simpl in E5. simpl.
  apply Forall_forall. intros c Hc Hcol.
  apply filter_In in Hc. destruct Hc as [Hc _].
  apply in_map_iff in Hc. destruct Hc as (c0 & Hmv & Hin). subst c.
  simpl in Hcol.
  assert (Hold : In c0 (coinsRef s)).
  { destruct E5 as [E5|(id & y & E5)]; rewrite E5 in Hin.
    - rewrite E4 in Hin. exact Hin.
    - apply in_app_or in Hin. destruct Hin as [Hin|[Hin|[]]].
      + rewrite E4 in Hin. exact Hin.
      + subst c0. discriminate Hcol. }
  exists c0. repeat split; auto.
Qed.

Lemma grace_stampTime_coins time s :
  coinsRef (stampTime time s) = coinsRef s.
Proof. unfold stampTime. destruct (falsy _); reflexivity. Qed.

Lemma grace_beforeCollision_coins time s g :
  Forall (fun c => Coin.collected c = true -> collectedBefore s c)
    (coinsRef (fst (beforeCollision time s g))).
Proof.
  unfold beforeCollision.
  pose proof (grace_simulate_coins (stampTime time s) g) as H.
  eapply Forall_impl; [|exact H]. cbv beta.
  intros c Hc Hcol. destruct (Hc Hcol) as (c0 & Hin & Hrest).
  exists c0. rewrite grace_stampTime_coins in Hin. tauto.
Qed.

(** A tick taken while playing in which some obstacle is hit. *)
Lemma grace_update_hit time s g :
  gameState s = playing ->
  existsb (hits (playerHitbox (playerRef (fst (beforeCollision time s g)))))
    (obstaclesRef (fst (beforeCollision time s g))) = true ->
  update time s g
  = (setTimeout (setGameState hit (fst (beforeCollision time s g))),
     snd (beforeCollision time s g)).
Proof.
  intros Hp Hx. unfold update. rewrite Hp. simpl.
  destruct (beforeCollision time s g) as [m g']. simpl in *.
  unfold collisionDetection. rewrite grace_checkObstacles_found, Hx.
  reflexivity.
Qed.

(** A tick taken while playing in which no obstacle is hit. *)
Lemma grace_update_clear time s g :
  gameState s = playing ->
  existsb (hits (playerHitbox (playerRef (fst (beforeCollision time s g)))))
    (obstaclesRef (fst (beforeCollision time s g))) = false ->
  update time s g
  = (addScore
       (collectCoins
          (playerHitbox (playerRef (fst (beforeCollision time s g))))
          (fst (beforeCollision time s g))),
     snd (beforeCollision time s g)).
Proof.
  intros Hp Hx. unfold update. rewrite Hp. simpl.
  destruct (beforeCollision time s g) as [m g']. simpl in *.
  unfold collisionDetection. rewrite grace_checkObstacles_found, Hx.
  reflexivity.
Qed.

(** *** The minimum distance between obstacles *)

Lemma grace_farEnough_true obstacles :
  farEnough obstacles = true <->
  forall lastObs, lastOf obstacles = Some lastObs -> Obstacle.x lastObs < 800.
Proof.
  unfold farEnough. destruct (lastOf obstacles) as [o|]; split.
  - intros H lastObs E. injection E as <-. apply Qltb_lt. exact H.
  - intros H. apply Qltb_lt. apply H. reflexivity.
  - intros _ lastObs E. discriminate E.
  - reflexivity.
Qed.

(** What the obstacle branch does to the list, case by case. *)
Lemma grace_spawnObstacle_cases s g :
  let r := supply g (cursor g) in
  let typeRand := supply g (S (cursor g)) in
  let rx := supply g (S (S (cursor g))) in
  obstaclesRef (fst (spawnObstacle s g))
  = if (Qltb r 0.015 && farEnough (obstaclesRef s))%bool
    then obstaclesRef s ++
         [Obstacle.mk (nextIdRef s) (1300 + rx * 300)
            (snd (fst (chooseType typeRand))) (snd (chooseType typeRand))
            (fst (fst (chooseType typeRand)))]
    else obstaclesRef s.
Proof.
  unfold spawnObstacle, random. simpl.
  destruct (Qltb _ 0.015); simpl; [|reflexivity].
  destruct (chooseType _) as [[ty wd] ht].
  destruct (farEnough _); reflexivity.
Qed.

Lemma grace_spawnObstacle_gap s g :
  unit_interval g ->
  obstaclesRef (fst (spawnObstacle s g)) = obstaclesRef s \/
  exists obs,
    obstaclesRef (fst (spawnObstacle s g)) = obstaclesRef s ++ [obs] /\
    supply g (cursor g) < 0.015 /\
    1300 <= Obstacle.x obs /\
    forall lastObs,
      lastOf (obstaclesRef s) = Some lastObs ->
      500 < Obstacle.x obs - Obstacle.x lastObs.
Proof.
  intros Hu. pose proof (grace_spawnObstacle_cases s g) as E.
  cbv zeta in E. rewrite E. clear E.
  destruct (Qltb (supply g (cursor g)) 0.015) eqn:Er; simpl; [|left; reflexivity].
  destruct (farEnough (obstaclesRef s)) eqn:Ef; [|left; reflexivity].
  right. eexists. split; [reflexivity|]. simpl.
  apply Qltb_lt in Er.
  destruct (Hu (S (S (cursor g)))) as [H0 H1].
  split; [exact Er|]. split; [to_Q; lra|].
  intros lastObs El.
  pose proof (proj1 (grace_farEnough_true _) Ef lastObs El). to_Q. lra.
Qed.

Lemma grace_spawnObstacle_rejects s g lastObs :
  lastOf (obstaclesRef s) = Some lastObs ->
  800 <= Obstacle.x lastObs ->
  obstaclesRef (fst (spawnObstacle s g)) = obstaclesRef s.
Proof.
  intros El Hx. pose proof (grace_spawnObstacle_cases s g) as E.
  cbv zeta in E. rewrite E.
  assert (Ef : farEnough (obstaclesRef s) = false).
  { unfold farEnough. rewrite El. apply Qltb_ge. exact Hx. }
  rewrite Ef, andb_false_r. reflexivity.
Qed.

(** *** The state machine of the page *)

Lemma grace_collectCoins_frame ph s :
  gameState (collectCoins ph s) = gameState s /\
  timeouts (collectCoins ph s) = timeouts s /\
  scoreRef (collectCoins ph s) = scoreRef s.
Proof.
  unfold collectCoins. destruct (checkCoins _ _ _). simpl. tauto.
Qed.





(** *** Obstacles stay more than the minimum distance apart *)

Lemma grace_spaced_last obstacles z :
  spaced obstacles -> lastOf obstacles = Some z ->
  forall a, In a obstacles -> Obstacle.x a <= Obstacle.x z.
Proof.
  unfold spaced. induction 1 as [|o rest Hs IH Ho]; [discriminate|].
  intros Hl a [<-|Ha].
  - destruct rest as [|o' rest'].
    + injection Hl as <-. apply Qle_refl.
    + assert (Hz : In z (o' :: rest')).
      { clear - Hl. revert o' Hl.
        induction rest' as [|b r IHr]; intros o' Hl.
        - injection Hl as <-. left; reflexivity.
        - right. apply (IHr b). exact Hl. }
      rewrite Forall_forall in Ho. specialize (Ho z Hz).
      unfold gap in Ho. lra.
  - destruct rest as [|o' rest']; [destruct Ha|]. apply IH; assumption.
Qed.

Lemma grace_spaced_app obstacles o :
  spaced obstacles -> Forall (fun a => gap a o) obstacles ->
  spaced (obstacles ++ [o]).
Proof.
  unfold spaced. induction 1 as [|b rest Hs IH Hb]; intros Hf; simpl.
  - repeat constructor.
  - inversion Hf as [|b' rest' Hbo Hro]; subst. constructor.
    + apply IH. exact Hro.
    + apply Forall_app. split; [exact Hb|]. constructor; [exact Hbo|constructor].
Qed.

Lemma grace_spaced_move speed obstacles :
  spaced obstacles -> spaced (map (moveObstacle speed) obstacles).
Proof.
  unfold spaced. induction 1 as [|b rest Hs IH Hb]; simpl; constructor.
  - exact IH.
  - apply Forall_map. eapply Forall_impl; [|exact Hb].
    unfold gap. simpl. intros a Ha. to_Q. lra.
Qed.

Lemma grace_spaced_filter (f : Obstacle.t -> bool) obstacles :
  spaced obstacles -> spaced (filter f obstacles).
Proof.
  unfold spaced. induction 1 as [|b rest Hs IH Hb]; simpl; [constructor|].
  destruct (f b); [|exact IH]. constructor; [exact IH|].
  apply Forall_forall. intros a Ha. apply filter_In in Ha.
  rewrite Forall_forall in Hb. apply Hb. tauto.
Qed.

Lemma grace_spawnObstacle_spaced s g :
  unit_interval g -> spaced (obstaclesRef s) ->
  spaced (obstaclesRef (fst (spawnObstacle s g))).
Proof.
  intros Hu Hs.
  destruct (grace_spawnObstacle_gap s g Hu) as [E|(obs & E & _ & Hx & Hg)];
    rewrite E; [exact Hs|].
  apply grace_spaced_app; [exact Hs|].
  apply Forall_forall. intros a Ha.
  destruct (lastOf (obstaclesRef s)) as [z|] eqn:El.
  - pose proof (grace_spaced_last _ z Hs El a Ha) as Hle.
    specialize (Hg z eq_refl). unfold gap. lra.
  - apply lastOf_None in El. rewrite El in Ha. destruct Ha.
Qed.

Lemma grace_random_supply g : supply (snd (random g)) = supply g.
Proof. reflexivity. Qed.

Lemma grace_spawnObstacle_supply s g :
  supply (snd (spawnObstacle s g)) = supply g.
Proof.
  unfold spawnObstacle, random.
  destruct (Qltb _ _); [|reflexivity].
  destruct (chooseType _) as [[ty wd] ht].
  destruct (farEnough _); reflexivity.
Qed.

Lemma grace_spawnCoin_supply s g : supply (snd (spawnCoin s g)) = supply g.
Proof. unfold spawnCoin, random. destruct (Qltb _ _); reflexivity. Qed.

Lemma grace_spawnCoin_obstacles s g :
  obstaclesRef (fst (spawnCoin s g)) = obstaclesRef s.
Proof. unfold spawnCoin, random. destruct (Qltb _ _); reflexivity. Qed.

Lemma grace_simulate_supply s g : supply (snd (simulate s g)) = supply g.
Proof.
  unfold simulate.
  set (s3 := speedUp _).
  pose proof (grace_spawnObstacle_supply s3 g) as H4.
  destruct (spawnObstacle s3 g) as [s4 g4]. simpl in H4.
  pose proof (grace_spawnCoin_supply s4 g4) as H5.
  destruct (spawnCoin s4 g4) as [s5 g5]. simpl in *. congruence.
Qed.

Lemma grace_update_supply time s g :
  supply (snd (update time s g)) = supply g.
Proof.
  unfold update. destruct (negb _); [reflexivity|].
  unfold beforeCollision.
  pose proof (grace_simulate_supply (stampTime time s) g) as H.
  destruct (simulate _ g) as [m g']. simpl in H.
  unfold collisionDetection.
  destruct (snd (checkObstacles _ _)); simpl; exact H.
Qed.

Lemma grace_simulate_spaced s g :
  unit_interval g -> spaced (obstaclesRef s) ->
  spaced (obstaclesRef (fst (simulate s g))).
Proof.
  intros Hu Hs. unfold simulate.
  set (s3 := speedUp _).
  assert (H3 : spaced (obstaclesRef s3)) by exact Hs.
  pose proof (grace_spawnObstacle_spaced s3 g Hu H3) as H4.
  destruct (spawnObstacle s3 g) as [s4 g4]. simpl in H4.
  pose proof (grace_spawnCoin_obstacles s4 g4) as H5.
  destruct (spawnCoin s4 g4) as [s5 g5]. simpl in *.
  apply grace_spaced_filter. apply grace_spaced_move. rewrite H5. exact H4.
Qed.

Lemma grace_stampTime_obstacles time s :
  obstaclesRef (stampTime time s) = obstaclesRef s.
Proof. unfold stampTime. destruct (falsy _); reflexivity. Qed.

Lemma grace_update_spaced time s g :
  unit_interval g -> spaced (obstaclesRef s) ->
  spaced (obstaclesRef (fst (update time s g))).
Proof.
  intros Hu Hs. unfold update. destruct (negb _); [exact Hs|].
  unfold beforeCollision.
  assert (H1 : spaced (obstaclesRef (stampTime time s)))
    by (rewrite grace_stampTime_obstacles; exact Hs).
  pose proof (grace_simulate_spaced (stampTime time s) g Hu H1) as H.
  destruct (simulate _ g) as [m g']. simpl in H.
  destruct (grace_collisionDetection_entities m g') as [E _].
  rewrite E. exact H.
Qed.

(** In every state the page reaches with a supply of draws from [[0, 1)],
    any two obstacles of the list are more than 500 apart, the later
    spawned to the right. *)
Lemma grace_reachable_spaced g0 st :
  unit_interval g0 -> reachable g0 st ->
  supply (snd st) = supply g0 /\ spaced (obstaclesRef (fst st)).
Proof.
  intros Hu. induction 1 as [|e [s g] Hr [IHg IHs] En].
  - split; [reflexivity|constructor].
  - simpl in IHg, IHs.
    assert (Hug : unit_interval g).
    { intros n. rewrite IHg. apply Hu. }
    destruct e as [time| | |]; simpl.
    + split; [rewrite grace_update_supply; exact IHg|].
      apply grace_update_spaced; assumption.
    + split; [exact IHg|]. unfold handleJump.
      destruct (_ && _); exact IHs.
    + split; [exact IHg|constructor].
    + split; [exact IHg|exact IHs].
Qed.

(** *** Runs *)

Lemma grace_reachable_run g0 es st :
  reachable g0 st -> allowed es st = true -> reachable g0 (run es st).
Proof.
  revert st. induction es as [|e rest IH]; intros st Hr Ha; [exact Hr|].
  simpl in Ha. apply andb_true_iff in Ha. destruct Ha as [He Ha].
  apply (IH (step e st)); [|exact Ha].
  apply reach_step; assumption.
Qed.





(** *** Smaller facts *)

(** What [resetGame] keeps: the re-render tick, the time stamp, the id
    counter and the pending callbacks. *)
Lemma grace_resetGame_keeps s :
  resetGame s
  = mkGame playing 0 0 (tick s) (Player.mk 0 0 true) [] [] 7 0
      (lastTimeRef s) 0 (nextIdRef s) (timeouts s).
Proof. reflexivity. Qed.

(** The time stamp does follow the argument of [update]. *)
Lemma grace_lastTime_follows_time (time : Q) (g : Rng) :
  lastTimeRef (fst (update time initial g)) = Some time.
Proof.
  unfold update, beforeCollision. simpl.
  change (stampTime time initial) with (set_lastTimeRef (Some time) initial).
  rewrite grace_simulate_ignoresTime.
  rewrite grace_collisionDetection_ignoresTime. reflexivity.
Qed.

(** The height of the player is never negative, in any state the page
    reaches and not only at the end of a tick. *)
Lemma grace_reachable_offset g0 st :
  reachable g0 st -> 0 <= verticalOffset (playerRef (fst st)).
Proof.
  induction 1 as [|e [s g] Hr IH En]; [apply Qle_refl|].
  simpl in IH. destruct e as [time| | |]; simpl.
  - destruct (gameState s) eqn:Es.
    + rewrite grace_update_player by exact Es. apply grace_physics_offset.
    + rewrite grace_update_not_playing by congruence. exact IH.
    + rewrite grace_update_not_playing by congruence. exact IH.
  - unfold handleJump. destruct (_ && _); exact IH.
  - apply Qle_refl.
  - exact IH.
Qed.

End GraceFacts.

(** * Facts about the revision of game.tsx *)

Module NoGraceFacts.
Import NoGrace.

Lemma nograce_eqb_playing (v : GameState) :
  GameState_eqb v playing = true <-> v = playing.
Proof. destruct v; simpl; split; congruence. Qed.

Lemma nograce_untouched_refl s : untouched s s.
Proof. unfold untouched. tauto. Qed.

Lemma nograce_untouched_trans s1 s2 s3 :
  untouched s1 s2 -> untouched s2 s3 -> untouched s1 s3.
Proof. unfold untouched. intuition congruence. Qed.

Lemma nograce_stampTime_untouched time s :
  untouched s (fst (stampTime time s)).
Proof.
  unfold stampTime. destruct (falsy _); unfold untouched; simpl; tauto.
Qed.

Lemma nograce_stampTime_player time s :
  playerRef (fst (stampTime time s)) = playerRef s.
Proof. unfold stampTime. destruct (falsy _); reflexivity. Qed.

Lemma nograce_spawnObstacle_untouched s g :
  untouched s (fst (spawnObstacle s g)).
Proof.
  unfold spawnObstacle, random.
  destruct (Qltb _ _); unfold untouched; simpl; tauto.
Qed.

Lemma nograce_spawnCoin_untouched s g : untouched s (fst (spawnCoin s g)).
Proof.
  unfold spawnCoin, random.
  destruct (Qltb _ _); unfold untouched; simpl; tauto.
Qed.

Lemma nograce_spawnObstacle_player s g :
  playerRef (fst (spawnObstacle s g)) = playerRef s.
Proof. unfold spawnObstacle, random. destruct (Qltb _ _); reflexivity. Qed.

Lemma nograce_spawnCoin_player s g :
  playerRef (fst (spawnCoin s g)) = playerRef s.
Proof. unfold spawnCoin, random. destruct (Qltb _ _); reflexivity. Qed.

Lemma nograce_beforeCollision_untouched time s g :
  untouched s (fst (beforeCollision time s g)).
Proof.
  unfold beforeCollision, simulate.
  pose proof (nograce_stampTime_untouched time s) as H1.
  destruct (stampTime time s) as [s1 dt]. simpl in H1.
  set (s2 := set_playerRef (physics (playerRef s1)) s1).
  set (s3 := speedUp s2).
  pose proof (nograce_spawnObstacle_untouched s3 g) as H4.
  destruct (spawnObstacle s3 g) as [s4 g4]. simpl in H4.
  pose proof (nograce_spawnCoin_untouched s4 g4) as H5.
  destruct (spawnCoin s4 g4) as [s5 g5]. simpl in *.
  eapply nograce_untouched_trans; [exact H1|].
  eapply nograce_untouched_trans with (s2 := s3);
    [unfold untouched; simpl; tauto|].
  eapply nograce_untouched_trans; [exact H4|].
  eapply nograce_untouched_trans; [exact H5|].
  unfold untouched; simpl; tauto.
Qed.

Lemma nograce_beforeCollision_player time s g :
  playerRef (fst (beforeCollision time s g)) = physics (playerRef s).
Proof.
  unfold beforeCollision, simulate.
  pose proof (nograce_stampTime_player time s) as H1.
  destruct (stampTime time s) as [s1 dt]. simpl in H1.
  set (s2 := set_playerRef (physics (playerRef s1)) s1).
  set (s3 := speedUp s2).
  pose proof (nograce_spawnObstacle_player s3 g) as H4.
  destruct (spawnObstacle s3 g) as [s4 g4]. simpl in H4.
  pose proof (nograce_spawnCoin_player s4 g4) as H5.
  destruct (spawnCoin s4 g4) as [s5 g5]. simpl in *.
  rewrite H5, H4. unfold s3, s2. simpl. rewrite H1. reflexivity.
Qed.

(** The obstacle loop writes to [gameState] only. *)
Lemma nograce_checkObstacles_frame ph obstacles s :
  let s' := snd (checkObstacles ph obstacles s) in
  score s' = score s /\ coins s' = coins s /\ playerRef s' = playerRef s /\
  obstaclesRef s' = obstaclesRef s /\ coinsRef s' = coinsRef s /\
  gameSpeedRef s' = gameSpeedRef s /\ scoreRef s' = scoreRef s /\
  lastTimeRef s' = lastTimeRef s /\ bgOffsetRef s' = bgOffsetRef s.
Proof.
  revert s. induction obstacles as [|obs rest IH]; intros s; simpl.
  - repeat split; reflexivity.
  - specialize
      (IH (if overlap ph (obsHitbox obs) then setGameState gameover s else s)).
    destruct (checkObstacles ph rest _) as [tested s'] eqn:E. simpl in *.
    destruct (overlap ph (obsHitbox obs)); simpl in IH; exact IH.
Qed.

Lemma nograce_collectCoins_player ph s :
  playerRef (collectCoins ph s) = playerRef s.
Proof. unfold collectCoins. destruct (checkCoins _ _ _). reflexivity. Qed.

Lemma nograce_update_player time s g :
  gameState s = playing ->
  playerRef (fst (update time s g)) = physics (playerRef s).
Proof.
  intros Hp. unfold update. rewrite Hp. simpl.
  pose proof (nograce_beforeCollision_player time s g) as Hb.
  destruct (beforeCollision time s g) as [m g']. simpl in Hb.
  unfold collisionDetection.
  simpl. rewrite nograce_collectCoins_player.
  destruct (nograce_checkObstacles_frame
              (playerHitbox (playerRef m)) (obstaclesRef m) m)
    as (_ & _ & Hpl & _).
  rewrite Hpl. exact Hb.
Qed.

Lemma nograce_update_not_playing time s g :
  gameState s <> playing -> update time s g = (s, g).
Proof.
  intros Hn. unfold update.
  destruct (gameState s); simpl; congruence.
Qed.

Lemma nograce_physics_integrates p :
  Spec.integrates GRAVITY (fun y => 0 < y) p (physics p).
Proof.
  unfold Spec.integrates, physics. cbv zeta. unfold Qgtb.
  assert (Ev : add (Player.dy p) GRAVITY == Player.dy p + GRAVITY)
    by apply add_eq.
  assert (Ey : add (Player.y p) (add (Player.dy p) GRAVITY)
               == Player.y p + (Player.dy p + GRAVITY))
    by (rewrite add_eq, Ev; reflexivity).
  destruct (Qltb_reflect 0 (add (Player.y p) (add (Player.dy p) GRAVITY)))
    as [H|H]; rewrite Ey in H; split; intros Hb; try contradiction;
    simpl; auto.
Qed.

Lemma nograce_physics_offset p : 0 <= verticalOffset (physics p).
Proof.
  unfold verticalOffset, physics. cbv zeta.
  destruct (Qgtb _ 0) eqn:E; simpl.
  - apply Qle_refl.
  - apply Qgtb_le in E. lra.
Qed.

(** *** The time stamp is read by nothing *)

Lemma nograce_spawnObstacle_ignoresTime : ignoresTime spawnObstacle.
Proof.
  intros v s g. unfold spawnObstacle, random. simpl.
  destruct (Qltb _ _); reflexivity.
Qed.

Lemma nograce_spawnCoin_ignoresTime : ignoresTime spawnCoin.
Proof.
  intros v s g. unfold spawnCoin, random. simpl.
  destruct (Qltb _ _); reflexivity.
Qed.

Lemma nograce_simulate_ignoresTime : ignoresTime simulate.
Proof.
  intros v s g. unfold simulate.
  change (speedUp (set_playerRef (physics (playerRef (set_lastTimeRef v s)))
                     (set_lastTimeRef v s)))
    with (set_lastTimeRef v
            (speedUp (set_playerRef (physics (playerRef s)) s))).
  set (s3 := speedUp _).
  rewrite nograce_spawnObstacle_ignoresTime.
  destruct (spawnObstacle s3 g) as [s4 g4]. simpl.
  rewrite nograce_spawnCoin_ignoresTime.
  destruct (spawnCoin s4 g4) as [s5 g5]. reflexivity.
Qed.

Lemma nograce_checkObstacles_ignoresTime ph obstacles v s :
  checkObstacles ph obstacles (set_lastTimeRef v s)
  = (fst (checkObstacles ph obstacles s),
     set_lastTimeRef v (snd (checkObstacles ph obstacles s))).
Proof.
  revert s. induction obstacles as [|obs rest IH]; intros s; simpl.
  - reflexivity.
  - destruct (overlap ph (obsHitbox obs)).
    + change (setGameState gameover (set_lastTimeRef v s))
        with (set_lastTimeRef v (setGameState gameover s)).
      rewrite IH. destruct (checkObstacles ph rest _). reflexivity.
    + rewrite IH. destruct (checkObstacles ph rest _). reflexivity.
Qed.

Lemma nograce_collisionDetection_ignoresTime :
  ignoresTime collisionDetection.
Proof.
  intros v s g. unfold collisionDetection. simpl.
  rewrite nograce_checkObstacles_ignoresTime. simpl.
  destruct (checkObstacles _ _ s) as [tested s']. simpl.
  unfold collectCoins. simpl.
  destruct (checkCoins _ _ _) as [cs n]. reflexivity.
Qed.

Lemma nograce_stampTime_sets time s :
  fst (stampTime time s) = set_lastTimeRef (Some time) s.
Proof. unfold stampTime. destruct (falsy _); destruct s; reflexivity. Qed.

(** A tick taken while playing, with the time stamp factored out. *)
Lemma nograce_update_factor time s g :
  gameState s = playing ->
  update time s g
  = (set_lastTimeRef (Some time)
       (fst (collisionDetection (fst (simulate s g)) (snd (simulate s g)))),
     snd (collisionDetection (fst (simulate s g)) (snd (simulate s g)))).
Proof.
  intros Hp. unfold update, beforeCollision. rewrite Hp.
  change (negb (GameState_eqb playing playing)) with false. cbv iota.
  pose proof (nograce_stampTime_sets time s) as Hv.
  destruct (stampTime time s) as [s1 dt]. simpl in Hv. subst s1.
  rewrite nograce_simulate_ignoresTime.
  rewrite nograce_collisionDetection_ignoresTime. reflexivity.
Qed.

Lemma nograce_update_forgetTime t1 t2 s g :
  forgetTime (fst (update t1 s g)) = forgetTime (fst (update t2 s g)) /\
  snd (update t1 s g) = snd (update t2 s g).
Proof.
  destruct (gameState s) eqn:Es.
  - rewrite (nograce_update_factor t1 s g Es).
    rewrite (nograce_update_factor t2 s g Es). simpl. split; reflexivity.
  - rewrite !nograce_update_not_playing by congruence. split; reflexivity.
Qed.

(** *** Pruning *)

Lemma nograce_simulate_advance s g :
  exists s5, fst (simulate s g) = advance s5.
Proof.
  unfold simulate.
  destruct (spawnObstacle _ g) as [s4 g4].
  destruct (spawnCoin s4 g4) as [s5 g5]. exists s5. reflexivity.
Qed.

Lemma nograce_advance_pruned s :
  Forall (fun obs => -100 < Obstacle.x obs) (obstaclesRef (advance s)) /\
  Forall (fun c => -100 < Coin.x c) (coinsRef (advance s)).
Proof.
  unfold advance. simpl. split; apply Forall_forall; intros e He;
    apply filter_In in He; destruct He as [_ He];
    apply Qgtb_gt in He; exact He.
Qed.

Lemma nograce_checkCoins_x (P : Q -> Prop) ph cs n :
  Forall (fun c => P (Coin.x c)) cs ->
  Forall (fun c => P (Coin.x c)) (fst (checkCoins ph cs n)).
Proof.
  revert n. induction cs as [|c rest IH]; intros n H; simpl; [constructor|].
  inversion H as [|c' rest' Hc Hrest]; subst. unfold checkCoin.
  destruct (Coin.collected c); [|destruct (overlap _ _)]; simpl;
    match goal with
    | |- context [checkCoins ph rest ?m] =>
        specialize (IH m Hrest); destruct (checkCoins ph rest m)
    end; simpl in *; constructor; assumption.
Qed.

Lemma nograce_collisionDetection_entities s g :
  obstaclesRef (fst (collisionDetection s g)) = obstaclesRef s /\
  coinsRef (fst (collisionDetection s g))
  = fst (checkCoins (playerHitbox (playerRef s)) (coinsRef s) (coins s)).
Proof.
  unfold collisionDetection. simpl.
  destruct (nograce_checkObstacles_frame
              (playerHitbox (playerRef s)) (obstaclesRef s) s)
    as (_ & Hcn & _ & Ho & Hc & _).
  unfold collectCoins. rewrite Hc, Hcn.
  destruct (checkCoins _ _ _); simpl. split; [exact Ho|reflexivity].
Qed.

Lemma nograce_update_pruned time s g :
  gameState s = playing ->
  Forall (fun obs => -100 < Obstacle.x obs)
    (obstaclesRef (fst (update time s g))) /\
  Forall (fun c => -100 < Coin.x c) (coinsRef (fst (update time s g))).
Proof.
  intros Hp. unfold update, beforeCollision. rewrite Hp.
  change (negb (GameState_eqb playing playing)) with false. cbv iota.
  destruct (stampTime time s) as [s1 dt].
  destruct (nograce_simulate_advance s1 g) as [s5 E].
  destruct (simulate s1 g) as [m g']. simpl in E. subst m.
  destruct (nograce_advance_pruned s5) as [Ho Hc].
  destruct (nograce_collisionDetection_entities (advance s5) g') as [Eo Ec].
  rewrite Eo, Ec. split; [exact Ho|].
  apply nograce_checkCoins_x. exact Hc.
Qed.

(** *** The obstacle loop, which has no early exit *)

Lemma nograce_checkObstacles_all ph obstacles s :
  fst (checkObstacles ph obstacles s) = obstacles.
Proof.
  revert s. induction obstacles as [|o rest IH]; intros s; simpl;
    [reflexivity|].
  specialize
    (IH (if overlap ph (obsHitbox o) then setGameState gameover s else s)).
  destruct (checkObstacles ph rest _). simpl in *. rewrite IH. reflexivity.
Qed.

Lemma nograce_checkObstacles_state ph obstacles s :
  snd (checkObstacles ph obstacles s)
  = if existsb (hits ph) obstacles then setGameState gameover s else s.
Proof.
  revert s. induction obstacles as [|o rest IH]; intros s; simpl;
    [reflexivity|].
  specialize
    (IH (if overlap ph (obsHitbox o) then setGameState gameover s else s)).
  destruct (checkObstacles ph rest _). simpl in *. rewrite IH.
  unfold hits at 2. destruct (overlap ph (obsHitbox o)); simpl;
    [|reflexivity].
  destruct (existsb (hits ph) rest); reflexivity.
Qed.

(** A tick taken while playing: after the obstacle loop the coin loop and
    the score always run. *)
Lemma nograce_update_playing time s g :
  gameState s = playing ->
  let m := fst (beforeCollision time s g) in
  let ph := playerHitbox (playerRef m) in
  update time s g
  = (addScore
       (collectCoins ph
          (if existsb (hits ph) (obstaclesRef m)
           then setGameState gameover m else m)),
     snd (beforeCollision time s g)).
Proof.
  intros Hp. unfold update. rewrite Hp.
  change (negb (GameState_eqb playing playing)) with false. cbv iota.
  destruct (beforeCollision time s g) as [m g']. simpl.
  unfold collisionDetection. rewrite nograce_checkObstacles_state.
  reflexivity.
Qed.

Lemma nograce_collectCoins_frame ph s :
  gameState (collectCoins ph s) = gameState s /\
  scoreRef (collectCoins ph s) = scoreRef s /\
  score (collectCoins ph s) = score s.
Proof.
  unfold collectCoins. destruct (checkCoins _ _ _). simpl. tauto.
Qed.

(** *** Obstacles are spawned without a distance check *)

Lemma nograce_spawnObstacle_cases s g :
  obstaclesRef (fst (spawnObstacle s g))
  = if Qltb (supply g (cursor g)) 0.015
    then obstaclesRef s ++
         [Obstacle.mk 1000 50 50
            (if Qgtb (supply g (S (cursor g))) 0.5 then rock else bush)]
    else obstaclesRef s.
Proof.
  unfold spawnObstacle, random. simpl.
  destruct (Qltb _ 0.015); reflexivity.
Qed.

(** *** Runs *)

Lemma nograce_reachable_run g0 es st :
  reachable g0 st -> allowed es st = true -> reachable g0 (run es st).
Proof.
  revert st. induction es as [|e rest IH]; intros st Hr Ha; [exact Hr|].
  simpl in Ha. apply andb_true_iff in Ha. destruct Ha as [He Ha].
  apply (IH (step e st)); [|exact Ha].
  apply reach_step; assumption.
Qed.

(** *** Smaller facts *)

(** What [resetGame] keeps: the time stamp. *)
Lemma nograce_resetGame_keeps s :
  resetGame s
  = mkGame playing 0 0 (Player.mk 0 0 true) [] [] 5 0 (lastTimeRef s) 0.
Proof. reflexivity. Qed.

(** The time stamp does follow the argument of [update]. *)
Lemma nograce_lastTime_follows_time (time : Q) (s : Game) (g : Rng) :
  gameState s = playing ->
  lastTimeRef (fst (update time s g)) = Some time.
Proof. intros Hp. rewrite (nograce_update_factor time s g Hp). reflexivity. Qed.

End NoGraceFacts.

(** * Facts about the sample runs *)

Lemma eager_unit_interval : unit_interval Sample.eager.
Proof. intros n. simpl. split; [apply Qle_refl|reflexivity]. Defined.

Lemma threeDraws_unit_interval : unit_interval Sample.threeDraws.
Proof.
  intros n. unfold Sample.threeDraws, supply.
  destruct (n <? 3)%nat; [|destruct (n =? 60)%nat; [|destruct (n =? 161)%nat]];
    split; (apply Qle_refl || reflexivity || discriminate).
Defined.

(** Every sample state is one the page reaches from mount. *)
Lemma graceDoomed_reachable :
  Grace.reachable Sample.rockAndCoin Sample.graceDoomed.
Proof.
  apply GraceFacts.grace_reachable_run; [apply Grace.reach_mount|].
  vm_compute. reflexivity.
Defined.

Lemma graceLeaving_reachable :
  Grace.reachable Sample.oneRock Sample.graceLeaving.
Proof.
  apply GraceFacts.grace_reachable_run; [apply Grace.reach_mount|].
  vm_compute. reflexivity.
Defined.

Lemma graceCrowded_reachable :
  Grace.reachable Sample.threeDraws Sample.graceCrowded.
Proof.
  apply GraceFacts.grace_reachable_run; [apply Grace.reach_mount|].
  vm_compute. reflexivity.
Defined.

Lemma graceSpawning_reachable :
  Grace.reachable Sample.threeDraws Sample.graceSpawning.
Proof.
  apply GraceFacts.grace_reachable_run; [apply Grace.reach_mount|].
  vm_compute. reflexivity.
Defined.

Lemma nograceDoomed_reachable :
  NoGrace.reachable Sample.bushCoinBush Sample.nograceDoomed.
Proof.
  apply NoGraceFacts.nograce_reachable_run; [apply NoGrace.reach_mount|].
  vm_compute. reflexivity.
Defined.

Lemma nograceLeaving_reachable :
  NoGrace.reachable Sample.oneBush Sample.nograceLeaving.
Proof.
  apply NoGraceFacts.nograce_reachable_run; [apply NoGrace.reach_mount|].
  vm_compute. reflexivity.
Defined.

Lemma nograceSpawning_reachable :
  NoGrace.reachable Sample.eager Sample.nograceSpawning.
Proof.
  apply NoGraceFacts.nograce_reachable_run; [apply NoGrace.reach_mount|].
  vm_compute. reflexivity.
Defined.

(** * The claims *)

(** C1 (as amended).  In the "hit" revision, on a tick taken while playing
    in which the player's hitbox overlaps some obstacle's, the loop tests the
    obstacles in list order up to the first overlapping one and no further,
    the state becomes "hit", and the rest of the tick is skipped: the coin
    list is the one left by the pruning (no coin is newly marked collected),
    and the coin count, the score accumulator and the displayed score are
    those of the start of the tick.  In the game.tsx revision the state
    becomes "gameover", but the loop tests every obstacle and the coin loop
    and the score update of that tick still run. *)
Theorem C1_collision_on_first_overlapping_obstacle :
  (forall (time : number) (s : Grace.Game) (g : Rng),
      Grace.gameState s = Grace.playing ->
      let m := fst (Grace.beforeCollision time s g) in
      let ph := Grace.playerHitbox (Grace.playerRef m) in
      let s' := fst (Grace.update time s g) in
      existsb (Grace.hits ph) (Grace.obstaclesRef m) = true ->
      (exists pre obs post,
          Grace.obstaclesRef m = pre ++ obs :: post /\
          Forall (fun o => Grace.hits ph o = false) pre /\
          Grace.hits ph obs = true /\
          fst (Grace.checkObstacles ph (Grace.obstaclesRef m))
          = pre ++ [obs]) /\
      Grace.gameState s' = Grace.hit /\
      Grace.coinsRef s' = Grace.coinsRef m /\
      Forall (fun c => Grace.Coin.collected c = true ->
                       Grace.collectedBefore s c) (Grace.coinsRef s') /\
      Grace.coins s' = Grace.coins s /\
      Grace.scoreRef s' = Grace.scoreRef s /\
      Grace.score s' = Grace.score s) /\
  (forall (time : number) (s : NoGrace.Game) (g : Rng),
      NoGrace.gameState s = NoGrace.playing ->
      let m := fst (NoGrace.beforeCollision time s g) in
      let ph := NoGrace.playerHitbox (NoGrace.playerRef m) in
      let s' := fst (NoGrace.update time s g) in
      existsb (NoGrace.hits ph) (NoGrace.obstaclesRef m) = true ->
      NoGrace.gameState s' = NoGrace.gameover /\
      fst (NoGrace.checkObstacles ph (NoGrace.obstaclesRef m) m)
      = NoGrace.obstaclesRef m /\
      s' = NoGrace.addScore
             (NoGrace.collectCoins ph
                (NoGrace.setGameState NoGrace.gameover m)) /\
      NoGrace.scoreRef s' == NoGrace.scoreRef s + 0.1).
Proof.
  split.
  - intros time s g Hp m ph s' Hx.
    pose proof (GraceFacts.grace_update_hit time s g Hp Hx) as Hu.
    pose proof (GraceFacts.grace_beforeCollision_untouched time s g)
      as (_ & Hsc & Hcn & _ & Hsr & _).
    fold m in Hu, Hsc, Hcn, Hsr.
    assert (Es : s' = Grace.setTimeout (Grace.setGameState Grace.hit m))
      by (unfold s'; rewrite Hu; reflexivity).
    split.
    { destruct (GraceFacts.grace_checkObstacles_first ph _ Hx)
        as (pre & obs & post & E1 & E2 & E3 & E4).
      exists pre, obs, post. rewrite E4. auto. }
    rewrite Es. simpl. repeat split; auto.
    apply GraceFacts.grace_beforeCollision_coins.
  - intros time s g Hp m ph s' Hx.
    pose proof (NoGraceFacts.nograce_update_playing time s g Hp) as Hu.
    cbv zeta in Hu. fold m in Hu. fold ph in Hu. rewrite Hx in Hu.
    pose proof (NoGraceFacts.nograce_beforeCollision_untouched time s g)
      as (_ & _ & _ & Hsr).
    fold m in Hsr.
    assert (Es : s' = NoGrace.addScore
                        (NoGrace.collectCoins ph
                           (NoGrace.setGameState NoGrace.gameover m)))
      by (unfold s'; rewrite Hu; reflexivity).
    destruct (NoGraceFacts.nograce_collectCoins_frame ph
                (NoGrace.setGameState NoGrace.gameover m))
      as (Hgs & Hcs & _).
    split; [rewrite Es; simpl; exact Hgs|].
    split; [apply NoGraceFacts.nograce_checkObstacles_all|].
    split; [exact Es|].
    rewrite Es. simpl. rewrite Hcs. simpl. rewrite Hsr. apply add_eq.
Qed.

(** The player of the "hit" revision takes off into the rock, with the
    coin within reach: the state is "hit", the coin stays uncollected, the
    coin count stays 0 and the score accumulator stays 24.6.  The player of
    the game.tsx revision runs into the bush: the state is "gameover". *)
Lemma C1_collision_on_first_overlapping_obstacle_witness :
  (let s := fst Sample.graceDoomed in
   let g := snd Sample.graceDoomed in
   let m := fst (Grace.beforeCollision 2640 s g) in
   let s' := fst (Grace.update 2640 s g) in
   map (fun c => overlap (Grace.playerHitbox (Grace.playerRef m))
                   (Grace.coinHitbox c)) (Grace.coinsRef m) = [true] /\
   Grace.gameState s' = Grace.hit /\
   map Grace.Coin.collected (Grace.coinsRef s') = [false] /\
   Grace.coins s' = 0%Z /\
   Grace.scoreRef s' = Grace.scoreRef s) /\
  NoGrace.gameState
    (fst (NoGrace.update 2864 (fst Sample.nograceDoomed)
            (snd Sample.nograceDoomed)))
  = NoGrace.gameover.
Proof.
  split.
  - destruct (proj1 C1_collision_on_first_overlapping_obstacle
                2640 (fst Sample.graceDoomed) (snd Sample.graceDoomed)
                eq_refl eq_refl)
      as (_ & Hs & Hc & _ & Hn & Hr & _).
    cbv zeta. split; [reflexivity|]. split; [exact Hs|].
    split; [rewrite Hc; reflexivity|].
    split; [rewrite Hn; reflexivity|exact Hr].
  - apply (proj2 C1_collision_on_first_overlapping_obstacle
             2864 (fst Sample.nograceDoomed) (snd Sample.nograceDoomed)
             eq_refl eq_refl).
Defined.

(** C1 as stated fails in the game.tsx revision.  179 frames after mount
    the player, standing, runs into the first bush while the coin spawned
    with it is within reach: the state becomes "gameover", yet the second
    bush is tested as well, the coin is marked collected, the coin count
    goes from 0 to 1 and the score accumulator from 17.8 to 17.9 on that
    very tick. *)
Lemma C1_counterexample :
  let s := fst Sample.nograceDoomed in
  let g := snd Sample.nograceDoomed in
  let m := fst (NoGrace.beforeCollision 2864 s g) in
  let ph := NoGrace.playerHitbox (NoGrace.playerRef m) in
  let s' := fst (NoGrace.update 2864 s g) in
  NoGrace.gameState s = NoGrace.playing /\
  map (NoGrace.hits ph) (NoGrace.obstaclesRef m) = [true; false] /\
  NoGrace.gameState s' = NoGrace.gameover /\
  length (fst (NoGrace.checkObstacles ph (NoGrace.obstaclesRef m) m))
  = 2%nat /\
  map NoGrace.Coin.collected (NoGrace.coinsRef s) = [false] /\
  map NoGrace.Coin.collected (NoGrace.coinsRef s') = [true] /\
  NoGrace.coins s = 0%Z /\ NoGrace.coins s' = 1%Z /\
  NoGrace.scoreRef s == 17.8 /\ NoGrace.scoreRef s' == 17.9.
Proof. cbv zeta. repeat split; vm_compute; reflexivity. Qed.



(** The handlers by themselves give no such guarantee: [resetGame] has no
    [clearTimeout] and the callback sets "gameover" whatever the state.
    Were [resetGame] called in "hit" (the page renders no button for it
    there: [Grace.enabled] is false), the callback of the collision would
    stay pending and later end the restarted game. *)
Lemma grace_reset_in_hit_is_not_offered :
  let st0 := Sample.graceDoomed in
  let st1 := Grace.step (Grace.Frame 2640) st0 in
  let st2 := Grace.step Grace.TryAgain st1 in
  let st3 := Grace.step Grace.TimerFires st2 in
  Grace.gameState (fst st0) = Grace.playing /\
  (Grace.gameState (fst st1) = Grace.hit /\
   Grace.timeouts (fst st1) = 1%nat /\
   Grace.enabled Grace.TryAgain (fst st1) = false) /\
  (Grace.gameState (fst st2) = Grace.playing /\
   Grace.timeouts (fst st2) = 1%nat) /\
  Grace.gameState (fst st3) = Grace.gameover.
Proof. cbv zeta. repeat split; vm_compute; reflexivity. Qed.

(** C3.  On every tick taken while playing, the player is advanced by the
    Physics Integrator of the specification: the new velocity is the old
    one plus the gravity constant, the new position the old one plus the
    new velocity, and a position across the ground plane (below 0 in the
    "hit" revision, above 0 in the game.tsx revision, whose axis points
    down) is clamped to 0 with the velocity zeroed and [grounded] set. *)
Theorem C3_physics_integrator :
  (forall (time : number) (s : Grace.Game) (g : Rng),
      Grace.gameState s = Grace.playing ->
      Spec.integrates Grace.GRAVITY (fun y => y < 0)
        (Grace.playerRef s)
        (Grace.playerRef (fst (Grace.update time s g)))) /\
  (forall (time : number) (s : NoGrace.Game) (g : Rng),
      NoGrace.gameState s = NoGrace.playing ->
      Spec.integrates NoGrace.GRAVITY (fun y => 0 < y)
        (NoGrace.playerRef s)
        (NoGrace.playerRef (fst (NoGrace.update time s g)))).
Proof.
  split; intros time s g Hp.
  - rewrite (GraceFacts.grace_update_player time s g Hp).
    apply GraceFacts.grace_physics_integrates.
  - rewrite (NoGraceFacts.nograce_update_player time s g Hp).
    apply NoGraceFacts.nograce_physics_integrates.
Qed.

(** The integrator at work: the first tick after a jump lifts the player of
    the "hit" revision to 15.45 with velocity 15.45, and a tick on the
    ground of the game.tsx revision clamps the player back to 0. *)
Lemma C3_physics_integrator_witness :
  (let p' := Grace.playerRef
               (fst (Grace.update 0 Sample.graceJumped Sample.quiet)) in
   Player.y p' == 15.45 /\ Player.dy p' == 15.45 /\
   Player.grounded p' = false) /\
  NoGrace.playerRef (fst (NoGrace.update 0 NoGrace.initial Sample.quiet))
  = Player.mk 0 0 true.
Proof.
  split.
  - destruct (proj1 C3_physics_integrator 0 Sample.graceJumped Sample.quiet
                eq_refl) as [_ H].
    destruct H as (Hy & Hd & Hg); [vm_compute; discriminate|].
    cbv zeta. rewrite Hy, Hd, Hg. repeat split; reflexivity.
  - apply (proj2 C3_physics_integrator 0 NoGrace.initial Sample.quiet
             eq_refl).
    vm_compute. reflexivity.
Defined.

(** C4.  At the end of every tick taken while playing, from any state
    whatever (hence from every reachable one), the height of the player
    above the ground is at least 0.  In the "hit" revision the height is
    [y]; in the game.tsx revision, whose gravity is positive, it is [- y]. *)
Theorem C4_vertical_offset_nonnegative :
  (forall (time : number) (s : Grace.Game) (g : Rng),
      Grace.gameState s = Grace.playing ->
      0 <= Grace.verticalOffset
             (Grace.playerRef (fst (Grace.update time s g)))) /\
  (forall (time : number) (s : NoGrace.Game) (g : Rng),
      NoGrace.gameState s = NoGrace.playing ->
      0 <= NoGrace.verticalOffset
             (NoGrace.playerRef (fst (NoGrace.update time s g)))).
Proof.
  split; intros time s g Hp.
  - rewrite (GraceFacts.grace_update_player time s g Hp).
    apply GraceFacts.grace_physics_offset.
  - rewrite (NoGraceFacts.nograce_update_player time s g Hp).
    apply NoGraceFacts.nograce_physics_offset.
Qed.

Lemma C4_vertical_offset_nonnegative_witness :
  0 <= Grace.verticalOffset
         (Grace.playerRef
            (fst (Grace.update 0 Sample.graceJumped Sample.quiet))) /\
  0 <= NoGrace.verticalOffset
         (NoGrace.playerRef
            (fst (NoGrace.update 0 Sample.nograceJumped Sample.quiet))).
Proof.
  split.
  - apply (proj1 C4_vertical_offset_nonnegative 0 Sample.graceJumped
             Sample.quiet).
    reflexivity.
  - apply (proj2 C4_vertical_offset_nonnegative 0 Sample.nograceJumped
             Sample.quiet).
    reflexivity.
Defined.

(** C5.  [handleJump] writes the jump force into the player's velocity and
    clears [grounded] exactly when the player is grounded and the game is
    playing, leaving every other cell as it was; in every other state it
    returns the state unchanged.  The state changes if and only if the
    player is grounded and the game is playing. *)
Theorem C5_jump_only_when_grounded_and_playing :
  (forall s : Grace.Game,
      let ready := Player.grounded (Grace.playerRef s) = true /\
                   Grace.gameState s = Grace.playing in
      (ready ->
       Grace.handleJump s
       = Grace.set_playerRef
           (Player.mk (Player.y (Grace.playerRef s)) Grace.JUMP_FORCE false)
           s) /\
      (~ ready -> Grace.handleJump s = s) /\
      (Grace.handleJump s <> s <-> ready)) /\
  (forall s : NoGrace.Game,
      let ready := Player.grounded (NoGrace.playerRef s) = true /\
                   NoGrace.gameState s = NoGrace.playing in
      (ready ->
       NoGrace.handleJump s
       = NoGrace.set_playerRef
           (Player.mk (Player.y (NoGrace.playerRef s)) NoGrace.JUMP_FORCE
              false) s) /\
      (~ ready -> NoGrace.handleJump s = s) /\
      (NoGrace.handleJump s <> s <-> ready)).
Proof.
  split; intros s ready; subst ready.
  - unfold Grace.handleJump.
    destruct (Player.grounded (Grace.playerRef s)) eqn:Eg;
      destruct (Grace.gameState s) eqn:Es; simpl;
      try (split; [intros [? ?]; congruence
                  |split; [reflexivity
                          |split; [congruence|intros [? ?]; congruence]]]).
    split; [reflexivity|]. split; [tauto|].
    split; [tauto|]. intros _ H.
    apply (f_equal (fun t => Player.grounded (Grace.playerRef t))) in H.
    simpl in H. congruence.
  - unfold NoGrace.handleJump.
    destruct (Player.grounded (NoGrace.playerRef s)) eqn:Eg;
      destruct (NoGrace.gameState s) eqn:Es; simpl;
      try (split; [intros [? ?]; congruence
                  |split; [reflexivity
                          |split; [congruence|intros [? ?]; congruence]]]).
    split; [reflexivity|]. split; [tauto|].
    split; [tauto|]. intros _ H.
    apply (f_equal (fun t => Player.grounded (NoGrace.playerRef t))) in H.
    simpl in H. congruence.
Qed.

(** A jump from the initial state takes off; a second key press while
    airborne changes nothing. *)
Lemma C5_jump_only_when_grounded_and_playing_witness :
  Grace.playerRef (Grace.handleJump Grace.initial) = Player.mk 0 16 false /\
  Grace.handleJump Sample.graceJumped = Sample.graceJumped /\
  NoGrace.playerRef (NoGrace.handleJump NoGrace.initial)
  = Player.mk 0 (-12) false /\
  NoGrace.handleJump Sample.nograceJumped = Sample.nograceJumped.
Proof.
  destruct C5_jump_only_when_grounded_and_playing as [HG HN].
  split; [|split; [|split]].
  - rewrite (proj1 (HG Grace.initial) (conj eq_refl eq_refl)). reflexivity.
  - apply (proj1 (proj2 (HG Sample.graceJumped))).
    intros [H _]. discriminate H.
  - rewrite (proj1 (HN NoGrace.initial) (conj eq_refl eq_refl)). reflexivity.
  - apply (proj1 (proj2 (HN Sample.nograceJumped))).
    intros [H _]. discriminate H.
Defined.

(** C6.  The collision test is a function of the two rectangles alone, and
    for rectangles proper (positive width and height) it answers [true]
    exactly when their projections on the x axis share a point and their
    projections on the y axis share a point.  Hence rectangles whose
    projections are disjoint on either axis never collide, and rectangles
    whose projections meet on both axes always do. *)
Theorem C6_overlap_is_interval_test :
  forall a b : Rect.t,
    Spec.proper a -> Spec.proper b ->
    (overlap a b = true <-> Spec.x_meet a b /\ Spec.y_meet a b) /\
    (~ Spec.x_meet a b \/ ~ Spec.y_meet a b -> overlap a b = false) /\
    (Spec.x_meet a b /\ Spec.y_meet a b -> overlap a b = true).
Proof.
  intros a b [Haw Hah] [Hbw Hbh].
  assert (Hiff : overlap a b = true <-> Spec.x_meet a b /\ Spec.y_meet a b).
  { rewrite overlap_true. unfold Spec.x_meet, Spec.y_meet.
    rewrite !intervals_meet_iff by lra. tauto. }
  split; [exact Hiff|]. split.
  - intros Hd. destruct (overlap a b) eqn:E; [|reflexivity].
    exfalso. destruct (proj1 Hiff eq_refl) as [Hx Hy]. tauto.
  - apply Hiff.
Qed.

(** The player standing on the ground against an obstacle of the "hit"
    revision at x = 100 (hitbox from 110 to 140, 40 high), and against one
    at x = 200. *)
Lemma C6_overlap_is_interval_test_witness :
  (overlap (Rect.mk 120 0 30 60) (Rect.mk 110 0 30 40) = true <->
   Spec.x_meet (Rect.mk 120 0 30 60) (Rect.mk 110 0 30 40) /\
   Spec.y_meet (Rect.mk 120 0 30 60) (Rect.mk 110 0 30 40)) /\
  overlap (Rect.mk 120 0 30 60) (Rect.mk 210 0 30 40) = false.
Proof.
  split.
  - apply (C6_overlap_is_interval_test
             (Rect.mk 120 0 30 60) (Rect.mk 110 0 30 40));
      split; reflexivity.
  - reflexivity.
Defined.

(** C7.  From every state [resetGame] yields score 0, coin count 0, empty
    obstacle and coin lists, the player on the ground at rest, the initial
    game speed and the state "playing"; run twice in a row it yields what
    one run yields. *)
Theorem C7_reset_zeroes_and_is_idempotent :
  (forall s : Grace.Game,
      let r := Grace.resetGame s in
      (Grace.score r = 0%Z /\ Grace.coins r = 0%Z /\
       Grace.scoreRef r = 0 /\
       Grace.obstaclesRef r = [] /\ Grace.coinsRef r = [] /\
       Grace.playerRef r = Player.mk 0 0 true /\
       Grace.gameSpeedRef r = Grace.gameSpeedRef Grace.initial /\
       Grace.gameState r = Grace.playing) /\
      Grace.resetGame r = r) /\
  (forall s : NoGrace.Game,
      let r := NoGrace.resetGame s in
      (NoGrace.score r = 0%Z /\ NoGrace.coins r = 0%Z /\
       NoGrace.scoreRef r = 0 /\
       NoGrace.obstaclesRef r = [] /\ NoGrace.coinsRef r = [] /\
       NoGrace.playerRef r = Player.mk 0 0 true /\
       NoGrace.gameSpeedRef r = NoGrace.gameSpeedRef NoGrace.initial /\
       NoGrace.gameState r = NoGrace.playing) /\
      NoGrace.resetGame r = r).
Proof.
  split; intros s r; subst r; split;
    try (repeat split; reflexivity); destruct s; reflexivity.
Qed.

(** C8.  After every tick taken while playing, every obstacle left in the
    list lies to the right of its prune threshold (-200 in the "hit"
    revision, -100 in the game.tsx revision) and every coin to the right of
    -100: nothing at or beyond a threshold is carried into the next tick. *)
Theorem C8_no_pruned_entity_survives_a_tick :
  (forall (time : number) (s : Grace.Game) (g : Rng),
      Grace.gameState s = Grace.playing ->
      Forall (fun obs => -200 < Grace.Obstacle.x obs)
        (Grace.obstaclesRef (fst (Grace.update time s g))) /\
      Forall (fun c => -100 < Grace.Coin.x c)
        (Grace.coinsRef (fst (Grace.update time s g)))) /\
  (forall (time : number) (s : NoGrace.Game) (g : Rng),
      NoGrace.gameState s = NoGrace.playing ->
      Forall (fun obs => -100 < NoGrace.Obstacle.x obs)
        (NoGrace.obstaclesRef (fst (NoGrace.update time s g))) /\
      Forall (fun c => -100 < NoGrace.Coin.x c)
        (NoGrace.coinsRef (fst (NoGrace.update time s g)))).
Proof.
  split; intros time s g Hp.
  - apply GraceFacts.grace_update_pruned. exact Hp.
  - apply NoGraceFacts.nograce_update_pruned. exact Hp.
Qed.

(** One frame drops the rock at -195.289 (moved to -202.397), and one frame
    drops the bush at -98.22 (moved to -103.436). *)
Lemma C8_no_pruned_entity_survives_a_tick_witness :
  (Grace.obstaclesRef (fst Sample.graceLeaving) <> [] /\
   Forall (fun obs => -200 < Grace.Obstacle.x obs)
     (Grace.obstaclesRef
        (fst (Grace.update 3408 (fst Sample.graceLeaving)
                (snd Sample.graceLeaving)))) /\
   Grace.obstaclesRef
     (fst (Grace.update 3408 (fst Sample.graceLeaving)
             (snd Sample.graceLeaving))) = []) /\
  (NoGrace.obstaclesRef (fst Sample.nograceLeaving) <> [] /\
   Forall (fun obs => -100 < NoGrace.Obstacle.x obs)
     (NoGrace.obstaclesRef
        (fst (NoGrace.update 3456 (fst Sample.nograceLeaving)
                (snd Sample.nograceLeaving)))) /\
   NoGrace.obstaclesRef
     (fst (NoGrace.update 3456 (fst Sample.nograceLeaving)
             (snd Sample.nograceLeaving))) = []).
Proof.
  split; split; try (vm_compute; discriminate); split;
    try (vm_compute; reflexivity).
  - apply (proj1 C8_no_pruned_entity_survives_a_tick 3408
             (fst Sample.graceLeaving) (snd Sample.graceLeaving) eq_refl).
  - apply (proj2 C8_no_pruned_entity_survives_a_tick 3456
             (fst Sample.nograceLeaving) (snd Sample.nograceLeaving)
             eq_refl).
Defined.

(** C9 (as amended).  In the "hit" revision a successful spawn draw appends
    an obstacle only when the list is empty or its last obstacle has
    [x < 800]; the new obstacle is placed at [1300 + rx * 300 >= 1300], so it
    lies more than 500 to the right of the last one at spawn time, and the
    spawn is rejected whenever the last obstacle is at 800 or beyond.  The
    game.tsx revision has no such check: every successful draw appends an
    obstacle at [x = 1000], wherever the last one is. *)
Theorem C9_minimum_gap_between_spawned_obstacles :
  (forall (s : Grace.Game) (g : Rng),
      unit_interval g ->
      (Grace.obstaclesRef (fst (Grace.spawnObstacle s g))
       = Grace.obstaclesRef s \/
       exists obs,
         Grace.obstaclesRef (fst (Grace.spawnObstacle s g))
         = Grace.obstaclesRef s ++ [obs] /\
         supply g (cursor g) < 0.015 /\
         1300 <= Grace.Obstacle.x obs /\
         forall lastObs,
           lastOf (Grace.obstaclesRef s) = Some lastObs ->
           500 < Grace.Obstacle.x obs - Grace.Obstacle.x lastObs) /\
      (forall lastObs,
          lastOf (Grace.obstaclesRef s) = Some lastObs ->
          800 <= Grace.Obstacle.x lastObs ->
          Grace.obstaclesRef (fst (Grace.spawnObstacle s g))
          = Grace.obstaclesRef s)) /\
  (forall (s : NoGrace.Game) (g : Rng),
      supply g (cursor g) < 0.015 ->
      exists obs,
        NoGrace.obstaclesRef (fst (NoGrace.spawnObstacle s g))
        = NoGrace.obstaclesRef s ++ [obs] /\
        NoGrace.Obstacle.x obs = 1000).
Proof.
  split.
  - intros s g Hu. split.
    + apply GraceFacts.grace_spawnObstacle_gap. exact Hu.
    + intros lastObs El Hx.
      exact (GraceFacts.grace_spawnObstacle_rejects s g lastObs El Hx).
  - intros s g Hr. rewrite NoGraceFacts.nograce_spawnObstacle_cases.
    apply Qltb_lt in Hr. rewrite Hr. eexists. split; reflexivity.
Qed.

(** With the rock at 745.42 the successful draw of tick 80 appends a bush
    at 1450, more than 500 further right; with the rock at 1096.7825 the
    successful draw of tick 30 appends nothing.  In the game.tsx revision
    the successful draw of tick 2 appends a bush at 1000 although the last
    one is at 994.999. *)
Lemma C9_minimum_gap_between_spawned_obstacles_witness :
  (exists rock obs,
      Grace.obstaclesRef (fst Sample.graceSpawning) = [rock] /\
      Grace.obstaclesRef
        (fst (Grace.spawnObstacle (fst Sample.graceSpawning)
                (snd Sample.graceSpawning))) = [rock; obs] /\
      500 < Grace.Obstacle.x obs - Grace.Obstacle.x rock) /\
  Grace.obstaclesRef
    (fst (Grace.spawnObstacle (fst Sample.graceCrowded)
            (snd Sample.graceCrowded)))
  = Grace.obstaclesRef (fst Sample.graceCrowded) /\
  (exists obs,
      NoGrace.obstaclesRef
        (fst (NoGrace.spawnObstacle (fst Sample.nograceSpawning)
                (snd Sample.nograceSpawning)))
      = NoGrace.obstaclesRef (fst Sample.nograceSpawning) ++ [obs] /\
      NoGrace.Obstacle.x obs = 1000).
Proof.
  split; [|split].
  - destruct (proj1 (proj1 C9_minimum_gap_between_spawned_obstacles
                       (fst Sample.graceSpawning) (snd Sample.graceSpawning)
                       threeDraws_unit_interval))
      as [H|(obs & E & _ & _ & Hgap)].
    + apply (f_equal (@length _)) in H. vm_compute in H. discriminate H.
    + exists (Grace.Obstacle.mk 0 (Qred 745.42) 50 50 Grace.rock), obs.
      split; [vm_compute; reflexivity|]. split; [exact E|].
      apply Hgap. vm_compute. reflexivity.
  - apply (proj2 (proj1 C9_minimum_gap_between_spawned_obstacles
                    (fst Sample.graceCrowded) (snd Sample.graceCrowded)
                    threeDraws_unit_interval)
             (Grace.Obstacle.mk 0 (Qred 1096.7825) 50 50 Grace.rock)).
    + vm_compute. reflexivity.
    + vm_compute. discriminate.
  - apply (proj2 C9_minimum_gap_between_spawned_obstacles
             (fst Sample.nograceSpawning) (snd Sample.nograceSpawning)).
    reflexivity.
Defined.

(** C9 as stated fails in the game.tsx revision.  With a supply on which
    every draw succeeds, the first frame after mount spawns a bush and moves
    it to 994.999; the spawning block of the second frame appends another
    at 1000, 5.001 away: nearer than the width of the obstacle itself. *)
Lemma C9_counterexample :
  let st1 := Sample.nograceSpawning in
  let s2 := fst (NoGrace.spawnObstacle (fst st1) (snd st1)) in
  NoGrace.gameState (fst st1) = NoGrace.playing /\
  exists a b,
    NoGrace.obstaclesRef (fst st1) = [a] /\
    NoGrace.obstaclesRef s2 = [a; b] /\
    NoGrace.Obstacle.x b - NoGrace.Obstacle.x a == 5.001 /\
    NoGrace.Obstacle.x b - NoGrace.Obstacle.x a < NoGrace.Obstacle.w a.
Proof.
  cbv zeta. split; [reflexivity|].
  eexists. eexists. split; [reflexivity|]. split; [reflexivity|].
  split; reflexivity.
Qed.

(** C10.  The argument [time] of [update] reaches the cell [lastTimeRef]
    and nothing else: two ticks from the same state with the same random
    supply and different time stamps agree on every other cell (player,
    obstacle and coin lists, game speed, score and coin count among them)
    and on the random draws consumed. *)
Theorem C10_update_independent_of_timestamp :
  (forall (t1 t2 : number) (s : Grace.Game) (g : Rng),
      Grace.forgetTime (fst (Grace.update t1 s g))
      = Grace.forgetTime (fst (Grace.update t2 s g)) /\
      snd (Grace.update t1 s g) = snd (Grace.update t2 s g)) /\
  (forall (t1 t2 : number) (s : NoGrace.Game) (g : Rng),
      NoGrace.forgetTime (fst (NoGrace.update t1 s g))
      = NoGrace.forgetTime (fst (NoGrace.update t2 s g)) /\
      snd (NoGrace.update t1 s g) = snd (NoGrace.update t2 s g)).
Proof.
  split; intros t1 t2 s g.
  - apply GraceFacts.grace_update_forgetTime.
  - apply NoGraceFacts.nograce_update_forgetTime.
Qed.

(** * Further facts about lists *)

Lemma NoDup_app_disjoint {A : Type} (l1 l2 : list A) (a : A) :
  NoDup (l1 ++ l2) -> In a l1 -> ~ In a l2.
Proof.
  induction l1 as [|b l1 IH]; simpl; [tauto|].
  intros Hn [->|Hin] H2; inversion Hn as [|? ? Hnot Hrest]; subst.
  - apply Hnot. apply in_or_app. right. exact H2.
  - exact (IH Hrest Hin H2).
Qed.

Lemma NoDup_map_filter {A B : Type} (h : A -> B) (f : A -> bool)
    (l : list A) :
  NoDup (map h l) -> NoDup (map h (filter f l)).
Proof.
  induction l as [|a l IH]; simpl; [auto|].
  intros Hn. inversion Hn as [|? ? Hnot Hrest]; subst.
  destruct (f a); simpl; [|exact (IH Hrest)].
  constructor; [|exact (IH Hrest)].
  intros Hin. apply Hnot. apply in_map_iff in Hin.
  destruct Hin as (x & E & Hx). apply filter_In in Hx.
  apply in_map_iff. exists x. tauto.
Qed.

Lemma In_map_filter {A B : Type} (h : A -> B) (f : A -> bool)
    (l : list A) (b : B) :
  In b (map h (filter f l)) -> In b (map h l).
Proof.
  intros Hin. apply in_map_iff in Hin. destruct Hin as (x & E & Hx).
  apply filter_In in Hx. apply in_map_iff. exists x. tauto.
Qed.

Lemma number_eqb_eq (a b : number) : More.number_eqb a b = true -> a = b.
Proof.
  destruct a as [an ad], b as [bn bd]. unfold More.number_eqb. simpl.
  intros H. apply andb_true_iff in H. destruct H as [Hn Hd].
  apply Z.eqb_eq in Hn. apply Pos.eqb_eq in Hd. subst. reflexivity.
Qed.

Lemma Player_eqb_eq (p q : Player.t) : More.Player_eqb p q = true -> p = q.
Proof.
  destruct p as [py pdy pg], q as [qy qdy qg]. unfold More.Player_eqb.
  simpl. intros H. apply andb_true_iff in H. destruct H as [H Hg].
  apply andb_true_iff in H. destruct H as [Hy Hdy].
  apply number_eqb_eq in Hy. apply number_eqb_eq in Hdy.
  apply Bool.eqb_prop in Hg. subst. reflexivity.
Qed.

(** A list of player states that [f] maps into itself, checked by running
    [f] on each of them. *)
Lemma orbit_closed (f : Player.t -> Player.t) (arc : list Player.t) :
  forallb (fun p => existsb (More.Player_eqb (f p)) arc) arc = true ->
  forall p, In p arc -> In (f p) arc.
Proof.
  intros H p Hin. rewrite forallb_forall in H. specialize (H p Hin).
  apply existsb_exists in H. destruct H as (q & Hq & E).
  apply Player_eqb_eq in E. rewrite E. exact Hq.
Qed.

(** * Further facts about the revision with the "hit" state *)

Module GraceMore.
Import Grace GraceFacts.

(** *** Outside "playing" *)

Lemma grace_handleJump_not_playing s :
  gameState s <> playing -> handleJump s = s.
Proof.
  intros Hn. unfold handleJump.
  destruct (gameState s); try congruence;
    rewrite andb_false_r; reflexivity.
Qed.

Lemma grace_run_frozen es st :
  gameState (fst st) <> playing -> Forall More.graceInput es ->
  run es st = st.
Proof.
  intros Hn Hes. revert st Hn.
  induction Hes as [|e rest He Hrest IH]; intros [s g] Hn; [reflexivity|].
  simpl in Hn. unfold run. simpl. fold (run rest).
  destruct e as [time| | |]; simpl in He; try contradiction; simpl.
  - rewrite grace_update_not_playing by exact Hn.
    apply IH. exact Hn.
  - rewrite grace_handleJump_not_playing by exact Hn.
    apply IH. exact Hn.
Qed.

(** *** The speed ramp *)

Lemma grace_spawnObstacle_speed s g :
  gameSpeedRef (fst (spawnObstacle s g)) = gameSpeedRef s /\
  bgOffsetRef (fst (spawnObstacle s g)) = bgOffsetRef s.
Proof.
  unfold spawnObstacle, random.
  destruct (Qltb _ _); [|split; reflexivity].
  destruct (chooseType _) as [[ty wd] ht].
  destruct (farEnough _); split; reflexivity.
Qed.

Lemma grace_spawnCoin_speed s g :
  gameSpeedRef (fst (spawnCoin s g)) = gameSpeedRef s /\
  bgOffsetRef (fst (spawnCoin s g)) = bgOffsetRef s.
Proof.
  unfold spawnCoin, random. destruct (Qltb _ _); split; reflexivity.
Qed.

Lemma grace_simulate_speed s g :
  gameSpeedRef (fst (simulate s g)) = add (gameSpeedRef s) SPEED_INCREMENT /\
  bgOffsetRef (fst (simulate s g))
  = add (bgOffsetRef s) (add (gameSpeedRef s) SPEED_INCREMENT).
Proof.
  unfold simulate.
  set (s3 := speedUp (set_playerRef (physics (playerRef s)) s)).
  destruct (grace_spawnObstacle_speed s3 g) as [A4 B4].
  destruct (spawnObstacle s3 g) as [s4 g4]. simpl in A4, B4.
  destruct (grace_spawnCoin_speed s4 g4) as [A5 B5].
  destruct (spawnCoin s4 g4) as [s5 g5]. simpl in *.
  rewrite A5, A4, B5, B4. split; reflexivity.
Qed.

Lemma grace_stampTime_speed time s :
  gameSpeedRef (stampTime time s) = gameSpeedRef s /\
  bgOffsetRef (stampTime time s) = bgOffsetRef s.
Proof. unfold stampTime. destruct (falsy _); split; reflexivity. Qed.

Lemma grace_collisionDetection_speed s g :
  gameSpeedRef (fst (collisionDetection s g)) = gameSpeedRef s /\
  bgOffsetRef (fst (collisionDetection s g)) = bgOffsetRef s.
Proof.
  unfold collisionDetection.
  destruct (snd (checkObstacles _ _)); simpl; [split; reflexivity|].
  unfold collectCoins. destruct (checkCoins _ _ _). split; reflexivity.
Qed.

Lemma grace_update_speed time s g :
  gameState s = playing ->
  gameSpeedRef (fst (update time s g))
  = add (gameSpeedRef s) SPEED_INCREMENT /\
  bgOffsetRef (fst (update time s g))
  = add (bgOffsetRef s) (add (gameSpeedRef s) SPEED_INCREMENT).
Proof.
  intros Hp. unfold update, beforeCollision. rewrite Hp. simpl.
  destruct (grace_simulate_speed (stampTime time s) g) as [A B].
  destruct (simulate (stampTime time s) g) as [m g']. simpl in A, B.
  destruct (grace_collisionDetection_speed m g') as [C D].
  destruct (grace_stampTime_speed time s) as [E F].
  rewrite C, D, A, B, E, F. split; reflexivity.
Qed.

(** No step but the reset lowers the game speed. *)
Lemma grace_step_speed e s g :
  e <> TryAgain -> gameSpeedRef s <= gameSpeedRef (fst (step e (s, g))).
Proof.
  intros He. destruct e as [time| | |]; simpl; try congruence.
  - destruct (gameState s) eqn:Es.
    + destruct (grace_update_speed time s g Es) as [A _]. rewrite A.
      to_Q. unfold SPEED_INCREMENT. lra.
    + rewrite grace_update_not_playing by congruence. apply Qle_refl.
    + rewrite grace_update_not_playing by congruence. apply Qle_refl.
  - unfold handleJump. destruct (_ && _); apply Qle_refl.
  - apply Qle_refl.
Qed.

Lemma grace_reachable_speed g0 st :
  reachable g0 st -> 7 <= gameSpeedRef (fst st).
Proof.
  induction 1 as [|e [s g] Hr IH En]; [apply Qle_refl|].
  simpl in IH. destruct e as [time| | |].
  - eapply Qle_trans; [exact IH|]. apply grace_step_speed. discriminate.
  - eapply Qle_trans; [exact IH|]. apply grace_step_speed. discriminate.
  - apply Qle_refl.
  - eapply Qle_trans; [exact IH|]. apply grace_step_speed. discriminate.
Qed.

(** *** What one tick does to the lists *)

Lemma grace_chooseType_shaped (typeRand x : number) (id : Z) :
  More.shaped
    (Obstacle.mk id x (snd (fst (chooseType typeRand)))
       (snd (chooseType typeRand)) (fst (fst (chooseType typeRand)))).
Proof.
  unfold chooseType, More.shaped.
  destruct (Qgtb typeRand 0.65); [|destruct (Qgtb typeRand 0.35)]; simpl;
    tauto.
Qed.

(** The obstacles and the coins after the spawning, moving and pruning of
    one tick: the old ones and at most one new one of each kind, the new
    obstacle under the next free id and the new coin under the one after,
    all moved by the new game speed, those that left the screen dropped. *)
Lemma grace_simulate_lists s g :
  exists (newO : list Obstacle.t) (newC : list Coin.t),
    obstaclesRef (fst (simulate s g))
    = filter (fun obs => Qgtb (Obstacle.x obs) (-200))
        (map (moveObstacle (add (gameSpeedRef s) SPEED_INCREMENT))
           (obstaclesRef s ++ newO)) /\
    coinsRef (fst (simulate s g))
    = filter (fun c => Qgtb (Coin.x c) (-100))
        (map (moveCoin (add (gameSpeedRef s) SPEED_INCREMENT))
           (coinsRef s ++ newC)) /\
    nextIdRef (fst (simulate s g))
    = (nextIdRef s + Z.of_nat (length newO) + Z.of_nat (length newC))%Z /\
    (newO = [] \/
     exists obs,
       newO = [obs] /\ Obstacle.id obs = nextIdRef s /\ More.shaped obs /\
       Obstacle.x obs
       = add 1300 (mul (supply g (S (S (cursor g)))) 300) /\
       farEnough (obstaclesRef s) = true) /\
    (newC = [] \/
     exists c,
       newC = [c] /\
       Coin.id c = (nextIdRef s + Z.of_nat (length newO))%Z /\
       Coin.x c = 1300 /\ (Coin.y c = 160 \/ Coin.y c = 70) /\
       Coin.collected c = false).
Proof.
  assert (Hy : forall ry : number,
             (if Qgtb ry 0.5 then 160 else 70) = 160 \/
             (if Qgtb ry 0.5 then 160 else 70) = 70)
    by (intros ry; destruct (Qgtb ry 0.5); tauto).
  unfold simulate, spawnObstacle, spawnCoin, random. simpl.
  destruct (Qltb (supply g (cursor g)) 0.015); simpl.
  - pose proof (grace_chooseType_shaped (supply g (S (cursor g)))
                  (add 1300 (mul (supply g (S (S (cursor g)))) 300))
                  (nextIdRef s)) as Hsh.
    destruct (chooseType (supply g (S (cursor g)))) as [[ty wd] ht].
    simpl in Hsh.
    destruct (farEnough (obstaclesRef s)) eqn:Ef; simpl;
      (destruct (Qltb _ 0.02); simpl).
    + eexists. eexists. split; [reflexivity|]. split; [reflexivity|].
      split; [simpl; lia|]. split; right; eexists; split; try reflexivity.
      * repeat split; auto.
      * simpl. repeat split; auto.
    + eexists. exists []. rewrite (app_nil_r (coinsRef s)). split; [reflexivity|].
      split; [reflexivity|]. split; [simpl; lia|].
      split; [right; eexists; split; [reflexivity|repeat split; auto]|].
      left; reflexivity.
    + exists []. eexists. rewrite (app_nil_r (obstaclesRef s)). split; [reflexivity|].
      split; [reflexivity|]. split; [simpl; lia|].
      split; [left; reflexivity|]. right; eexists; split; [reflexivity|].
      simpl. repeat split; auto. lia.
    + exists [], []. rewrite !app_nil_r. repeat split; auto. simpl. lia.
  - destruct (Qltb _ 0.02); simpl.
    + exists []. eexists. rewrite (app_nil_r (obstaclesRef s)). split; [reflexivity|].
      split; [reflexivity|]. split; [simpl; lia|].
      split; [left; reflexivity|]. right; eexists; split; [reflexivity|].
      simpl. repeat split; auto. lia.
    + exists [], []. rewrite !app_nil_r. repeat split; auto. simpl. lia.
Qed.

Lemma grace_stampTime_lists time s :
  obstaclesRef (stampTime time s) = obstaclesRef s /\
  coinsRef (stampTime time s) = coinsRef s /\
  nextIdRef (stampTime time s) = nextIdRef s.
Proof. unfold stampTime. destruct (falsy _); repeat split; reflexivity. Qed.

Lemma grace_collisionDetection_lists s g :
  obstaclesRef (fst (collisionDetection s g)) = obstaclesRef s /\
  map More.coinShape (coinsRef (fst (collisionDetection s g)))
  = map More.coinShape (coinsRef s) /\
  nextIdRef (fst (collisionDetection s g)) = nextIdRef s.
Proof.
  unfold collisionDetection.
  destruct (snd (checkObstacles _ _)); simpl; [repeat split; reflexivity|].
  unfold collectCoins.
  pose proof (grace_checkCoins_shape (playerHitbox (playerRef s))
                (coinsRef s) (coins s)) as E.
  destruct (checkCoins _ _ _) as [cs n]. simpl in *.
  repeat split; try reflexivity. exact E.
Qed.

(** The lists after a tick taken while playing. *)
Lemma grace_update_lists time s g :
  gameState s = playing ->
  exists (newO : list Obstacle.t) (newC : list Coin.t),
    obstaclesRef (fst (update time s g))
    = filter (fun obs => Qgtb (Obstacle.x obs) (-200))
        (map (moveObstacle (add (gameSpeedRef s) SPEED_INCREMENT))
           (obstaclesRef s ++ newO)) /\
    map More.coinShape (coinsRef (fst (update time s g)))
    = map More.coinShape
        (filter (fun c => Qgtb (Coin.x c) (-100))
           (map (moveCoin (add (gameSpeedRef s) SPEED_INCREMENT))
              (coinsRef s ++ newC))) /\
    nextIdRef (fst (update time s g))
    = (nextIdRef s + Z.of_nat (length newO) + Z.of_nat (length newC))%Z /\
    (newO = [] \/
     exists obs,
       newO = [obs] /\ Obstacle.id obs = nextIdRef s /\ More.shaped obs /\
       Obstacle.x obs
       = add 1300 (mul (supply g (S (S (cursor g)))) 300) /\
       farEnough (obstaclesRef s) = true) /\
    (newC = [] \/
     exists c,
       newC = [c] /\
       Coin.id c = (nextIdRef s + Z.of_nat (length newO))%Z /\
       Coin.x c = 1300 /\ (Coin.y c = 160 \/ Coin.y c = 70) /\
       Coin.collected c = false).
Proof.
  intros Hp. unfold update, beforeCollision. rewrite Hp. simpl.
  destruct (grace_simulate_lists (stampTime time s) g)
    as (newO & newC & Eo & Ec & En & Ho & Hc).
  destruct (grace_stampTime_lists time s) as (So & Sc & Sn).
  destruct (grace_stampTime_speed time s) as [Sv _].
  rewrite So, Sc, Sn, Sv in *.
  destruct (simulate (stampTime time s) g) as [m g']. simpl in Eo, Ec, En.
  destruct (grace_collisionDetection_lists m g') as (Co & Cc & Cn).
  exists newO, newC. rewrite Co, Cc, Cn, Eo, Ec, En. tauto.
Qed.

(** Where the obstacles of the list after a tick come from. *)
Lemma grace_update_obstacle_origin time s g obs' :
  gameState s = playing ->
  In obs' (obstaclesRef (fst (update time s g))) ->
  -200 < Obstacle.x obs' /\
  exists obs,
    obs' = moveObstacle (add (gameSpeedRef s) SPEED_INCREMENT) obs /\
    (In obs (obstaclesRef s) \/
     (Obstacle.id obs = nextIdRef s /\ More.shaped obs /\
      Obstacle.x obs = add 1300 (mul (supply g (S (S (cursor g)))) 300) /\
      farEnough (obstaclesRef s) = true /\
      (nextIdRef s < nextIdRef (fst (update time s g)))%Z)).
Proof.
  intros Hp Hin.
  destruct (grace_update_lists time s g Hp)
    as (newO & newC & Eo & _ & En & Ho & _).
  rewrite Eo in Hin. apply filter_In in Hin. destruct Hin as [Hin Hk].
  apply Qgtb_gt in Hk. split; [exact Hk|].
  apply in_map_iff in Hin. destruct Hin as (obs & E & Hin).
  exists obs. split; [symmetry; exact E|].
  apply in_app_or in Hin. destruct Hin as [Hin|Hin]; [left; exact Hin|].
  right. destruct Ho as [->|(o & -> & Hid & Hsh & Hx & Hf)]; [destruct Hin|].
  destruct Hin as [<-|[]]. simpl in En. repeat split; auto. lia.
Qed.

(** Where the coins of the list after a tick come from. *)
Lemma grace_update_coin_origin time s g c' :
  gameState s = playing ->
  In c' (coinsRef (fst (update time s g))) ->
  -100 < Coin.x c' /\
  exists c,
    More.coinShape c'
    = More.coinShape (moveCoin (add (gameSpeedRef s) SPEED_INCREMENT) c) /\
    (In c (coinsRef s) \/
     ((nextIdRef s <= Coin.id c < nextIdRef (fst (update time s g)))%Z /\
      Coin.x c = 1300 /\ (Coin.y c = 160 \/ Coin.y c = 70))).
Proof.
  intros Hp Hin.
  destruct (grace_update_lists time s g Hp)
    as (newO & newC & _ & Ec & En & _ & Hc).
  apply (in_map More.coinShape) in Hin. rewrite Ec in Hin.
  apply in_map_iff in Hin. destruct Hin as (m & E & Hin).
  apply filter_In in Hin. destruct Hin as [Hin Hk]. apply Qgtb_gt in Hk.
  assert (Ex : Coin.x c' = Coin.x m)
    by (apply (f_equal (fun t => snd (fst t))) in E; symmetry; exact E).
  split; [rewrite Ex; exact Hk|].
  apply in_map_iff in Hin. destruct Hin as (c & Em & Hin). subst m.
  exists c. split; [symmetry; exact E|].
  apply in_app_or in Hin. destruct Hin as [Hin|Hin]; [left; exact Hin|].
  right. destruct Hc as [->|(c0 & -> & Hid & Hx & Hy & _)]; [destruct Hin|].
  destruct Hin as [<-|[]]. simpl in En. repeat split; auto; lia.
Qed.

Lemma grace_update_nextId time s g :
  (nextIdRef s <= nextIdRef (fst (update time s g)))%Z.
Proof.
  destruct (gameState s) eqn:Es;
    try (rewrite grace_update_not_playing by congruence; simpl; lia).
  destruct (grace_update_lists time s g Es)
    as (newO & newC & _ & _ & En & _ & _).
  rewrite En. lia.
Qed.

(** *** Invariants of the reachable states *)

(** A property of the state that holds at mount and that every handler
    keeps holds in every state the page reaches. *)
Lemma grace_reachable_invariant (P : Game -> Prop) g0 :
  P initial ->
  (forall time s g,
     P s -> gameState s = playing -> supply g = supply g0 ->
     P (fst (update time s g))) ->
  (forall s, P s -> P (handleJump s)) ->
  (forall s, P s -> P (resetGame s)) ->
  (forall s, P s -> P (onTimeout (clearOneTimeout s))) ->
  forall st, reachable g0 st -> P (fst st).
Proof.
  intros H0 Hu Hj Hr Ht st Hreach.
  assert (H : supply (snd st) = supply g0 /\ P (fst st)); [|apply H].
  induction Hreach as [|e [s g] Hreach [IHg IH] En].
  - split; [reflexivity|exact H0].
  - simpl in IHg, IH. destruct e as [time| | |]; simpl.
    + split; [rewrite grace_update_supply; exact IHg|].
      destruct (gameState s) eqn:Es.
      * apply Hu; assumption.
      * rewrite grace_update_not_playing by congruence. exact IH.
      * rewrite grace_update_not_playing by congruence. exact IH.
    + split; [exact IHg|apply Hj; exact IH].
    + split; [exact IHg|apply Hr; exact IH].
    + split; [exact IHg|apply Ht; exact IH].
Qed.

Lemma grace_handleJump_lists s :
  obstaclesRef (handleJump s) = obstaclesRef s /\
  coinsRef (handleJump s) = coinsRef s /\
  nextIdRef (handleJump s) = nextIdRef s /\
  gameSpeedRef (handleJump s) = gameSpeedRef s.
Proof. unfold handleJump. destruct (_ && _); repeat split; reflexivity. Qed.

(** Every obstacle has one of the three shapes of [chooseType]. *)
Lemma grace_reachable_shaped g0 st :
  reachable g0 st -> Forall More.shaped (obstaclesRef (fst st)).
Proof.
  apply (grace_reachable_invariant
           (fun s => Forall More.shaped (obstaclesRef s))).
  - constructor.
  - intros time s g IH Hp _. apply Forall_forall. intros o' Hin.
    destruct (grace_update_obstacle_origin time s g o' Hp Hin)
      as (_ & o & -> & [Ho|(_ & Hs & _)]).
    + rewrite Forall_forall in IH. apply (IH o Ho).
    + exact Hs.
  - intros s IH. destruct (grace_handleJump_lists s) as (E & _).
    rewrite E. exact IH.
  - intros s _. constructor.
  - intros s IH. exact IH.
Qed.

(** The coins float at one of the two heights of [spawnCoin]. *)
Lemma grace_reachable_coin_heights g0 st :
  reachable g0 st ->
  Forall (fun c => Coin.y c = 160 \/ Coin.y c = 70) (coinsRef (fst st)).
Proof.
  apply (grace_reachable_invariant
           (fun s => Forall (fun c => Coin.y c = 160 \/ Coin.y c = 70)
                       (coinsRef s))).
  - constructor.
  - intros time s g IH Hp _. apply Forall_forall. intros c' Hin.
    destruct (grace_update_coin_origin time s g c' Hp Hin)
      as (_ & c & E & Hc).
    apply (f_equal snd) in E. simpl in E. rewrite E.
    destruct Hc as [Hc|(_ & _ & Hy)]; [|exact Hy].
    rewrite Forall_forall in IH. apply (IH c Hc).
  - intros s IH. destruct (grace_handleJump_lists s) as (_ & E & _).
    rewrite E. exact IH.
  - intros s _. constructor.
  - intros s IH. exact IH.
Qed.

(** *** The band in which obstacles and coins live *)

Lemma grace_update_band time s g :
  gameState s = playing -> unit_interval g -> 0 <= gameSpeedRef s ->
  Forall (fun o => Obstacle.x o < 1600) (obstaclesRef s) ->
  Forall (fun c => Coin.x c <= 1300) (coinsRef s) ->
  Forall (fun o => -200 < Obstacle.x o /\ Obstacle.x o < 1600)
    (obstaclesRef (fst (update time s g))) /\
  Forall (fun c => -100 < Coin.x c /\ Coin.x c <= 1300)
    (coinsRef (fst (update time s g))).
Proof.
  intros Hp Hu Hv Ho Hc. split; apply Forall_forall.
  - intros o' Hin.
    destruct (grace_update_obstacle_origin time s g o' Hp Hin)
      as (Hlo & o & -> & Hfrom).
    split; [exact Hlo|]. simpl. to_Q. unfold SPEED_INCREMENT.
    destruct Hfrom as [Hold|(_ & _ & Hx & _)].
    + rewrite Forall_forall in Ho. specialize (Ho o Hold). lra.
    + rewrite Hx. to_Q.
      destruct (Hu (S (S (cursor g)))) as [_ Hr]. lra.
  - intros c' Hin.
    destruct (grace_update_coin_origin time s g c' Hp Hin)
      as (Hlo & c & E & Hfrom).
    split; [exact Hlo|].
    apply (f_equal (fun t => snd (fst t))) in E. simpl in E. rewrite E.
    to_Q. unfold SPEED_INCREMENT.
    destruct Hfrom as [Hold|(_ & Hx & _)].
    + rewrite Forall_forall in Hc. specialize (Hc c Hold). lra.
    + rewrite Hx. lra.
Qed.

Lemma grace_reachable_band g0 st :
  unit_interval g0 -> reachable g0 st ->
  Forall (fun o => -200 < Obstacle.x o /\ Obstacle.x o < 1600)
    (obstaclesRef (fst st)) /\
  Forall (fun c => -100 < Coin.x c /\ Coin.x c <= 1300) (coinsRef (fst st)).
Proof.
  intros Hu Hr.
  apply (grace_reachable_invariant
           (fun s =>
              7 <= gameSpeedRef s /\
              Forall (fun o => -200 < Obstacle.x o /\ Obstacle.x o < 1600)
                (obstaclesRef s) /\
              Forall (fun c => -100 < Coin.x c /\ Coin.x c <= 1300)
                (coinsRef s)) g0); [| | | | |exact Hr].
  - repeat split; [apply Qle_refl|constructor|constructor].
  - intros time s g (Hv & Ho & Hc) Hp Hg. split.
    + destruct (grace_update_speed time s g Hp) as [E _]. rewrite E.
      to_Q. unfold SPEED_INCREMENT. lra.
    + apply grace_update_band.
      * exact Hp.
      * intros n. rewrite Hg. apply Hu.
      * lra.
      * eapply Forall_impl; [|exact Ho]. simpl. tauto.
      * eapply Forall_impl; [|exact Hc]. simpl. tauto.
  - intros s IH. destruct (grace_handleJump_lists s) as (E1 & E2 & _ & E3).
    rewrite E1, E2, E3. exact IH.
  - intros s _. repeat split; [apply Qle_refl|constructor|constructor].
  - intros s IH. exact IH.
Qed.

(** Obstacles more than the minimum distance apart in a band 1800 wide:
    there is room for four. *)
Lemma grace_spaced_count obstacles :
  spaced obstacles ->
  Forall (fun o => -200 < Obstacle.x o /\ Obstacle.x o < 1600) obstacles ->
  (length obstacles <= 4)%nat.
Proof.
  intros Hs Hb.
  destruct obstacles as [|a [|b [|c [|d [|e rest]]]]]; simpl; try lia.
  exfalso.
  apply StronglySorted_inv in Hs. destruct Hs as [Hs Ha].
  apply StronglySorted_inv in Hs. destruct Hs as [Hs Hb'].
  apply StronglySorted_inv in Hs. destruct Hs as [Hs Hc].
  apply StronglySorted_inv in Hs. destruct Hs as [Hs Hd].
  inversion Ha as [|? ? Gab _]. inversion Hb' as [|? ? Gbc _].
  inversion Hc as [|? ? Gcd _]. inversion Hd as [|? ? Gde _].
  inversion Hb as [|? ? [La _] Hb1]. inversion Hb1 as [|? ? _ Hb2].
  inversion Hb2 as [|? ? _ Hb3]. inversion Hb3 as [|? ? _ Hb4].
  inversion Hb4 as [|? ? [_ Ue] _].
  unfold gap in *. lra.
Qed.

(** *** The ids *)

Lemma grace_moveObstacle_id v obstacles :
  map Obstacle.id (map (moveObstacle v) obstacles) = map Obstacle.id obstacles.
Proof. rewrite map_map. reflexivity. Qed.

Lemma grace_moveCoin_id v cs :
  map Coin.id (map (moveCoin v) cs) = map Coin.id cs.
Proof. rewrite map_map. reflexivity. Qed.

Lemma grace_coinShape_id cs :
  map Coin.id cs = map (fun t => fst (fst t)) (map More.coinShape cs).
Proof. rewrite map_map. reflexivity. Qed.

(** One tick keeps the ids in use distinct and below the counter. *)
Lemma grace_update_ids time s g :
  gameState s = playing ->
  NoDup (More.ids s) ->
  Forall (fun k => (k < nextIdRef s)%Z) (More.ids s) ->
  NoDup (More.ids (fst (update time s g))) /\
  Forall (fun k => (k < nextIdRef (fst (update time s g)))%Z)
    (More.ids (fst (update time s g))).
Proof.
  intros Hp Hn Hb.
  destruct (grace_update_lists time s g Hp)
    as (newO & newC & Eo & Ec & En & Ho & Hc).
  unfold More.ids in *. rewrite Forall_forall in Hb.
  set (O := map Obstacle.id (obstaclesRef s)) in *.
  set (C := map Coin.id (coinsRef s)) in *.
  set (n := nextIdRef s) in *.
  rewrite (grace_coinShape_id (coinsRef (fst (update time s g)))), Ec,
    <- grace_coinShape_id, Eo, En.
  set (v := add (gameSpeedRef s) SPEED_INCREMENT).
  set (fo := fun obs => Qgtb (Obstacle.x obs) (-200)).
  set (fc := fun c => Qgtb (Coin.x c) (-100)).
  assert (EA : map Obstacle.id (map (moveObstacle v) (obstaclesRef s ++ newO))
               = O ++ map Obstacle.id newO)
    by (rewrite grace_moveObstacle_id, map_app; reflexivity).
  assert (EB : map Coin.id (map (moveCoin v) (coinsRef s ++ newC))
               = C ++ map Coin.id newC)
    by (rewrite grace_moveCoin_id, map_app; reflexivity).
  assert (HO : forall k, In k (map Obstacle.id newO) ->
                         k = n /\ length newO = 1%nat).
  { destruct Ho as [->|(o & -> & Hid & _)]; simpl; [tauto|].
    intros k [<-|[]]. auto. }
  assert (HC : forall k, In k (map Coin.id newC) ->
                         k = (n + Z.of_nat (length newO))%Z /\
                         length newC = 1%nat).
  { destruct Hc as [->|(c & -> & Hid & _)]; simpl; [tauto|].
    intros k [<-|[]]. auto. }
  assert (NO : NoDup (map Obstacle.id newO)).
  { destruct Ho as [->|(o & -> & _)]; simpl; repeat constructor; simpl;
      tauto. }
  assert (NC : NoDup (map Coin.id newC)).
  { destruct Hc as [->|(c & -> & _)]; simpl; repeat constructor; simpl;
      tauto. }
  assert (BO : forall k, In k O -> (k < n)%Z)
    by (intros k Hk; apply Hb; apply in_or_app; left; exact Hk).
  assert (BC : forall k, In k C -> (k < n)%Z)
    by (intros k Hk; apply Hb; apply in_or_app; right; exact Hk).
  split.
  - apply NoDup_app.
    + apply NoDup_map_filter. rewrite EA. apply NoDup_app.
      * exact (NoDup_app_remove_r _ _ Hn).
      * exact NO.
      * intros k Hk Hk'. apply BO in Hk. apply HO in Hk'. lia.
    + apply NoDup_map_filter. rewrite EB. apply NoDup_app.
      * exact (NoDup_app_remove_l _ _ Hn).
      * exact NC.
      * intros k Hk Hk'. apply BC in Hk. apply HC in Hk'. lia.
    + intros k Hk Hk'.
      apply In_map_filter in Hk. apply In_map_filter in Hk'.
      rewrite EA in Hk. rewrite EB in Hk'.
      apply in_app_or in Hk. apply in_app_or in Hk'.
      destruct Hk as [Hk|Hk]; destruct Hk' as [Hk'|Hk'].
      * exact (NoDup_app_disjoint _ _ _ Hn Hk Hk').
      * apply BO in Hk. apply HC in Hk'. lia.
      * apply HO in Hk. apply BC in Hk'. lia.
      * apply HO in Hk. apply HC in Hk'. lia.
  - apply Forall_forall. intros k Hk. apply in_app_or in Hk.
    destruct Hk as [Hk|Hk]; apply In_map_filter in Hk.
    + rewrite EA in Hk. apply in_app_or in Hk. destruct Hk as [Hk|Hk].
      * apply BO in Hk. lia.
      * apply HO in Hk. lia.
    + rewrite EB in Hk. apply in_app_or in Hk. destruct Hk as [Hk|Hk].
      * apply BC in Hk. lia.
      * apply HC in Hk. lia.
Qed.

(** The ids of the obstacles and coins in the lists are distinct, and all
    below the counter from which the next one is taken. *)
Lemma grace_reachable_ids g0 st :
  reachable g0 st ->
  NoDup (More.ids (fst st)) /\
  Forall (fun k => (k < nextIdRef (fst st))%Z) (More.ids (fst st)).
Proof.
  apply (grace_reachable_invariant
           (fun s => NoDup (More.ids s) /\
                     Forall (fun k => (k < nextIdRef s)%Z) (More.ids s))).
  - split; constructor.
  - intros time s g [Hn Hb] Hp _. apply grace_update_ids; assumption.
  - intros s IH. unfold More.ids in *.
    destruct (grace_handleJump_lists s) as (E1 & E2 & E3 & _).
    rewrite E1, E2, E3. exact IH.
  - intros s _. split; constructor.
  - intros s IH. exact IH.
Qed.

(** No handler takes the id counter back, not even [resetGame]. *)
Lemma grace_step_nextId e st :
  (nextIdRef (fst st) <= nextIdRef (fst (step e st)))%Z.
Proof.
  destruct st as [s g]. destruct e as [time| | |]; simpl.
  - apply grace_update_nextId.
  - destruct (grace_handleJump_lists s) as (_ & _ & E & _). rewrite E. lia.
  - lia.
  - lia.
Qed.

(** *** The coin loop *)

Lemma grace_checkCoins_count ph cs n :
  snd (checkCoins ph cs n)
  = (n + Z.of_nat (length (filter (More.collectable ph) cs)))%Z.
Proof.
  revert n. induction cs as [|c rest IH]; intros n; simpl; [lia|].
  unfold checkCoin, More.collectable at 1.
  destruct (Coin.collected c); [|destruct (overlap _ _)]; simpl;
    match goal with
    | |- context [checkCoins ph rest ?m] =>
        specialize (IH m); destruct (checkCoins ph rest m)
    end; simpl in *; rewrite IH; lia.
Qed.

Lemma grace_checkCoins_flags ph cs n :
  map Coin.collected (fst (checkCoins ph cs n))
  = map (fun c => Coin.collected c || overlap ph (coinHitbox c)) cs.
Proof.
  revert n. induction cs as [|c rest IH]; intros n; simpl; [reflexivity|].
  unfold checkCoin.
  destruct (Coin.collected c) eqn:Ec; [|destruct (overlap _ _)]; simpl;
    match goal with
    | |- context [checkCoins ph rest ?m] =>
        specialize (IH m); destruct (checkCoins ph rest m)
    end; simpl in *; rewrite IH, ?Ec; reflexivity.
Qed.

(** After the loop no coin is left that it would mark. *)
Lemma grace_checkCoins_done ph cs n :
  filter (More.collectable ph) (fst (checkCoins ph cs n)) = [].
Proof.
  revert n. induction cs as [|c rest IH]; intros n; simpl; [reflexivity|].
  unfold checkCoin.
  destruct (Coin.collected c) eqn:Ec; [|destruct (overlap _ _) eqn:Eo];
    simpl;
    match goal with
    | |- context [checkCoins ph rest ?m] =>
        specialize (IH m); destruct (checkCoins ph rest m)
    end; simpl in *; unfold More.collectable at 1; simpl;
    rewrite ?Ec; simpl; try exact IH.
  unfold coinHitbox in *. rewrite Eo. exact IH.
Qed.

(** A list on which the loop finds nothing to mark is returned as it is. *)
Lemma grace_checkCoins_nothing ph cs n :
  filter (More.collectable ph) cs = [] -> checkCoins ph cs n = (cs, n).
Proof.
  revert n. induction cs as [|c rest IH]; intros n; simpl; [reflexivity|].
  unfold checkCoin, More.collectable at 1.
  destruct (Coin.collected c); [|destruct (overlap _ _)]; simpl;
    try discriminate; intros H; rewrite (IH _ H); reflexivity.
Qed.

(** *** The score *)

Lemma grace_collectCoins_score ph s :
  scoreRef (collectCoins ph s) = scoreRef s /\
  score (collectCoins ph s) = score s /\
  tick (collectCoins ph s) = tick s.
Proof. unfold collectCoins. destruct (checkCoins _ _ _). simpl. tauto. Qed.

(** What a tick taken while playing does to the score: nothing when it ends
    in "hit"; otherwise the accumulator grows by 0.15, the displayed score
    is its floor and the re-render counter is bumped. *)
Lemma grace_update_score time s g :
  gameState s = playing ->
  (gameState (fst (update time s g)) = hit /\
   scoreRef (fst (update time s g)) = scoreRef s /\
   score (fst (update time s g)) = score s /\
   tick (fst (update time s g)) = tick s) \/
  (gameState (fst (update time s g)) = playing /\
   scoreRef (fst (update time s g)) = add (scoreRef s) 0.15 /\
   score (fst (update time s g)) = floor (add (scoreRef s) 0.15) /\
   tick (fst (update time s g)) = (tick s + 1)%Z).
Proof.
  intros Hp.
  pose proof (grace_beforeCollision_untouched time s g)
    as (Hg & Hsc & _ & Ht & Hsr & _).
  destruct (existsb
              (hits (playerHitbox
                       (playerRef (fst (beforeCollision time s g)))))
              (obstaclesRef (fst (beforeCollision time s g)))) eqn:E.
  - left. rewrite (grace_update_hit time s g Hp E). simpl. tauto.
  - right. rewrite (grace_update_clear time s g Hp E). simpl.
    set (ph := playerHitbox _).
    destruct (grace_collectCoins_score ph (fst (beforeCollision time s g)))
      as (A & B & C).
    destruct (grace_collectCoins_frame ph (fst (beforeCollision time s g)))
      as (D & _).
    rewrite A, C, Hsr, Ht. repeat split; try reflexivity.
    unfold addScore. simpl. rewrite D, Hg. exact Hp.
Qed.

(** The displayed score is the floor of the accumulator, which is never
    negative. *)
Lemma grace_reachable_score g0 st :
  reachable g0 st ->
  score (fst st) = floor (scoreRef (fst st)) /\ 0 <= scoreRef (fst st).
Proof.
  apply (grace_reachable_invariant
           (fun s => score s = floor (scoreRef s) /\ 0 <= scoreRef s)).
  - split; [reflexivity|apply Qle_refl].
  - intros time s g [IH1 IH2] Hp _.
    destruct (grace_update_score time s g Hp)
      as [(_ & A & B & _)|(_ & A & B & _)]; rewrite A, B.
    + split; assumption.
    + split; [reflexivity|]. to_Q. lra.
  - intros s IH. unfold handleJump. destruct (_ && _); exact IH.
  - intros s _. split; [reflexivity|apply Qle_refl].
  - intros s IH. exact IH.
Qed.

(** The displayed score does not go down on a frame. *)
Lemma grace_update_score_le g0 s g time :
  reachable g0 (s, g) -> (score s <= score (fst (update time s g)))%Z.
Proof.
  intros Hr. destruct (grace_reachable_score g0 (s, g) Hr) as [E _].
  simpl in E.
  destruct (gameState s) eqn:Es;
    try (rewrite grace_update_not_playing by congruence; simpl; lia).
  destruct (grace_update_score time s g Es)
    as [(_ & _ & B & _)|(_ & _ & B & _)]; rewrite B; [lia|].
  rewrite E. unfold floor. apply Qfloor_resp_le. to_Q. lra.
Qed.

(** *** The jump *)

Lemma grace_arc_physics p :
  In p More.graceJumpArc -> In (physics p) More.graceJumpArc.
Proof. apply orbit_closed. vm_compute. reflexivity. Qed.

Lemma grace_arc_grounded p :
  In p More.graceJumpArc -> Player.grounded p = true -> p = More.atRest.
Proof.
  intros Hin Hg.
  assert (H : forallb (fun p => implb (Player.grounded p)
                                  (More.Player_eqb p More.atRest))
                More.graceJumpArc = true) by (vm_compute; reflexivity).
  rewrite forallb_forall in H. specialize (H p Hin). rewrite Hg in H.
  apply Player_eqb_eq. exact H.
Qed.

Lemma grace_arc_height p :
  In p More.graceJumpArc -> 0 <= Player.y p /\ Player.y p <= 225.
Proof.
  intros Hin.
  assert (H : forallb (fun p => Qle_bool 0 (Player.y p) &&
                                Qle_bool (Player.y p) 225)
                More.graceJumpArc = true) by (vm_compute; reflexivity).
  rewrite forallb_forall in H. specialize (H p Hin).
  apply andb_true_iff in H. destruct H as [H1 H2].
  split; apply Qle_bool_iff; assumption.
Qed.

(** The player is at rest or on the arc of a jump. *)
Lemma grace_reachable_arc g0 st :
  reachable g0 st -> In (playerRef (fst st)) More.graceJumpArc.
Proof.
  apply (grace_reachable_invariant
           (fun s => In (playerRef s) More.graceJumpArc)).
  - left. reflexivity.
  - intros time s g IH Hp _. rewrite grace_update_player by exact Hp.
    apply grace_arc_physics. exact IH.
  - intros s IH. unfold handleJump.
    destruct (Player.grounded (playerRef s)) eqn:Eg; simpl; [|exact IH].
    destruct (GameState_eqb _ _); [|exact IH]. simpl.
    rewrite (grace_arc_grounded _ IH Eg). right. left. reflexivity.
  - intros s _. left. reflexivity.
  - intros s IH. exact IH.
Qed.

(** *** Coins are out of reach from the ground *)

Lemma grace_beforeCollision_coin_heights time s g :
  Forall (fun c => Coin.y c = 160 \/ Coin.y c = 70) (coinsRef s) ->
  Forall (fun c => Coin.y c = 160 \/ Coin.y c = 70)
    (coinsRef (fst (beforeCollision time s g))).
Proof.
  intros H. unfold beforeCollision.
  destruct (grace_simulate_lists (stampTime time s) g)
    as (newO & newC & _ & Ec & _ & _ & Hc).
  destruct (grace_stampTime_lists time s) as (_ & Sc & _).
  rewrite Ec, Sc. apply Forall_forall. intros c' Hin.
  apply filter_In in Hin. destruct Hin as [Hin _].
  apply in_map_iff in Hin. destruct Hin as (c & <- & Hin). simpl.
  apply in_app_or in Hin. destruct Hin as [Hin|Hin].
  - rewrite Forall_forall in H. exact (H c Hin).
  - destruct Hc as [->|(c0 & -> & _ & _ & Hy & _)]; [destruct Hin|].
    destruct Hin as [<-|[]]. exact Hy.
Qed.

(** A player whose hitbox ends at or below the lower coin height marks
    none of the coins. *)
Lemma grace_low_player_collects_nothing p cs :
  Player.y p <= 10 ->
  Forall (fun c => Coin.y c = 160 \/ Coin.y c = 70) cs ->
  filter (More.collectable (playerHitbox p)) cs = [].
Proof.
  intros Hy Hc. induction Hc as [|c rest Hh _ IH]; [reflexivity|].
  simpl. rewrite IH. unfold More.collectable.
  destruct (overlap (playerHitbox p) (coinHitbox c)) eqn:E;
    [|rewrite andb_false_r; reflexivity].
  exfalso. apply overlap_true in E. simpl in E.
  destruct E as (_ & _ & E). revert E. to_Q.
  destruct Hh as [->| ->]; lra.
Qed.

Lemma grace_update_coins_low time s g :
  gameState s = playing ->
  Forall (fun c => Coin.y c = 160 \/ Coin.y c = 70) (coinsRef s) ->
  Player.y (physics (playerRef s)) <= 10 ->
  coins (fst (update time s g)) = coins s.
Proof.
  intros Hp Hh Hy.
  pose proof (grace_beforeCollision_untouched time s g)
    as (_ & _ & Hc & _).
  pose proof (grace_beforeCollision_player time s g) as Hpl.
  pose proof (grace_beforeCollision_coin_heights time s g Hh) as Hm.
  destruct (existsb
              (hits (playerHitbox
                       (playerRef (fst (beforeCollision time s g)))))
              (obstaclesRef (fst (beforeCollision time s g)))) eqn:E.
  - rewrite (grace_update_hit time s g Hp E). simpl. exact Hc.
  - rewrite (grace_update_clear time s g Hp E). simpl.
    unfold collectCoins.
    rewrite grace_checkCoins_nothing.
    + simpl. exact Hc.
    + apply grace_low_player_collects_nothing; [|exact Hm].
      rewrite Hpl. exact Hy.
Qed.

(** *** The collision window *)

(** For a player at or above the ground the last of the four comparisons
    holds by itself: an obstacle is hit when it stands in the window
    before the player and reaches up to the player's feet. *)
Lemma grace_hits_window p obs :
  -60 < Player.y p ->
  hits (playerHitbox p) obs = true <->
  (130 - Obstacle.w obs < Obstacle.x obs /\ Obstacle.x obs < 140) /\
  Player.y p < Obstacle.h obs - 10.
Proof.
  intros Hy. unfold hits. rewrite overlap_true. simpl. to_Q.
  split; intros H; repeat split; try lra.
Qed.

(** *** The draws of one tick *)

Lemma grace_spawnObstacle_draws s g :
  (cursor g + 1 <= cursor (snd (spawnObstacle s g)) <= cursor g + 3)%nat.
Proof.
  unfold spawnObstacle, random.
  destruct (Qltb _ _); [|simpl; lia].
  destruct (chooseType _) as [[ty wd] ht].
  destruct (farEnough _); simpl; lia.
Qed.

Lemma grace_spawnCoin_draws s g :
  (cursor g + 1 <= cursor (snd (spawnCoin s g)) <= cursor g + 2)%nat.
Proof. unfold spawnCoin, random. destruct (Qltb _ _); simpl; lia. Qed.

(** A tick taken while playing calls [Math.random] at least twice, once
    for each spawn decision, and at most five times. *)
Lemma grace_update_draws time s g :
  gameState s = playing ->
  (cursor g + 2 <= cursor (snd (update time s g)) <= cursor g + 5)%nat.
Proof.
  intros Hp. unfold update, beforeCollision, simulate. rewrite Hp. simpl.
  set (s3 := speedUp _).
  pose proof (grace_spawnObstacle_draws s3 g) as H4.
  destruct (spawnObstacle s3 g) as [s4 g4]. simpl in H4.
  pose proof (grace_spawnCoin_draws s4 g4) as H5.
  destruct (spawnCoin s4 g4) as [s5 g5]. simpl in H5.
  unfold collisionDetection.
  destruct (snd (checkObstacles _ _)); simpl; lia.
Qed.

End GraceMore.

(** * Further facts about the revision of game.tsx *)

Module NoGraceMore.
Import NoGrace NoGraceFacts.

(** *** Outside "playing" *)

Lemma nograce_handleJump_not_playing s :
  gameState s <> playing -> handleJump s = s.
Proof.
  intros Hn. unfold handleJump.
  destruct (gameState s); try congruence;
    rewrite andb_false_r; reflexivity.
Qed.

Lemma nograce_run_frozen es st :
  gameState (fst st) <> playing -> Forall More.nograceInput es ->
  run es st = st.
Proof.
  intros Hn Hes. revert st Hn.
  induction Hes as [|e rest He Hrest IH]; intros [s g] Hn; [reflexivity|].
  simpl in Hn. unfold run. simpl. fold (run rest).
  destruct e as [time| |]; simpl in He; try contradiction; simpl.
  - rewrite nograce_update_not_playing by exact Hn.
    apply IH. exact Hn.
  - rewrite nograce_handleJump_not_playing by exact Hn.
    apply IH. exact Hn.
Qed.

(** *** What one tick does to the lists and to the speed *)

Lemma nograce_stampTime_lists time s :
  obstaclesRef (fst (stampTime time s)) = obstaclesRef s /\
  coinsRef (fst (stampTime time s)) = coinsRef s /\
  gameSpeedRef (fst (stampTime time s)) = gameSpeedRef s /\
  bgOffsetRef (fst (stampTime time s)) = bgOffsetRef s.
Proof. unfold stampTime. destruct (falsy _); repeat split; reflexivity. Qed.

(** The state after the spawning, moving and pruning of one tick: the game
    speed has grown by the increment, the background has moved by the new
    speed, and the lists hold the old entities and at most one new one of
    each kind, all moved by the new speed, those that left the screen
    dropped. *)
Lemma nograce_simulate_lists s g :
  exists (newO : list Obstacle.t) (newC : list Coin.t),
    obstaclesRef (fst (simulate s g))
    = filter (fun obs => Qgtb (Obstacle.x obs) (-100))
        (map (moveObstacle (add (gameSpeedRef s) SPEED_INCREMENT))
           (obstaclesRef s ++ newO)) /\
    coinsRef (fst (simulate s g))
    = filter (fun c => Qgtb (Coin.x c) (-100))
        (map (moveCoin (add (gameSpeedRef s) SPEED_INCREMENT))
           (coinsRef s ++ newC)) /\
    gameSpeedRef (fst (simulate s g)) = add (gameSpeedRef s) SPEED_INCREMENT /\
    bgOffsetRef (fst (simulate s g))
    = add (bgOffsetRef s) (add (gameSpeedRef s) SPEED_INCREMENT) /\
    (newO = [] \/
     exists obs,
       newO = [obs] /\ Obstacle.x obs = 1000 /\
       Obstacle.w obs = 50 /\ Obstacle.h obs = 50) /\
    (newC = [] \/
     exists c,
       newC = [c] /\ Coin.x c = 1000 /\
       (Coin.y c = -100 \/ Coin.y c = -50) /\ Coin.collected c = false).
Proof.
  assert (Hy : forall ry : number,
             (if Qgtb ry 0.5 then -100 else -50) = -100 \/
             (if Qgtb ry 0.5 then -100 else -50) = -50)
    by (intros ry; destruct (Qgtb ry 0.5); tauto).
  unfold simulate, spawnObstacle, spawnCoin, random, advance, speedUp.
  simpl.
  destruct (Qltb (supply g (cursor g)) 0.015); simpl.
  - destruct (Qltb (supply g (S (S (cursor g)))) 0.02); simpl.
    + eexists [_], [_]. split; [reflexivity|]. split; [reflexivity|].
      split; [reflexivity|]. split; [reflexivity|].
      split; right; eexists; split; try reflexivity; simpl; auto.
    + eexists [_], []. rewrite (app_nil_r (coinsRef s)).
      split; [reflexivity|]. split; [reflexivity|].
      split; [reflexivity|]. split; [reflexivity|].
      split; [right; eexists; split; try reflexivity; simpl; auto|].
      left; reflexivity.
  - destruct (Qltb (supply g (S (cursor g))) 0.02); simpl.
    + eexists [], [_]. rewrite (app_nil_r (obstaclesRef s)).
      split; [reflexivity|]. split; [reflexivity|].
      split; [reflexivity|]. split; [reflexivity|].
      split; [left; reflexivity|].
      right; eexists; split; try reflexivity; simpl; auto.
    + exists [], []. rewrite (app_nil_r (obstaclesRef s)),
        (app_nil_r (coinsRef s)).
      repeat split; auto.
Qed.

Lemma nograce_checkCoins_shape ph cs n :
  map More.nograceCoinShape (fst (checkCoins ph cs n))
  = map More.nograceCoinShape cs.
Proof.
  revert n. induction cs as [|c rest IH]; intros n; simpl; [reflexivity|].
  unfold checkCoin.
  destruct (Coin.collected c); [|destruct (overlap _ _)]; simpl;
    match goal with
    | |- context [checkCoins ph rest ?m] =>
        specialize (IH m); destruct (checkCoins ph rest m)
    end; simpl in *; rewrite IH; reflexivity.
Qed.

Lemma nograce_collisionDetection_lists s g :
  obstaclesRef (fst (collisionDetection s g)) = obstaclesRef s /\
  map More.nograceCoinShape (coinsRef (fst (collisionDetection s g)))
  = map More.nograceCoinShape (coinsRef s) /\
  gameSpeedRef (fst (collisionDetection s g)) = gameSpeedRef s /\
  bgOffsetRef (fst (collisionDetection s g)) = bgOffsetRef s.
Proof.
  destruct (nograce_collisionDetection_entities s g) as [Eo Ec].
  rewrite Eo, Ec, nograce_checkCoins_shape.
  split; [reflexivity|]. split; [reflexivity|].
  pose proof (nograce_checkObstacles_frame
                (playerHitbox (playerRef s)) (obstaclesRef s) s) as H.
  cbv zeta in H. destruct H as (_ & _ & _ & _ & _ & Hv & _ & _ & Hb).
  unfold collisionDetection. cbv zeta. unfold collectCoins.
  set (m := snd (checkObstacles _ _ s)) in *.
  destruct (checkCoins _ (coinsRef m) _). simpl.
  split; assumption.
Qed.

(** The lists and the speed after a tick taken while playing. *)
Lemma nograce_update_lists time s g :
  gameState s = playing ->
  exists (newO : list Obstacle.t) (newC : list Coin.t),
    obstaclesRef (fst (update time s g))
    = filter (fun obs => Qgtb (Obstacle.x obs) (-100))
        (map (moveObstacle (add (gameSpeedRef s) SPEED_INCREMENT))
           (obstaclesRef s ++ newO)) /\
    map More.nograceCoinShape (coinsRef (fst (update time s g)))
    = map More.nograceCoinShape
        (filter (fun c => Qgtb (Coin.x c) (-100))
           (map (moveCoin (add (gameSpeedRef s) SPEED_INCREMENT))
              (coinsRef s ++ newC))) /\
    gameSpeedRef (fst (update time s g))
    = add (gameSpeedRef s) SPEED_INCREMENT /\
    bgOffsetRef (fst (update time s g))
    = add (bgOffsetRef s) (add (gameSpeedRef s) SPEED_INCREMENT) /\
    (newO = [] \/
     exists obs,
       newO = [obs] /\ Obstacle.x obs = 1000 /\
       Obstacle.w obs = 50 /\ Obstacle.h obs = 50) /\
    (newC = [] \/
     exists c,
       newC = [c] /\ Coin.x c = 1000 /\
       (Coin.y c = -100 \/ Coin.y c = -50) /\ Coin.collected c = false).
Proof.
  intros Hp. unfold update, beforeCollision. rewrite Hp.
  change (negb (GameState_eqb playing playing)) with false. cbv iota.
  destruct (nograce_stampTime_lists time s) as (So & Sc & Sv & Sb).
  destruct (stampTime time s) as [s1 dt]. simpl in So, Sc, Sv, Sb.
  destruct (nograce_simulate_lists s1 g)
    as (newO & newC & Eo & Ec & Ev & Eb & Ho & Hc).
  rewrite So, Sc, Sv, Sb in *.
  destruct (simulate s1 g) as [m g']. simpl in Eo, Ec, Ev, Eb.
  destruct (nograce_collisionDetection_lists m g') as (Co & Cc & Cv & Cb).
  exists newO, newC. rewrite Co, Cc, Cv, Cb, Eo, Ec, Ev, Eb. tauto.
Qed.

(** *** Invariants of the reachable states *)

Lemma nograce_reachable_invariant (P : Game -> Prop) g0 :
  P initial ->
  (forall time s g,
     P s -> gameState s = playing -> P (fst (update time s g))) ->
  (forall s, P s -> P (handleJump s)) ->
  (forall s, P s -> P (resetGame s)) ->
  forall st, reachable g0 st -> P (fst st).
Proof.
  intros H0 Hu Hj Hr st Hreach.
  induction Hreach as [|e [s g] Hreach IH En]; [exact H0|].
  simpl in IH. destruct e as [time| |]; simpl.
  - destruct (gameState s) eqn:Es.
    + apply Hu; assumption.
    + rewrite nograce_update_not_playing by congruence. exact IH.
  - apply Hj; exact IH.
  - apply Hr; exact IH.
Qed.

Lemma nograce_handleJump_lists s :
  obstaclesRef (handleJump s) = obstaclesRef s /\
  coinsRef (handleJump s) = coinsRef s /\
  gameSpeedRef (handleJump s) = gameSpeedRef s.
Proof. unfold handleJump. destruct (_ && _); repeat split; reflexivity. Qed.

(** No step but the reset lowers the game speed. *)
Lemma nograce_step_speed e s g :
  e <> TryAgain -> gameSpeedRef s <= gameSpeedRef (fst (step e (s, g))).
Proof.
  intros He. destruct e as [time| |]; simpl; try congruence.
  - destruct (gameState s) eqn:Es.
    + destruct (nograce_update_lists time s g Es)
        as (newO & newC & _ & _ & A & _). rewrite A.
      to_Q. unfold SPEED_INCREMENT. lra.
    + rewrite nograce_update_not_playing by congruence. apply Qle_refl.
  - unfold handleJump. destruct (_ && _); apply Qle_refl.
Qed.

(** The entities of the lists: every obstacle is 50 by 50, every coin
    floats at one of the two heights of the spawning block, and all lie
    between the pruning line and the spawning position; the game speed is
    at least the initial one. *)
Lemma nograce_reachable_entities g0 st :
  reachable g0 st ->
  5 <= gameSpeedRef (fst st) /\
  Forall (fun o => Obstacle.w o = 50 /\ Obstacle.h o = 50 /\
                   -100 < Obstacle.x o /\ Obstacle.x o < 1000)
    (obstaclesRef (fst st)) /\
  Forall (fun c => (Coin.y c = -100 \/ Coin.y c = -50) /\
                   -100 < Coin.x c /\ Coin.x c < 1000)
    (coinsRef (fst st)).
Proof.
  apply (nograce_reachable_invariant
           (fun s =>
              5 <= gameSpeedRef s /\
              Forall (fun o => Obstacle.w o = 50 /\ Obstacle.h o = 50 /\
                               -100 < Obstacle.x o /\ Obstacle.x o < 1000)
                (obstaclesRef s) /\
              Forall (fun c => (Coin.y c = -100 \/ Coin.y c = -50) /\
                               -100 < Coin.x c /\ Coin.x c < 1000)
                (coinsRef s))).
  - repeat split; [apply Qle_refl|constructor|constructor].
  - intros time s g (Hv & Ho & Hc) Hp.
    destruct (nograce_update_lists time s g Hp)
      as (newO & newC & Eo & Ec & Ev & _ & Hno & Hnc).
    rewrite Forall_forall in Ho, Hc.
    split; [rewrite Ev; to_Q; unfold SPEED_INCREMENT; lra|].
    split; apply Forall_forall.
    + intros o' Hin. rewrite Eo in Hin. apply filter_In in Hin.
      destruct Hin as [Hin Hk]. apply Qgtb_gt in Hk.
      apply in_map_iff in Hin. destruct Hin as (o & <- & Hin).
      simpl in *. revert Hk. to_Q. unfold SPEED_INCREMENT. intros Hk.
      apply in_app_or in Hin. destruct Hin as [Hin|Hin].
      * destruct (Ho o Hin) as (Hw & Hh & _ & Hx).
        repeat split; auto. lra.
      * destruct Hno as [->|(o0 & -> & Hx & Hw & Hh)]; [destruct Hin|].
        destruct Hin as [<-|[]]. repeat split; auto. rewrite Hx. lra.
    + intros c' Hin. apply (in_map More.nograceCoinShape) in Hin.
      rewrite Ec in Hin. apply in_map_iff in Hin.
      destruct Hin as (m & E & Hin). apply filter_In in Hin.
      destruct Hin as [Hin Hk]. apply Qgtb_gt in Hk.
      injection E as Ex Ey. rewrite <- Ex, <- Ey.
      apply in_map_iff in Hin. destruct Hin as (c & <- & Hin).
      simpl in *. revert Hk. to_Q. unfold SPEED_INCREMENT. intros Hk.
      apply in_app_or in Hin. destruct Hin as [Hin|Hin].
      * destruct (Hc c Hin) as (Hy & _ & Hx). repeat split; auto. lra.
      * destruct Hnc as [->|(c0 & -> & Hx & Hy & _)]; [destruct Hin|].
        destruct Hin as [<-|[]]. repeat split; auto. rewrite Hx. lra.
  - intros s IH. destruct (nograce_handleJump_lists s) as (E1 & E2 & E3).
    rewrite E1, E2, E3. exact IH.
  - intros s _. repeat split; [apply Qle_refl|constructor|constructor].
Qed.

(** *** The jump *)

Lemma nograce_arc_physics p :
  In p More.nograceJumpArc -> In (physics p) More.nograceJumpArc.
Proof. apply orbit_closed. vm_compute. reflexivity. Qed.

Lemma nograce_arc_grounded p :
  In p More.nograceJumpArc -> Player.grounded p = true -> p = More.atRest.
Proof.
  intros Hin Hg.
  assert (H : forallb (fun p => implb (Player.grounded p)
                                  (More.Player_eqb p More.atRest))
                More.nograceJumpArc = true) by (vm_compute; reflexivity).
  rewrite forallb_forall in H. specialize (H p Hin). rewrite Hg in H.
  apply Player_eqb_eq. exact H.
Qed.

Lemma nograce_arc_height p :
  In p More.nograceJumpArc -> -115 <= Player.y p /\ Player.y p <= 0.
Proof.
  intros Hin.
  assert (H : forallb (fun p => Qle_bool (-115) (Player.y p) &&
                                Qle_bool (Player.y p) 0)
                More.nograceJumpArc = true) by (vm_compute; reflexivity).
  rewrite forallb_forall in H. specialize (H p Hin).
  apply andb_true_iff in H. destruct H as [H1 H2].
  split; apply Qle_bool_iff; assumption.
Qed.

(** The player is at rest or on the arc of a jump. *)
Lemma nograce_reachable_arc g0 st :
  reachable g0 st -> In (playerRef (fst st)) More.nograceJumpArc.
Proof.
  apply (nograce_reachable_invariant
           (fun s => In (playerRef s) More.nograceJumpArc)).
  - left. reflexivity.
  - intros time s g IH Hp. rewrite nograce_update_player by exact Hp.
    apply nograce_arc_physics. exact IH.
  - intros s IH. unfold handleJump.
    destruct (Player.grounded (playerRef s)) eqn:Eg; simpl; [|exact IH].
    destruct (GameState_eqb _ _); [|exact IH]. simpl.
    rewrite (nograce_arc_grounded _ IH Eg). right. left. reflexivity.
  - intros s _. left. reflexivity.
Qed.

(** *** The run state and the score *)

(** A tick taken while playing: the run state afterwards is "gameover" or
    "playing" as some obstacle overlaps the player or none does; the score
    accumulator grows by 0.1 and the displayed score is its floor either
    way. *)
Lemma nograce_update_score time s g :
  gameState s = playing ->
  let m := fst (beforeCollision time s g) in
  gameState (fst (update time s g))
  = (if existsb (hits (playerHitbox (playerRef m))) (obstaclesRef m)
     then gameover else playing) /\
  scoreRef (fst (update time s g)) = add (scoreRef s) 0.1 /\
  score (fst (update time s g)) = floor (add (scoreRef s) 0.1).
Proof.
  intros Hp m.
  pose proof (nograce_beforeCollision_untouched time s g)
    as (Hg & _ & _ & Hsr).
  rewrite (nograce_update_playing time s g Hp). fold m. cbn [fst].
  set (ph := playerHitbox (playerRef m)).
  set (m' := if existsb (hits ph) (obstaclesRef m)
             then setGameState gameover m else m).
  destruct (nograce_collectCoins_frame ph m') as (A & B & _).
  assert (Hsr' : scoreRef m' = scoreRef s)
    by (unfold m'; destruct (existsb _ _); exact Hsr).
  assert (Hg' : gameState m'
                = if existsb (hits ph) (obstaclesRef m)
                  then gameover else playing).
  { unfold m'. destruct (existsb _ _); [reflexivity|].
    fold m in Hg. rewrite Hg. exact Hp. }
  unfold addScore. simpl. rewrite A, B, Hsr', Hg'. auto.
Qed.

(** The displayed score is the floor of the accumulator, which is never
    negative. *)
Lemma nograce_reachable_score g0 st :
  reachable g0 st ->
  score (fst st) = floor (scoreRef (fst st)) /\ 0 <= scoreRef (fst st).
Proof.
  apply (nograce_reachable_invariant
           (fun s => score s = floor (scoreRef s) /\ 0 <= scoreRef s)).
  - split; [reflexivity|apply Qle_refl].
  - intros time s g [IH1 IH2] Hp.
    destruct (nograce_update_score time s g Hp) as (_ & A & B).
    rewrite A, B. split; [reflexivity|]. to_Q. lra.
  - intros s IH. unfold handleJump. destruct (_ && _); exact IH.
  - intros s _. split; [reflexivity|apply Qle_refl].
Qed.

(** The moves of the run state: it stays, or goes from "playing" to
    "gameover" on a frame, or back to "playing" through the reset. *)
Lemma nograce_step_state e s g :
  enabled e s = true ->
  gameState (fst (step e (s, g))) = gameState s \/
  (gameState s = playing /\ gameState (fst (step e (s, g))) = gameover /\
   exists time, e = Frame time) \/
  (gameState s = gameover /\ gameState (fst (step e (s, g))) = playing /\
   e = TryAgain).
Proof.
  intros En. destruct e as [time| |]; simpl in *.
  - destruct (gameState s) eqn:Es.
    + destruct (nograce_update_score time s g Es) as (A & _).
      rewrite A. destruct (existsb _ _); [|left; reflexivity].
      right. left. eauto.
    + rewrite nograce_update_not_playing by congruence. simpl. auto.
  - left. unfold handleJump. destruct (_ && _); reflexivity.
  - right. right. destruct (gameState s); [discriminate|]. auto.
Qed.

(** *** The collision windows *)

Lemma nograce_hits_window p obs :
  Player.y p < 30 -> Obstacle.w obs = 50 -> Obstacle.h obs = 50 ->
  hits (playerHitbox p) obs = true <->
  (0 < Obstacle.x obs /\ Obstacle.x obs < 90) /\ -80 < Player.y p.
Proof.
  intros Hy Hw Hh. unfold hits. rewrite overlap_true. simpl.
  rewrite Hw, Hh. to_Q.
  split; intros H; repeat split; try lra.
Qed.

Lemma nograce_coin_window p c :
  Player.y p < 30 -> Coin.y c = -100 \/ Coin.y c = -50 ->
  overlap (playerHitbox p) (coinHitbox c) = true <->
  (20 < Coin.x c /\ Coin.x c < 90) /\ -110 - Coin.y c < Player.y p.
Proof.
  intros Hy Hc. rewrite overlap_true. simpl. to_Q.
  destruct Hc as [-> | ->]; split; intros H; repeat split; try lra.
Qed.

(** *** The coin loop *)

Lemma nograce_checkCoins_count ph cs n :
  snd (checkCoins ph cs n)
  = (n + Z.of_nat (length (filter (More.nograceCollectable ph) cs)))%Z.
Proof.
  revert n. induction cs as [|c rest IH]; intros n; simpl; [lia|].
  unfold checkCoin, More.nograceCollectable at 1.
  destruct (Coin.collected c); [|destruct (overlap _ _)]; simpl;
    match goal with
    | |- context [checkCoins ph rest ?m] =>
        specialize (IH m); destruct (checkCoins ph rest m)
    end; simpl in *; rewrite IH; lia.
Qed.

(** *** The draws of one tick *)

Lemma nograce_update_draws time s g :
  gameState s = playing ->
  supply (snd (update time s g)) = supply g /\
  (cursor g + 2 <= cursor (snd (update time s g)) <= cursor g + 4)%nat.
Proof.
  intros Hp. rewrite (nograce_update_playing time s g Hp). cbn [snd].
  unfold beforeCollision. destruct (stampTime time s) as [s1 dt].
  unfold simulate, spawnObstacle, spawnCoin, random.
  destruct (Qltb (supply g (cursor g)) 0.015); simpl.
  - destruct (Qltb (supply g (S (S (cursor g)))) 0.02); simpl;
      split; try reflexivity; lia.
  - destruct (Qltb (supply g (S (cursor g))) 0.02); simpl;
      split; try reflexivity; lia.
Qed.

Lemma nograce_checkCoins_flags ph cs n :
  map Coin.collected (fst (checkCoins ph cs n))
  = map (fun c => Coin.collected c || overlap ph (coinHitbox c)) cs.
Proof.
  revert n. induction cs as [|c rest IH]; intros n; simpl; [reflexivity|].
  unfold checkCoin.
  destruct (Coin.collected c) eqn:Ec; [|destruct (overlap _ _)]; simpl;
    match goal with
    | |- context [checkCoins ph rest ?m] =>
        specialize (IH m); destruct (checkCoins ph rest m)
    end; simpl in *; rewrite IH, ?Ec; reflexivity.
Qed.

Lemma nograce_checkCoins_done ph cs n :
  filter (More.nograceCollectable ph) (fst (checkCoins ph cs n)) = [].
Proof.
  revert n. induction cs as [|c rest IH]; intros n; simpl; [reflexivity|].
  unfold checkCoin.
  destruct (Coin.collected c) eqn:Ec; [|destruct (overlap _ _) eqn:Eo];
    simpl;
    match goal with
    | |- context [checkCoins ph rest ?m] =>
        specialize (IH m); destruct (checkCoins ph rest m)
    end; simpl in *; unfold More.nograceCollectable at 1; simpl;
    rewrite ?Ec; simpl; try exact IH.
  unfold coinHitbox in *. rewrite Eo. exact IH.
Qed.

Lemma nograce_checkCoins_nothing ph cs n :
  filter (More.nograceCollectable ph) cs = [] -> checkCoins ph cs n = (cs, n).
Proof.
  revert n. induction cs as [|c rest IH]; intros n; simpl; [reflexivity|].
  unfold checkCoin, More.nograceCollectable at 1.
  destruct (Coin.collected c); [|destruct (overlap _ _)]; simpl;
    try discriminate; intros H; rewrite (IH _ H); reflexivity.
Qed.

(** Where the entities of the lists after a tick come from. *)
Lemma nograce_update_origin time s g :
  gameState s = playing ->
  (forall obs', In obs' (obstaclesRef (fst (update time s g))) ->
     exists obs,
       obs' = moveObstacle (add (gameSpeedRef s) SPEED_INCREMENT) obs /\
       (In obs (obstaclesRef s) \/ Obstacle.x obs = 1000)) /\
  (forall c', In c' (coinsRef (fst (update time s g))) ->
     exists c,
       More.nograceCoinShape c'
       = More.nograceCoinShape
           (moveCoin (add (gameSpeedRef s) SPEED_INCREMENT) c) /\
       (In c (coinsRef s) \/ Coin.x c = 1000)).
Proof.
  intros Hp.
  destruct (nograce_update_lists time s g Hp)
    as (newO & newC & Eo & Ec & _ & _ & Hno & Hnc).
  split.
  - intros o' Hin. rewrite Eo in Hin. apply filter_In in Hin.
    destruct Hin as [Hin _]. apply in_map_iff in Hin.
    destruct Hin as (o & E & Hin). exists o. split; [symmetry; exact E|].
    apply in_app_or in Hin. destruct Hin as [Hin|Hin]; [left; exact Hin|].
    right. destruct Hno as [->|(o0 & -> & Hx & _)]; [destruct Hin|].
    destruct Hin as [<-|[]]. exact Hx.
  - intros c' Hin. apply (in_map More.nograceCoinShape) in Hin.
    rewrite Ec in Hin. apply in_map_iff in Hin.
    destruct Hin as (m & E & Hin). apply filter_In in Hin.
    destruct Hin as [Hin _]. apply in_map_iff in Hin.
    destruct Hin as (c & Em & Hin). subst m.
    exists c. split; [symmetry; exact E|].
    apply in_app_or in Hin. destruct Hin as [Hin|Hin]; [left; exact Hin|].
    right. destruct Hnc as [->|(c0 & -> & Hx & _)]; [destruct Hin|].
    destruct Hin as [<-|[]]. exact Hx.
Qed.

End NoGraceMore.

(** * Further properties of the code *)

(** X1.  Outside "playing" the game stands still.  In the "hit" revision,
    in the states "hit" and "gameover", and in the game.tsx revision in
    "gameover", animation frames and key presses, in any number and order,
    leave every cell of the state as it is and draw no random number: the
    guard at the head of [update] returns at once and [handleJump] tests
    the run state. *)
Theorem X1_frozen_outside_playing :
  (forall (es : list Grace.Event) (st : Grace.Game * Rng),
      Grace.gameState (fst st) <> Grace.playing ->
      Forall More.graceInput es -> Grace.run es st = st) /\
  (forall (es : list NoGrace.Event) (st : NoGrace.Game * Rng),
      NoGrace.gameState (fst st) <> NoGrace.playing ->
      Forall More.nograceInput es -> NoGrace.run es st = st).
Proof.
  split; intros es st Hn Hes.
  - apply GraceMore.grace_run_frozen; assumption.
  - apply NoGraceMore.nograce_run_frozen; assumption.
Qed.

Lemma X1_frozen_outside_playing_witness :
  (Grace.gameState (fst More.graceStruck) = Grace.hit /\
   Grace.run (Grace.frames 166 3 ++ [Grace.KeyJump]) More.graceStruck
   = More.graceStruck) /\
  (NoGrace.gameState (fst More.nograceOver) = NoGrace.gameover /\
   NoGrace.run (NoGrace.frames 180 3 ++ [NoGrace.KeyJump]) More.nograceOver
   = More.nograceOver).
Proof.
  split; (split; [vm_compute; reflexivity|]).
  - apply (proj1 X1_frozen_outside_playing).
    + vm_compute. discriminate.
    + repeat constructor.
  - apply (proj2 X1_frozen_outside_playing).
    + vm_compute. discriminate.
    + repeat constructor.
Defined.

(** X2.  The speed ramp.  A tick taken while playing adds the speed
    increment to the game speed (once, whatever else happens on the tick)
    and moves the background offset by the new speed. *)
Theorem X2_speed_ramp :
  (forall (time : number) (s : Grace.Game) (g : Rng),
      Grace.gameState s = Grace.playing ->
      Grace.gameSpeedRef (fst (Grace.update time s g))
      == (Grace.gameSpeedRef s + Grace.SPEED_INCREMENT)%Q /\
      Grace.bgOffsetRef (fst (Grace.update time s g))
      == (Grace.bgOffsetRef s
          + Grace.gameSpeedRef (fst (Grace.update time s g)))%Q) /\
  (forall (time : number) (s : NoGrace.Game) (g : Rng),
      NoGrace.gameState s = NoGrace.playing ->
      NoGrace.gameSpeedRef (fst (NoGrace.update time s g))
      == (NoGrace.gameSpeedRef s + NoGrace.SPEED_INCREMENT)%Q /\
      NoGrace.bgOffsetRef (fst (NoGrace.update time s g))
      == (NoGrace.bgOffsetRef s
          + NoGrace.gameSpeedRef (fst (NoGrace.update time s g)))%Q).
Proof.
  split; intros time s g Hp.
  - destruct (GraceMore.grace_update_speed time s g Hp) as [A B].
    rewrite A, B. to_Q. split; reflexivity.
  - destruct (NoGraceMore.nograce_update_lists time s g Hp)
      as (newO & newC & _ & _ & A & B & _).
    rewrite A, B. to_Q. split; reflexivity.
Qed.

Lemma X2_speed_ramp_witness :
  (Grace.gameSpeedRef
     (fst (Grace.update 2640 (fst Sample.graceDoomed)
             (snd Sample.graceDoomed)))
   == (Grace.gameSpeedRef (fst Sample.graceDoomed) + 0.0005)%Q /\
   Grace.bgOffsetRef
     (fst (Grace.update 2640 (fst Sample.graceDoomed)
             (snd Sample.graceDoomed)))
   == (Grace.bgOffsetRef (fst Sample.graceDoomed)
       + Grace.gameSpeedRef
           (fst (Grace.update 2640 (fst Sample.graceDoomed)
                   (snd Sample.graceDoomed))))%Q) /\
  (NoGrace.gameSpeedRef
     (fst (NoGrace.update 2864 (fst Sample.nograceDoomed)
             (snd Sample.nograceDoomed)))
   == (NoGrace.gameSpeedRef (fst Sample.nograceDoomed) + 0.001)%Q /\
   NoGrace.bgOffsetRef
     (fst (NoGrace.update 2864 (fst Sample.nograceDoomed)
             (snd Sample.nograceDoomed)))
   == (NoGrace.bgOffsetRef (fst Sample.nograceDoomed)
       + NoGrace.gameSpeedRef
           (fst (NoGrace.update 2864 (fst Sample.nograceDoomed)
                   (snd Sample.nograceDoomed))))%Q).
Proof.
  split.
  - apply (proj1 X2_speed_ramp 2640 (fst Sample.graceDoomed)
             (snd Sample.graceDoomed)).
    vm_compute. reflexivity.
  - apply (proj2 X2_speed_ramp 2864 (fst Sample.nograceDoomed)
             (snd Sample.nograceDoomed)).
    vm_compute. reflexivity.
Defined.

(** X3.  The game speed is never below the initial one (7 in the "hit"
    revision, 5 in the game.tsx revision) in a state the page reaches, and
    no handler but [resetGame] lowers it. *)
Theorem X3_speed_never_below_initial :
  (forall (g0 : Rng) (st : Grace.Game * Rng),
      Grace.reachable g0 st -> 7 <= Grace.gameSpeedRef (fst st)) /\
  (forall (e : Grace.Event) (st : Grace.Game * Rng),
      e <> Grace.TryAgain ->
      Grace.gameSpeedRef (fst st)
      <= Grace.gameSpeedRef (fst (Grace.step e st))) /\
  (forall (g0 : Rng) (st : NoGrace.Game * Rng),
      NoGrace.reachable g0 st -> 5 <= NoGrace.gameSpeedRef (fst st)) /\
  (forall (e : NoGrace.Event) (st : NoGrace.Game * Rng),
      e <> NoGrace.TryAgain ->
      NoGrace.gameSpeedRef (fst st)
      <= NoGrace.gameSpeedRef (fst (NoGrace.step e st))).
Proof.
  split; [|split; [|split]].
  - apply GraceMore.grace_reachable_speed.
  - intros e [s g] He. apply GraceMore.grace_step_speed. exact He.
  - intros g0 st Hr.
    apply (NoGraceMore.nograce_reachable_entities g0 st Hr).
  - intros e [s g] He. apply NoGraceMore.nograce_step_speed. exact He.
Qed.

Lemma X3_speed_never_below_initial_witness :
  (7 <= Grace.gameSpeedRef (fst Sample.graceDoomed) /\
   Grace.gameSpeedRef (fst Sample.graceDoomed)
   <= Grace.gameSpeedRef
        (fst (Grace.step (Grace.Frame 2640) Sample.graceDoomed))) /\
  (5 <= NoGrace.gameSpeedRef (fst Sample.nograceDoomed) /\
   NoGrace.gameSpeedRef (fst Sample.nograceDoomed)
   <= NoGrace.gameSpeedRef
        (fst (NoGrace.step (NoGrace.Frame 2864) Sample.nograceDoomed))).
Proof.
  destruct X3_speed_never_below_initial as (A & B & C & D).
  split; split.
  - exact (A _ _ graceDoomed_reachable).
  - apply B. discriminate.
  - exact (C _ _ nograceDoomed_reachable).
  - apply D. discriminate.
Defined.

(** X4.  The leftward scroll.  In a state the page reaches, after a tick
    taken while playing every obstacle and every coin of the lists is an
    entity of the lists before the tick, or the one spawned on this tick,
    moved to the left by the new game speed and otherwise unchanged (a coin
    up to its [collected] flag): positions strictly decrease from tick to
    tick.  In the "hit" revision the spawned entities are those with an id
    from the counter on; in the game.tsx revision those placed at 1000. *)
Theorem X4_entities_scroll_left :
  (forall (g0 : Rng) (time : number) (st : Grace.Game * Rng),
      Grace.reachable g0 st -> Grace.gameState (fst st) = Grace.playing ->
      let s := fst st in
      let s' := fst (Grace.update time (fst st) (snd st)) in
      (forall obs', In obs' (Grace.obstaclesRef s') ->
         exists obs,
           obs' = Grace.moveObstacle (Grace.gameSpeedRef s') obs /\
           Grace.Obstacle.x obs' < Grace.Obstacle.x obs /\
           (In obs (Grace.obstaclesRef s) \/
            Grace.Obstacle.id obs = Grace.nextIdRef s)) /\
      (forall c', In c' (Grace.coinsRef s') ->
         exists c,
           More.coinShape c'
           = More.coinShape (Grace.moveCoin (Grace.gameSpeedRef s') c) /\
           Grace.Coin.x c' < Grace.Coin.x c /\
           (In c (Grace.coinsRef s) \/
            (Grace.nextIdRef s <= Grace.Coin.id c)%Z))) /\
  (forall (g0 : Rng) (time : number) (st : NoGrace.Game * Rng),
      NoGrace.reachable g0 st ->
      NoGrace.gameState (fst st) = NoGrace.playing ->
      let s := fst st in
      let s' := fst (NoGrace.update time (fst st) (snd st)) in
      (forall obs', In obs' (NoGrace.obstaclesRef s') ->
         exists obs,
           obs' = NoGrace.moveObstacle (NoGrace.gameSpeedRef s') obs /\
           NoGrace.Obstacle.x obs' < NoGrace.Obstacle.x obs /\
           (In obs (NoGrace.obstaclesRef s) \/
            NoGrace.Obstacle.x obs = 1000)) /\
      (forall c', In c' (NoGrace.coinsRef s') ->
         exists c,
           More.nograceCoinShape c'
           = More.nograceCoinShape
               (NoGrace.moveCoin (NoGrace.gameSpeedRef s') c) /\
           NoGrace.Coin.x c' < NoGrace.Coin.x c /\
           (In c (NoGrace.coinsRef s) \/ NoGrace.Coin.x c = 1000))).
Proof.
  split; intros g0 time [s g] Hr Hp; cbv zeta; simpl fst in *;
    simpl snd in *.
  - pose proof (GraceMore.grace_reachable_speed g0 (s, g) Hr) as Hv.
    simpl in Hv.
    destruct (GraceMore.grace_update_speed time s g Hp) as [Ev _].
    rewrite Ev. split.
    + intros obs' Hin.
      destruct (GraceMore.grace_update_obstacle_origin time s g obs' Hp Hin)
        as (_ & obs & E & Hfrom).
      exists obs. split; [exact E|]. split.
      * rewrite E. simpl. to_Q. unfold Grace.SPEED_INCREMENT. lra.
      * destruct Hfrom as [H|(H & _)]; [left|right]; exact H.
    + intros c' Hin.
      destruct (GraceMore.grace_update_coin_origin time s g c' Hp Hin)
        as (_ & c & E & Hfrom).
      exists c. split; [exact E|]. split.
      * apply (f_equal (fun t => snd (fst t))) in E. simpl in E.
        rewrite E. to_Q. unfold Grace.SPEED_INCREMENT. lra.
      * destruct Hfrom as [H|((H & _) & _)]; [left|right]; exact H.
  - destruct (NoGraceMore.nograce_reachable_entities g0 (s, g) Hr)
      as (Hv & _).
    simpl in Hv.
    destruct (NoGraceMore.nograce_update_lists time s g Hp)
      as (_ & _ & _ & _ & Ev & _).
    destruct (NoGraceMore.nograce_update_origin time s g Hp) as [Ho Hc].
    rewrite Ev. split.
    + intros obs' Hin. destruct (Ho obs' Hin) as (obs & E & Hfrom).
      exists obs. split; [exact E|]. split; [|exact Hfrom].
      rewrite E. simpl. to_Q. unfold NoGrace.SPEED_INCREMENT. lra.
    + intros c' Hin. destruct (Hc c' Hin) as (c & E & Hfrom).
      exists c. split; [exact E|]. split; [|exact Hfrom].
      apply (f_equal fst) in E. simpl in E.
      rewrite E. to_Q. unfold NoGrace.SPEED_INCREMENT. lra.
Qed.

Lemma X4_entities_scroll_left_witness :
  (let s := fst Sample.graceSpawning in
   let s' := fst (Grace.update 1280 s (snd Sample.graceSpawning)) in
   (length (Grace.obstaclesRef s) = 1%nat /\
    length (Grace.obstaclesRef s') = 2%nat) /\
   (forall obs', In obs' (Grace.obstaclesRef s') ->
      exists obs,
        obs' = Grace.moveObstacle (Grace.gameSpeedRef s') obs /\
        Grace.Obstacle.x obs' < Grace.Obstacle.x obs /\
        (In obs (Grace.obstaclesRef s) \/
         Grace.Obstacle.id obs = Grace.nextIdRef s)) /\
   (forall c', In c' (Grace.coinsRef s') ->
      exists c,
        More.coinShape c'
        = More.coinShape (Grace.moveCoin (Grace.gameSpeedRef s') c) /\
        Grace.Coin.x c' < Grace.Coin.x c /\
        (In c (Grace.coinsRef s) \/
         (Grace.nextIdRef s <= Grace.Coin.id c)%Z))) /\
  (let s := fst Sample.nograceDoomed in
   let s' := fst (NoGrace.update 2864 s (snd Sample.nograceDoomed)) in
   (length (NoGrace.obstaclesRef s') = 2%nat /\
    length (NoGrace.coinsRef s') = 1%nat) /\
   (forall obs', In obs' (NoGrace.obstaclesRef s') ->
      exists obs,
        obs' = NoGrace.moveObstacle (NoGrace.gameSpeedRef s') obs /\
        NoGrace.Obstacle.x obs' < NoGrace.Obstacle.x obs /\
        (In obs (NoGrace.obstaclesRef s) \/
         NoGrace.Obstacle.x obs = 1000)) /\
   (forall c', In c' (NoGrace.coinsRef s') ->
      exists c,
        More.nograceCoinShape c'
        = More.nograceCoinShape
            (NoGrace.moveCoin (NoGrace.gameSpeedRef s') c) /\
        NoGrace.Coin.x c' < NoGrace.Coin.x c /\
        (In c (NoGrace.coinsRef s) \/ NoGrace.Coin.x c = 1000))).
Proof.
  split; cbv zeta; (split; [vm_compute; split; reflexivity|]).
  - apply (proj1 X4_entities_scroll_left Sample.threeDraws 1280
             Sample.graceSpawning).
    + exact graceSpawning_reachable.
    + vm_compute. reflexivity.
  - apply (proj2 X4_entities_scroll_left Sample.bushCoinBush 2864
             Sample.nograceDoomed).
    + exact nograceDoomed_reachable.
    + vm_compute. reflexivity.
Defined.

(** X5.  The ids of the "hit" revision.  In a state the page reaches the
    ids of the obstacles and of the coins in the lists are pairwise
    distinct, across the two lists as well, and all below the counter
    [nextIdRef] from which the next one is taken; no handler takes the
    counter back, [resetGame] included, which leaves it where it is. *)
Theorem X5_ids_are_unique :
  (forall (g0 : Rng) (st : Grace.Game * Rng),
      Grace.reachable g0 st ->
      NoDup (More.ids (fst st)) /\
      Forall (fun k => (k < Grace.nextIdRef (fst st))%Z) (More.ids (fst st))) /\
  (forall (e : Grace.Event) (st : Grace.Game * Rng),
      (Grace.nextIdRef (fst st) <= Grace.nextIdRef (fst (Grace.step e st)))%Z).
Proof.
  split.
  - apply GraceMore.grace_reachable_ids.
  - intros e st. apply GraceMore.grace_step_nextId.
Qed.

Lemma X5_ids_are_unique_witness :
  More.ids (fst Sample.graceDoomed) = [0%Z; 1%Z] /\
  Grace.nextIdRef (fst Sample.graceDoomed) = 2%Z /\
  NoDup (More.ids (fst Sample.graceDoomed)) /\
  Forall (fun k => (k < Grace.nextIdRef (fst Sample.graceDoomed))%Z)
    (More.ids (fst Sample.graceDoomed)).
Proof.
  split; [vm_compute; reflexivity|]. split; [vm_compute; reflexivity|].
  exact (proj1 X5_ids_are_unique Sample.rockAndCoin Sample.graceDoomed
           graceDoomed_reachable).
Defined.

(** X6.  The band of the "hit" revision.  With draws in [[0, 1)], in a
    state the page reaches every obstacle lies between the pruning line
    -200 and 1600, every coin between -100 and 1300; as obstacles are
    more than 500 apart, the obstacle list never holds more than four. *)
Theorem X6_band_and_obstacle_count :
  forall (g0 : Rng) (st : Grace.Game * Rng),
    unit_interval g0 -> Grace.reachable g0 st ->
    Forall (fun o => -200 < Grace.Obstacle.x o /\ Grace.Obstacle.x o < 1600)
      (Grace.obstaclesRef (fst st)) /\
    Forall (fun c => -100 < Grace.Coin.x c /\ Grace.Coin.x c <= 1300)
      (Grace.coinsRef (fst st)) /\
    (length (Grace.obstaclesRef (fst st)) <= 4)%nat.
Proof.
  intros g0 st Hu Hr.
  destruct (GraceMore.grace_reachable_band g0 st Hu Hr) as [Ho Hc].
  split; [exact Ho|]. split; [exact Hc|].
  apply GraceMore.grace_spaced_count; [|exact Ho].
  apply (GraceFacts.grace_reachable_spaced g0 st Hu Hr).
Qed.

Lemma X6_band_and_obstacle_count_witness :
  Forall (fun o => -200 < Grace.Obstacle.x o /\ Grace.Obstacle.x o < 1600)
    (Grace.obstaclesRef (fst Sample.graceSpawning)) /\
  Forall (fun c => -100 < Grace.Coin.x c /\ Grace.Coin.x c <= 1300)
    (Grace.coinsRef (fst Sample.graceSpawning)) /\
  (length (Grace.obstaclesRef (fst Sample.graceSpawning)) <= 4)%nat.
Proof.
  exact (X6_band_and_obstacle_count Sample.threeDraws Sample.graceSpawning
           threeDraws_unit_interval graceSpawning_reachable).
Defined.

(** X7.  The obstacles of the "hit" revision.  In a state the page reaches
    every obstacle of the list has one of the three shapes of the
    spawning block (rock 50 by 50, bush 60 by 50, tree 70 by 90), so that
    the inset hitbox built for it in the obstacle loop has positive width
    and height. *)
Theorem X7_obstacle_shapes :
  forall (g0 : Rng) (st : Grace.Game * Rng),
    Grace.reachable g0 st ->
    Forall (fun o => More.shaped o /\ Spec.proper (Grace.obsHitbox o))
      (Grace.obstaclesRef (fst st)).
Proof.
  intros g0 st Hr.
  eapply Forall_impl; [|exact (GraceMore.grace_reachable_shaped g0 st Hr)].
  intros o Hs. split; [exact Hs|].
  unfold Spec.proper, Grace.obsHitbox. simpl.
  destruct Hs as [(_ & -> & ->)|[(_ & -> & ->)|(_ & -> & ->)]];
    split; reflexivity.
Qed.

Lemma X7_obstacle_shapes_witness :
  map Grace.Obstacle.type
    (Grace.obstaclesRef (fst More.graceTwoObstacles))
  = [Grace.rock; Grace.bush] /\
  Forall (fun o => More.shaped o /\ Spec.proper (Grace.obsHitbox o))
    (Grace.obstaclesRef (fst More.graceTwoObstacles)).
Proof.
  split; [vm_compute; reflexivity|].
  apply (X7_obstacle_shapes Sample.threeDraws More.graceTwoObstacles).
  apply (Grace.reach_step _ (Grace.Frame 1280) _ graceSpawning_reachable).
  reflexivity.
Defined.

(** X8.  The entities of the game.tsx revision.  In a state the page
    reaches every obstacle is 50 by 50, every coin floats at -100 or -50,
    and all of them lie between the pruning line -100 and the spawning
    position 1000. *)
Theorem X8_nograce_entities :
  forall (g0 : Rng) (st : NoGrace.Game * Rng),
    NoGrace.reachable g0 st ->
    Forall (fun o => NoGrace.Obstacle.w o = 50 /\ NoGrace.Obstacle.h o = 50 /\
                     -100 < NoGrace.Obstacle.x o /\
                     NoGrace.Obstacle.x o < 1000)
      (NoGrace.obstaclesRef (fst st)) /\
    Forall (fun c => (NoGrace.Coin.y c = -100 \/ NoGrace.Coin.y c = -50) /\
                     -100 < NoGrace.Coin.x c /\ NoGrace.Coin.x c < 1000)
      (NoGrace.coinsRef (fst st)).
Proof.
  intros g0 st Hr.
  apply (NoGraceMore.nograce_reachable_entities g0 st Hr).
Qed.

Lemma X8_nograce_entities_witness :
  (length (NoGrace.obstaclesRef (fst Sample.nograceDoomed)) = 2%nat /\
   length (NoGrace.coinsRef (fst Sample.nograceDoomed)) = 1%nat) /\
  Forall (fun o => NoGrace.Obstacle.w o = 50 /\ NoGrace.Obstacle.h o = 50 /\
                   -100 < NoGrace.Obstacle.x o /\
                   NoGrace.Obstacle.x o < 1000)
    (NoGrace.obstaclesRef (fst Sample.nograceDoomed)) /\
  Forall (fun c => (NoGrace.Coin.y c = -100 \/ NoGrace.Coin.y c = -50) /\
                   -100 < NoGrace.Coin.x c /\ NoGrace.Coin.x c < 1000)
    (NoGrace.coinsRef (fst Sample.nograceDoomed)).
Proof.
  split; [vm_compute; split; reflexivity|].
  exact (X8_nograce_entities Sample.bushCoinBush Sample.nograceDoomed
           nograceDoomed_reachable).
Defined.

(** X9.  The coin loop, in both revisions.  It adds to the coin count the
    number of coins that are not yet collected and whose hitbox overlaps
    the player's, sets the flag of exactly these, changes nothing else of
    a coin, and leaves no coin it would mark: run again at once it changes
    nothing, so a coin is counted once. *)
Theorem X9_coin_loop :
  (forall (ph : Rect.t) (s : Grace.Game),
      Grace.coins (Grace.collectCoins ph s)
      = (Grace.coins s
         + Z.of_nat (length (filter (More.collectable ph)
                               (Grace.coinsRef s))))%Z /\
      map Grace.Coin.collected (Grace.coinsRef (Grace.collectCoins ph s))
      = map (fun c => Grace.Coin.collected c
                      || overlap ph (Grace.coinHitbox c))
          (Grace.coinsRef s) /\
      map More.coinShape (Grace.coinsRef (Grace.collectCoins ph s))
      = map More.coinShape (Grace.coinsRef s) /\
      Grace.collectCoins ph (Grace.collectCoins ph s)
      = Grace.collectCoins ph s) /\
  (forall (ph : Rect.t) (s : NoGrace.Game),
      NoGrace.coins (NoGrace.collectCoins ph s)
      = (NoGrace.coins s
         + Z.of_nat (length (filter (More.nograceCollectable ph)
                               (NoGrace.coinsRef s))))%Z /\
      map NoGrace.Coin.collected
        (NoGrace.coinsRef (NoGrace.collectCoins ph s))
      = map (fun c => NoGrace.Coin.collected c
                      || overlap ph (NoGrace.coinHitbox c))
          (NoGrace.coinsRef s) /\
      map More.nograceCoinShape
        (NoGrace.coinsRef (NoGrace.collectCoins ph s))
      = map More.nograceCoinShape (NoGrace.coinsRef s) /\
      NoGrace.collectCoins ph (NoGrace.collectCoins ph s)
      = NoGrace.collectCoins ph s).
Proof.
  split; intros ph s.
  - pose proof (GraceMore.grace_checkCoins_count ph (Grace.coinsRef s)
                  (Grace.coins s)) as Hn.
    pose proof (GraceMore.grace_checkCoins_flags ph (Grace.coinsRef s)
                  (Grace.coins s)) as Hf.
    pose proof (GraceFacts.grace_checkCoins_shape ph (Grace.coinsRef s)
                  (Grace.coins s)) as Hs.
    pose proof (GraceMore.grace_checkCoins_done ph (Grace.coinsRef s)
                  (Grace.coins s)) as Hd.
    unfold Grace.collectCoins.
    destruct (Grace.checkCoins ph (Grace.coinsRef s) (Grace.coins s))
      as [cs n].
    simpl in *. repeat split; try assumption.
    rewrite (GraceMore.grace_checkCoins_nothing ph cs n Hd). reflexivity.
  - pose proof (NoGraceMore.nograce_checkCoins_count ph (NoGrace.coinsRef s)
                  (NoGrace.coins s)) as Hn.
    pose proof (NoGraceMore.nograce_checkCoins_flags ph (NoGrace.coinsRef s)
                  (NoGrace.coins s)) as Hf.
    pose proof (NoGraceMore.nograce_checkCoins_shape ph (NoGrace.coinsRef s)
                  (NoGrace.coins s)) as Hs.
    pose proof (NoGraceMore.nograce_checkCoins_done ph (NoGrace.coinsRef s)
                  (NoGrace.coins s)) as Hd.
    unfold NoGrace.collectCoins.
    destruct (NoGrace.checkCoins ph (NoGrace.coinsRef s) (NoGrace.coins s))
      as [cs n].
    simpl in *. repeat split; try assumption.
    rewrite (NoGraceMore.nograce_checkCoins_nothing ph cs n Hd). reflexivity.
Qed.

(** X10.  In the "hit" revision coins are out of reach from the ground.
    The coins float at 70 or 160 and the player's hitbox is 60 high: in a
    state the page reaches, a tick on which the player ends at a height of
    at most 10, in particular every tick that starts with the player on
    the ground, leaves the coin count as it is. *)
Theorem X10_coins_need_a_jump :
  forall (g0 : Rng) (time : number) (st : Grace.Game * Rng),
    Grace.reachable g0 st ->
    Player.grounded (Grace.playerRef (fst st)) = true \/
    Player.y (Grace.physics (Grace.playerRef (fst st))) <= 10 ->
    Grace.coins (fst (Grace.update time (fst st) (snd st)))
    = Grace.coins (fst st).
Proof.
  intros g0 time [s g] Hr Hlow. simpl fst in *. simpl snd in *.
  destruct (Grace.gameState s) eqn:Es;
    try (rewrite GraceFacts.grace_update_not_playing by congruence;
         reflexivity).
  apply GraceMore.grace_update_coins_low; [exact Es| |].
  - exact (GraceMore.grace_reachable_coin_heights g0 (s, g) Hr).
  - destruct Hlow as [Hg|Hy]; [|exact Hy].
    pose proof (GraceMore.grace_reachable_arc g0 (s, g) Hr) as Ha.
    simpl in Ha. rewrite (GraceMore.grace_arc_grounded _ Ha Hg).
    vm_compute. discriminate.
Qed.

Lemma X10_coins_need_a_jump_witness :
  let s' := fst (Grace.update 2624 (fst More.graceUnderCoin)
                   (snd More.graceUnderCoin)) in
  (Grace.gameState s' = Grace.playing /\
   map (fun c => (Grace.Coin.x c, Grace.Coin.y c, Grace.Coin.collected c))
     (Grace.coinsRef s')
   = [(Qred 145.235, 70, false)]) /\
  Grace.coins s' = Grace.coins (fst More.graceUnderCoin).
Proof.
  cbv zeta. split; [vm_compute; split; reflexivity|].
  apply (X10_coins_need_a_jump Sample.rockAndCoin 2624 More.graceUnderCoin).
  - apply GraceFacts.grace_reachable_run; [apply Grace.reach_mount|].
    vm_compute. reflexivity.
  - left. vm_compute. reflexivity.
Defined.

(** X11.  The collision windows of the game.tsx revision.  In a state the
    page reaches the last comparison of either overlap test holds by
    itself, and with the sizes of the entities the tests come down to
    this: an obstacle is hit when its left edge is between 0 and 90 and
    the player is less than 80 from the ground; a coin overlaps the player
    when its left edge is between 20 and 90 and the player is less than 10
    (coin at -100) or 60 (coin at -50) from the ground.  A player standing
    on the ground is within reach of both rows of coins. *)
Theorem X11_nograce_collision_windows :
  forall (g0 : Rng) (st : NoGrace.Game * Rng),
    NoGrace.reachable g0 st ->
    let p := NoGrace.playerRef (fst st) in
    (forall obs, In obs (NoGrace.obstaclesRef (fst st)) ->
       NoGrace.hits (NoGrace.playerHitbox p) obs = true <->
       (0 < NoGrace.Obstacle.x obs /\ NoGrace.Obstacle.x obs < 90) /\
       -80 < Player.y p) /\
    (forall c, In c (NoGrace.coinsRef (fst st)) ->
       overlap (NoGrace.playerHitbox p) (NoGrace.coinHitbox c) = true <->
       (20 < NoGrace.Coin.x c /\ NoGrace.Coin.x c < 90) /\
       -110 - NoGrace.Coin.y c < Player.y p).
Proof.
  intros g0 st Hr p.
  destruct (NoGraceMore.nograce_reachable_entities g0 st Hr)
    as (_ & Ho & Hc).
  pose proof (NoGraceMore.nograce_arc_height _
                (NoGraceMore.nograce_reachable_arc g0 st Hr)) as [_ Hy].
  fold p in Hy. rewrite Forall_forall in Ho, Hc. split.
  - intros obs Hin. destruct (Ho obs Hin) as (Hw & Hh & _).
    apply NoGraceMore.nograce_hits_window; [lra|exact Hw|exact Hh].
  - intros c Hin. destruct (Hc c Hin) as (Hh & _).
    apply NoGraceMore.nograce_coin_window; [lra|exact Hh].
Qed.

Lemma X11_nograce_collision_windows_witness :
  let p := NoGrace.playerRef (fst More.nograceOver) in
  (p = More.atRest /\
   map NoGrace.Obstacle.x (NoGrace.obstaclesRef (fst More.nograceOver))
   = [Qred 88.89; Qred 588.84] /\
   map NoGrace.Coin.x (NoGrace.coinsRef (fst More.nograceOver))
   = [Qred 88.89]) /\
  (forall obs, In obs (NoGrace.obstaclesRef (fst More.nograceOver)) ->
     NoGrace.hits (NoGrace.playerHitbox p) obs = true <->
     (0 < NoGrace.Obstacle.x obs /\ NoGrace.Obstacle.x obs < 90) /\
     -80 < Player.y p) /\
  (forall c, In c (NoGrace.coinsRef (fst More.nograceOver)) ->
     overlap (NoGrace.playerHitbox p) (NoGrace.coinHitbox c) = true <->
     (20 < NoGrace.Coin.x c /\ NoGrace.Coin.x c < 90) /\
     -110 - NoGrace.Coin.y c < Player.y p).
Proof.
  cbv zeta. split; [vm_compute; repeat split; reflexivity|].
  apply (X11_nograce_collision_windows Sample.bushCoinBush More.nograceOver).
  apply (NoGrace.reach_step _ (NoGrace.Frame 2864) _ nograceDoomed_reachable).
  reflexivity.
Defined.

(** X12.  The outcome of a tick of the "hit" revision.  A tick taken while
    playing ends in "hit" when, after the moving and pruning, some
    obstacle's hitbox overlaps the player's, and then the score
    accumulator, the displayed score and the re-render counter are as
    before; otherwise it ends in "playing", the accumulator has grown by
    0.15, the displayed score is its floor and the re-render counter has
    grown by one. *)
Theorem X12_tick_outcome_and_score :
  forall (time : number) (s : Grace.Game) (g : Rng),
    Grace.gameState s = Grace.playing ->
    let m := fst (Grace.beforeCollision time s g) in
    let s' := fst (Grace.update time s g) in
    if existsb (Grace.hits (Grace.playerHitbox (Grace.playerRef m)))
         (Grace.obstaclesRef m)
    then Grace.gameState s' = Grace.hit /\
         Grace.scoreRef s' = Grace.scoreRef s /\
         Grace.score s' = Grace.score s /\ Grace.tick s' = Grace.tick s
    else Grace.gameState s' = Grace.playing /\
         Grace.scoreRef s' == (Grace.scoreRef s + 0.15)%Q /\
         Grace.score s' = floor (Grace.scoreRef s') /\
         Grace.tick s' = (Grace.tick s + 1)%Z.
Proof.
  intros time s g Hp m s'.
  pose proof (GraceFacts.grace_beforeCollision_untouched time s g)
    as (Hg & Hsc & _ & Ht & Hsr & _).
  fold m in Hg, Hsc, Ht, Hsr. unfold s'.
  destruct (existsb _ _) eqn:E.
  - rewrite (GraceFacts.grace_update_hit time s g Hp E). fold m. simpl.
    tauto.
  - rewrite (GraceFacts.grace_update_clear time s g Hp E). fold m.
    set (ph := Grace.playerHitbox (Grace.playerRef m)).
    destruct (GraceMore.grace_collectCoins_score ph m) as (A & B & C).
    destruct (GraceFacts.grace_collectCoins_frame ph m) as (D & _).
    unfold Grace.addScore. simpl. rewrite A, C, D, Hg, Hsr, Ht.
    repeat split; try assumption; try reflexivity. apply add_eq.
Qed.

Lemma X12_tick_outcome_and_score_witness :
  (let s := fst Sample.graceDoomed in
   let s' := fst (Grace.update 2640 s (snd Sample.graceDoomed)) in
   Grace.gameState s' = Grace.hit /\
   Grace.scoreRef s' = Grace.scoreRef s /\
   Grace.score s' = Grace.score s /\ Grace.tick s' = Grace.tick s) /\
  (let s := fst More.graceUnderCoin in
   let s' := fst (Grace.update 2624 s (snd More.graceUnderCoin)) in
   Grace.gameState s' = Grace.playing /\
   Grace.scoreRef s' == (Grace.scoreRef s + 0.15)%Q /\
   Grace.score s' = floor (Grace.scoreRef s') /\
   Grace.tick s' = (Grace.tick s + 1)%Z).
Proof.
  cbv zeta. split.
  - pose proof (X12_tick_outcome_and_score 2640 (fst Sample.graceDoomed)
                  (snd Sample.graceDoomed)) as H.
    cbv zeta in H.
    assert (E : existsb
                  (Grace.hits
                     (Grace.playerHitbox
                        (Grace.playerRef
                           (fst (Grace.beforeCollision 2640
                                   (fst Sample.graceDoomed)
                                   (snd Sample.graceDoomed))))))
                  (Grace.obstaclesRef
                     (fst (Grace.beforeCollision 2640
                             (fst Sample.graceDoomed)
                             (snd Sample.graceDoomed)))) = true)
      by (vm_compute; reflexivity).
    rewrite E in H. apply H. vm_compute. reflexivity.
  - pose proof (X12_tick_outcome_and_score 2624 (fst More.graceUnderCoin)
                  (snd More.graceUnderCoin)) as H.
    cbv zeta in H.
    assert (E : existsb
                  (Grace.hits
                     (Grace.playerHitbox
                        (Grace.playerRef
                           (fst (Grace.beforeCollision 2624
                                   (fst More.graceUnderCoin)
                                   (snd More.graceUnderCoin))))))
                  (Grace.obstaclesRef
                     (fst (Grace.beforeCollision 2624
                             (fst More.graceUnderCoin)
                             (snd More.graceUnderCoin)))) = false)
      by (vm_compute; reflexivity).
    rewrite E in H. apply H. vm_compute. reflexivity.
Defined.

(** X13.  The score.  In a state the page reaches the displayed score is
    the floor of the score accumulator, the accumulator is not negative,
    and no frame lowers the displayed score. *)
Theorem X13_score_is_floor_of_accumulator :
  (forall (g0 : Rng) (time : number) (st : Grace.Game * Rng),
      Grace.reachable g0 st ->
      Grace.score (fst st) = floor (Grace.scoreRef (fst st)) /\
      0 <= Grace.scoreRef (fst st) /\
      (Grace.score (fst st)
       <= Grace.score (fst (Grace.step (Grace.Frame time) st)))%Z) /\
  (forall (g0 : Rng) (time : number) (st : NoGrace.Game * Rng),
      NoGrace.reachable g0 st ->
      NoGrace.score (fst st) = floor (NoGrace.scoreRef (fst st)) /\
      0 <= NoGrace.scoreRef (fst st) /\
      (NoGrace.score (fst st)
       <= NoGrace.score (fst (NoGrace.step (NoGrace.Frame time) st)))%Z).
Proof.
  split; intros g0 time st Hr.
  - destruct (GraceMore.grace_reachable_score g0 st Hr) as [A B].
    split; [exact A|]. split; [exact B|].
    destruct st as [s g]. apply (GraceMore.grace_update_score_le g0).
    exact Hr.
  - destruct (NoGraceMore.nograce_reachable_score g0 st Hr) as [A B].
    split; [exact A|]. split; [exact B|].
    destruct st as [s g]. simpl in *.
    destruct (NoGrace.gameState s) eqn:Es.
    + destruct (NoGraceMore.nograce_update_score time s g Es)
        as (_ & _ & C).
      rewrite C, A. unfold floor. apply Qfloor_resp_le. to_Q. lra.
    + rewrite NoGraceFacts.nograce_update_not_playing by congruence.
      simpl. lia.
Qed.

Lemma X13_score_is_floor_of_accumulator_witness :
  (Grace.scoreRef (fst Sample.graceDoomed) == 24.6 /\
   Grace.score (fst Sample.graceDoomed) = 24%Z /\
   NoGrace.scoreRef (fst Sample.nograceDoomed) == 17.8 /\
   NoGrace.score (fst Sample.nograceDoomed) = 17%Z) /\
  (Grace.score (fst Sample.graceDoomed)
   = floor (Grace.scoreRef (fst Sample.graceDoomed)) /\
   0 <= Grace.scoreRef (fst Sample.graceDoomed) /\
   Z.le (Grace.score (fst Sample.graceDoomed))
     (Grace.score (fst (Grace.step (Grace.Frame 2640) Sample.graceDoomed)))) /\
  (NoGrace.score (fst Sample.nograceDoomed)
   = floor (NoGrace.scoreRef (fst Sample.nograceDoomed)) /\
   0 <= NoGrace.scoreRef (fst Sample.nograceDoomed) /\
   Z.le (NoGrace.score (fst Sample.nograceDoomed))
     (NoGrace.score
        (fst (NoGrace.step (NoGrace.Frame 2864) Sample.nograceDoomed)))).
Proof.
  split; [vm_compute; repeat split; reflexivity|]. split.
  - exact (proj1 X13_score_is_floor_of_accumulator Sample.rockAndCoin 2640
             Sample.graceDoomed graceDoomed_reachable).
  - exact (proj2 X13_score_is_floor_of_accumulator Sample.bushCoinBush 2864
             Sample.nograceDoomed nograceDoomed_reachable).
Defined.

(** X14.  The jump.  In a state the page reaches the player is at rest on
    the ground or in one of the states of the one jump the constants
    allow, the take-off set by [handleJump] followed tick by tick by the
    physics block until the ground collision (58 ticks in the "hit"
    revision, 40 in the game.tsx revision).  So the player is grounded
    exactly when at rest at 0 with velocity 0, there is no second jump in
    the air, and the player stays between the ground and the top of the
    jump, which is 224.75 in the "hit" revision and -114 in the game.tsx
    revision, whose axis points down: never above 225, never beyond
    -115. *)
Theorem X14_jump_arc :
  (forall (g0 : Rng) (st : Grace.Game * Rng),
      Grace.reachable g0 st ->
      let p := Grace.playerRef (fst st) in
      In p More.graceJumpArc /\
      (Player.grounded p = true <-> p = More.atRest) /\
      0 <= Player.y p /\ Player.y p <= 225) /\
  (forall (g0 : Rng) (st : NoGrace.Game * Rng),
      NoGrace.reachable g0 st ->
      let p := NoGrace.playerRef (fst st) in
      In p More.nograceJumpArc /\
      (Player.grounded p = true <-> p = More.atRest) /\
      -115 <= Player.y p /\ Player.y p <= 0).
Proof.
  split; intros g0 st Hr p.
  - pose proof (GraceMore.grace_reachable_arc g0 st Hr) as Ha. fold p in Ha.
    split; [exact Ha|]. split.
    + split; [apply GraceMore.grace_arc_grounded; exact Ha|].
      intros ->. reflexivity.
    + apply GraceMore.grace_arc_height. exact Ha.
  - pose proof (NoGraceMore.nograce_reachable_arc g0 st Hr) as Ha.
    fold p in Ha. split; [exact Ha|]. split.
    + split; [apply NoGraceMore.nograce_arc_grounded; exact Ha|].
      intros ->. reflexivity.
    + apply NoGraceMore.nograce_arc_height. exact Ha.
Qed.

Lemma X14_jump_arc_witness :
  (Grace.playerRef (fst More.graceStruck)
   = Player.mk (Qred 15.45) (Qred 15.45) false /\
   NoGrace.playerRef (fst Sample.nograceLeaving) = More.atRest) /\
  (let p := Grace.playerRef (fst More.graceStruck) in
   In p More.graceJumpArc /\
   (Player.grounded p = true <-> p = More.atRest) /\
   0 <= Player.y p /\ Player.y p <= 225) /\
  (let p := NoGrace.playerRef (fst Sample.nograceLeaving) in
   In p More.nograceJumpArc /\
   (Player.grounded p = true <-> p = More.atRest) /\
   -115 <= Player.y p /\ Player.y p <= 0).
Proof.
  split; [vm_compute; split; reflexivity|]. split.
  - apply (proj1 X14_jump_arc Sample.rockAndCoin More.graceStruck).
    apply (Grace.reach_step _ (Grace.Frame 2640) _ graceDoomed_reachable).
    reflexivity.
  - exact (proj2 X14_jump_arc Sample.oneBush Sample.nograceLeaving
             nograceLeaving_reachable).
Defined.

(** X15.  The collision window of the "hit" revision.  In a state the page
    reaches the player is at or above the ground, so the last comparison
    of the obstacle test holds by itself: an obstacle is hit exactly when
    its left edge lies between 130 minus its width and 140 and the player
    is lower than the obstacle's height minus 10. *)
Theorem X15_grace_collision_window :
  forall (g0 : Rng) (st : Grace.Game * Rng) (obs : Grace.Obstacle.t),
    Grace.reachable g0 st ->
    Grace.hits (Grace.playerHitbox (Grace.playerRef (fst st))) obs = true <->
    (130 - Grace.Obstacle.w obs < Grace.Obstacle.x obs /\
     Grace.Obstacle.x obs < 140) /\
    Player.y (Grace.playerRef (fst st)) < Grace.Obstacle.h obs - 10.
Proof.
  intros g0 st obs Hr. apply GraceMore.grace_hits_window.
  pose proof (GraceFacts.grace_reachable_offset g0 st Hr) as H.
  unfold Grace.verticalOffset in H. lra.
Qed.

Lemma X15_grace_collision_window_witness :
  (map (fun o => (Grace.Obstacle.x o, Grace.Obstacle.w o, Grace.Obstacle.h o))
     (Grace.obstaclesRef (fst More.graceStruck))
   = [(Qred 138.1525, 50, 50)] /\
   Player.y (Grace.playerRef (fst More.graceStruck)) == 15.45) /\
  forall obs,
    Grace.hits (Grace.playerHitbox (Grace.playerRef (fst More.graceStruck)))
      obs = true <->
    (130 - Grace.Obstacle.w obs < Grace.Obstacle.x obs /\
     Grace.Obstacle.x obs < 140) /\
    Player.y (Grace.playerRef (fst More.graceStruck))
    < Grace.Obstacle.h obs - 10.
Proof.
  split; [vm_compute; split; reflexivity|]. intros obs.
  apply (X15_grace_collision_window Sample.rockAndCoin More.graceStruck obs).
  apply (Grace.reach_step _ (Grace.Frame 2640) _ graceDoomed_reachable).
  reflexivity.
Defined.

(** X16.  The random draws of a tick.  A tick taken while playing calls
    [Math.random] at least twice, once for each of the two spawn
    decisions, and at most five times in the "hit" revision (kind and
    position of the obstacle, height of the coin) and four in the game.tsx
    revision (kind of the obstacle, height of the coin); it reads the
    supply and never changes it. *)
Theorem X16_draws_per_tick :
  (forall (time : number) (s : Grace.Game) (g : Rng),
      Grace.gameState s = Grace.playing ->
      supply (snd (Grace.update time s g)) = supply g /\
      (cursor g + 2 <= cursor (snd (Grace.update time s g)) <= cursor g + 5)%nat) /\
  (forall (time : number) (s : NoGrace.Game) (g : Rng),
      NoGrace.gameState s = NoGrace.playing ->
      supply (snd (NoGrace.update time s g)) = supply g /\
      (cursor g + 2 <= cursor (snd (NoGrace.update time s g))
       <= cursor g + 4)%nat).
Proof.
  split; intros time s g Hp.
  - split; [apply GraceFacts.grace_update_supply|].
    apply GraceMore.grace_update_draws. exact Hp.
  - apply NoGraceMore.nograce_update_draws. exact Hp.
Qed.

Lemma X16_draws_per_tick_witness :
  let g1 := snd (Grace.update 1280 (fst Sample.graceSpawning)
                   (snd Sample.graceSpawning)) in
  let g2 := snd (NoGrace.update 2864 (fst Sample.nograceDoomed)
                   (snd Sample.nograceDoomed)) in
  (cursor (snd Sample.graceSpawning) = 161%nat /\ cursor g1 = 165%nat /\
   cursor (snd Sample.nograceDoomed) = 359%nat /\ cursor g2 = 361%nat) /\
  (supply g1 = supply (snd Sample.graceSpawning) /\
   (cursor (snd Sample.graceSpawning) + 2 <= cursor g1
    <= cursor (snd Sample.graceSpawning) + 5)%nat) /\
  (supply g2 = supply (snd Sample.nograceDoomed) /\
   (cursor (snd Sample.nograceDoomed) + 2 <= cursor g2
    <= cursor (snd Sample.nograceDoomed) + 4)%nat).
Proof.
  cbv zeta. split; [vm_compute; repeat split; reflexivity|]. split.
  - apply (proj1 X16_draws_per_tick 1280
             (fst Sample.graceSpawning) (snd Sample.graceSpawning)).
    vm_compute. reflexivity.
  - apply (proj2 X16_draws_per_tick 2864
             (fst Sample.nograceDoomed) (snd Sample.nograceDoomed)).
    vm_compute. reflexivity.
Defined.

(** X17.  The run state of the game.tsx revision.  A tick taken while
    playing ends in "gameover" when, after the moving and pruning, some
    obstacle's hitbox overlaps the player's, and in "playing" otherwise.
    Under the events the page delivers the run state only stays or moves
    playing -> gameover (on a frame) and gameover -> playing (on reset). *)
Theorem X17_nograce_run_state :
  (forall (time : number) (s : NoGrace.Game) (g : Rng),
      NoGrace.gameState s = NoGrace.playing ->
      let m := fst (NoGrace.beforeCollision time s g) in
      NoGrace.gameState (fst (NoGrace.update time s g))
      = if existsb (NoGrace.hits (NoGrace.playerHitbox (NoGrace.playerRef m)))
             (NoGrace.obstaclesRef m)
        then NoGrace.gameover else NoGrace.playing) /\
  (forall (e : NoGrace.Event) (st : NoGrace.Game * Rng),
      NoGrace.enabled e (fst st) = true ->
      let a := NoGrace.gameState (fst st) in
      let b := NoGrace.gameState (fst (NoGrace.step e st)) in
      b = a \/
      (a = NoGrace.playing /\ b = NoGrace.gameover /\
       exists time, e = NoGrace.Frame time) \/
      (a = NoGrace.gameover /\ b = NoGrace.playing /\ e = NoGrace.TryAgain)).
Proof.
  split.
  - intros time s g Hp.
    apply (NoGraceMore.nograce_update_score time s g Hp).
  - intros e [s g] En. apply NoGraceMore.nograce_step_state. exact En.
Qed.

Lemma X17_nograce_run_state_witness :
  (NoGrace.gameState (fst Sample.nograceDoomed) = NoGrace.playing /\
   NoGrace.gameState
     (fst (NoGrace.update 2864 (fst Sample.nograceDoomed)
             (snd Sample.nograceDoomed)))
   = NoGrace.gameover) /\
  (NoGrace.gameState (fst More.nograceOver) = NoGrace.gameover /\
   NoGrace.gameState (fst (NoGrace.step NoGrace.TryAgain More.nograceOver))
   = NoGrace.playing).
Proof.
  destruct X17_nograce_run_state as [A B]. split.
  - split; [vm_compute; reflexivity|].
    rewrite (A 2864 (fst Sample.nograceDoomed)
               (snd Sample.nograceDoomed));
      vm_compute; reflexivity.
  - split; [vm_compute; reflexivity|].
    destruct (B NoGrace.TryAgain More.nograceOver) as [H|[H|H]].
    + vm_compute. reflexivity.
    + vm_compute in H. discriminate H.
    + destruct H as (H & _). vm_compute in H. discriminate H.
    + exact (proj1 (proj2 H)).
Defined.
